(** * A unit-of-work session over a document store (session.py)

    Shallow embedding of [session.py]: the [Session] identity map with its
    [_created] / [_changed] / [_deleted] bookkeeping, the mutation-tracking
    proxies [Dictionary] and [List], and the row adapter [SessionRow].

    - Data.  Documents hold JSON data ([json]); document ids are strings, and
      a document whose [_id] is not a string makes the session raise
      [TypeError] where it uses the id as a key.
    - Objects.  Python objects live in a heap of cells.  Every raw document
      object (the [couchdb.Document] a store read decodes, the
      [copy.deepcopy] made by [create], a row's embedded document) owns one
      cell, and its proxy is identified with that cell: [x is y] on two
      document proxies is equality of cells.  A container nested in a
      document is addressed by the path it was read through, which is exact
      as long as the containers above it are not restructured meanwhile.
    - Effects.  Methods are computations over a [world] (heap, session,
      store, trace) that return a value or raise; the trace records the
      calls a proxy makes to its callback and to its subject, and the calls
      made to the store.
    - The store is a parameter ([Database]), and [uuid.uuid4] a stream of
      strings. *)

From stdpp Require Import gmap strings list fin_maps pretty.
From Stdlib Require Import ZArith.

Set Default Proof Using "Type".
Local Open Scope Z_scope.

(** ** Values *)

(** What a document holds: JSON data, [None] being [JNull]. *)
Inductive json : Type :=
  | JNull
  | JBool (b : bool)
  | JNum (n : Z)
  | JStr (s : string)
  | JList (xs : list json)
  | JDict (d : gmap string json).

#[global] Instance json_eq_dec : EqDecision json.
Proof.
  refine (fix go (a b : json) {struct a} : Decision (a = b) :=
    let _ : EqDecision json := go in
    match a, b with
    | JNull, JNull => left _
    | JBool x, JBool y => cast_if (decide (x = y))
    | JNum x, JNum y => cast_if (decide (x = y))
    | JStr x, JStr y => cast_if (decide (x = y))
    | JList x, JList y => cast_if (decide (x = y))
    | JDict x, JDict y => cast_if (decide (x = y))
    | _, _ => right _
    end); abstract congruence.
Defined.

#[global] Instance json_inhabited : Inhabited json := populate JNull.

(** Exceptions the modelled code raises or lets through.  [StoreError] is
    whatever the store client raises; [Detached] is raised by the model only,
    when a path no longer leads to a container. *)
Inductive exn : Type :=
  | KeyError
  | IndexError
  | ValueError
  | TypeError
  | ResourceNotFound
  | NotImplementedError
  | StoreError (code : nat)
  | Detached.

#[global] Instance exn_eq_dec : EqDecision exn.
Proof. solve_decision. Defined.

(** Result of a call: a value or a raised exception. *)
Inductive res (A : Type) : Type :=
  | Val (a : A)
  | Exc (e : exn).
Arguments Val {A} a.
Arguments Exc {A} e.

Definition loc := nat.

Inductive key : Type :=
  | KStr (s : string)
  | KIdx (i : nat).

(** A Python object reference: a heap cell and a path into its value. *)
Definition place : Type := loc * list key.

(** ** The store interface *)

(** One entry of the answer to a batched update. *)
Record response := Response { resp_id : string; resp_rev : string }.

(** A view or query row; [row_doc] is [None] without [include_docs]. *)
Record row := Row { row_id : string; row_doc : option (gmap string json) }.

(** The operations of [couchdb.Database] the session calls.  [db_get]
    answers [None] for a missing document (the client then returns the
    caller's default); every call may raise. *)
Class Database (D : Type) := {
  db_get : D → string → res (option (gmap string json));
  db_update : D → list (gmap string json) → res (list response) * D;
  db_view : D → string → list row;
  db_query : D → string → list row;
}.

(** ** The session record and the world *)

Record Session := MkSession {
  _cache : gmap string loc;
  _created : gset string;
  _changed : gset string;
  _deleted : gmap string json;
}.

Inductive event : Type :=
  | Notify                                  (* a proxy called its callback *)
  | Delegate (p : place) (method : string)  (* a proxy called its subject *)
  | DbGet (id : string)
  | DbUpdate (docs : list (gmap string json)).

(** [rng] counts the identifiers [uuid.uuid4()] has handed out. *)
Record world (D : Type) := World {
  heap : gmap loc json;
  session : Session;
  db : D;
  trace : list event;
  rng : nat;
}.
Arguments World {D} _ _ _ _ _.
Arguments heap {D} _.
Arguments session {D} _.
Arguments db {D} _.
Arguments trace {D} _.
Arguments rng {D} _.

Definition M (D A : Type) : Type := world D → res A * world D.

Definition ret {D A} (a : A) : M D A := λ w, (Val a, w).
Definition raise {D A} (e : exn) : M D A := λ w, (Exc e, w).
Definition bind {D A B} (m : M D A) (f : A → M D B) : M D B :=
  λ w, match m w with
       | (Val a, w') => f a w'
       | (Exc e, w') => (Exc e, w')
       end.

Notation "'let!' x ':=' m 'in' k" := (bind m (λ x, k))
  (at level 10, x name, m at level 100, k at level 200).
Notation "m ';;;' k" := (bind m (λ _, k))
  (at level 100, k at level 200, right associativity).

Definition gets {D A} (f : world D → A) : M D A := λ w, (Val (f w), w).
Definition modify {D} (f : world D → world D) : M D unit := λ w, (Val tt, f w).
Definition lift {D A} (r : res A) : M D A := λ w, (r, w).

Definition set_heap {D} (f : gmap loc json → gmap loc json) (w : world D) : world D :=
  World (f (heap w)) (session w) (db w) (trace w) (rng w).
Definition set_session {D} (f : Session → Session) (w : world D) : world D :=
  World (heap w) (f (session w)) (db w) (trace w) (rng w).
Definition set_db {D} (d : D) (w : world D) : world D :=
  World (heap w) (session w) d (trace w) (rng w).
Definition set_trace {D} (f : list event → list event) (w : world D) : world D :=
  World (heap w) (session w) (db w) (f (trace w)) (rng w).
Definition log {D} (e : event) : M D unit := modify (set_trace (.++ [e])).

Definition set_cache (f : gmap string loc → gmap string loc) (s : Session) : Session :=
  MkSession (f (_cache s)) (_created s) (_changed s) (_deleted s).
Definition set_created (f : gset string → gset string) (s : Session) : Session :=
  MkSession (_cache s) (f (_created s)) (_changed s) (_deleted s).
Definition set_changed (f : gset string → gset string) (s : Session) : Session :=
  MkSession (_cache s) (_created s) (f (_changed s)) (_deleted s).
Definition set_deleted (f : gmap string json → gmap string json) (s : Session) : Session :=
  MkSession (_cache s) (_created s) (_changed s) (f (_deleted s)).

(** A loop [for x in xs: body(x)], stopping at the first exception. *)
Fixpoint for_each {D A} (xs : list A) (body : A → M D unit) : M D unit :=
  match xs with
  | [] => ret tt
  | x :: xs' => body x ;;; for_each xs' body
  end.

(** [[f(x) for x in xs]], evaluated left to right. *)
Fixpoint collect {D A B} (xs : list A) (f : A → M D B) : M D (list B) :=
  match xs with
  | [] => ret []
  | x :: xs' => let! y := f x in let! ys := collect xs' f in ret (y :: ys)
  end.

(** ** Built-in containers

    What [self.__subject__.method(...)] does when the subject is a built-in
    [dict] or [list]: a function from the subject's value to the returned
    value and the subject's new value, or an exception (the subject is then
    unchanged). *)

Definition builtin (A : Type) : Type := json → res (A * json).

(** Python's [==] on JSON data: structural, with [True == 1], [False == 0]. *)
Fixpoint canon (v : json) : json :=
  match v with
  | JBool b => JNum (Z.b2z b)
  | JList xs => JList (canon <$> xs)
  | JDict d => JDict (canon <$> d)
  | _ => v
  end.
Definition py_eq (a b : json) : bool := bool_decide (canon a = canon b).

Definition dict___getitem__ (k : string) : builtin json := λ v,
  match v with
  | JDict d => match d !! k with Some x => Val (x, v) | None => Exc KeyError end
  | _ => Exc Detached
  end.

Definition dict___contains__ (k : string) : builtin bool := λ v,
  match v with
  | JDict d => Val (bool_decide (is_Some (d !! k)), v)
  | _ => Exc Detached
  end.

Definition dict___setitem__ (k : string) (x : json) : builtin unit := λ v,
  match v with
  | JDict d => Val (tt, JDict (<[k := x]> d))
  | _ => Exc Detached
  end.

Definition dict___delitem__ (k : string) : builtin unit := λ v,
  match v with
  | JDict d => match d !! k with
               | Some _ => Val (tt, JDict (delete k d))
               | None => Exc KeyError
               end
  | _ => Exc Detached
  end.

Definition dict_keys : builtin (list string) := λ v,
  match v with
  | JDict d => Val ((map_to_list d).*1, v)
  | _ => Exc Detached
  end.

(** [i] as an index into a list of length [n]: negative indices count from
    the end; [None] is out of range. *)
Definition index (n : nat) (i : Z) : option nat :=
  let i' := if i <? 0 then i + Z.of_nat n else i in
  if (0 <=? i') && (i' <? Z.of_nat n) then Some (Z.to_nat i') else None.

(** The bounds [list] clamps a simple slice [i:j] to. *)
Definition slice_bounds (n : nat) (i j : Z) : nat * nat :=
  let lo := if i <? 0 then 0 else if Z.of_nat n <? i then Z.of_nat n else i in
  let hi := if j <? lo then lo else if Z.of_nat n <? j then Z.of_nat n else j in
  (Z.to_nat lo, Z.to_nat hi).

Definition on_list {A} (f : list json → res (A * list json)) : builtin A := λ v,
  match v with
  | JList xs => match f xs with
                | Val (a, xs') => Val (a, JList xs')
                | Exc e => Exc e
                end
  | _ => Exc Detached
  end.

(** The element at [i], with the position it sits at. *)
Definition list___getitem__ (i : Z) : builtin (nat * json) := on_list (λ xs,
  match index (length xs) i with
  | Some n => match xs !! n with
              | Some x => Val ((n, x), xs)
              | None => Exc IndexError
              end
  | None => Exc IndexError
  end).

Definition list___getslice__ (i j : Z) : builtin (list json) := on_list (λ xs,
  let '(lo, hi) := slice_bounds (length xs) i j in
  Val (take (hi - lo) (drop lo xs), xs)).

Definition list___setitem__ (i : Z) (x : json) : builtin unit := on_list (λ xs,
  match index (length xs) i with
  | Some n => Val (tt, <[n := x]> xs)
  | None => Exc IndexError
  end).

Definition list___delitem__ (i : Z) : builtin unit := on_list (λ xs,
  match index (length xs) i with
  | Some n => Val (tt, delete n xs)
  | None => Exc IndexError
  end).

Definition list___setslice__ (i j : Z) (seq : list json) : builtin unit := on_list (λ xs,
  let '(lo, hi) := slice_bounds (length xs) i j in
  Val (tt, take lo xs ++ seq ++ drop hi xs)).

Definition list___delslice__ (i j : Z) : builtin unit := on_list (λ xs,
  let '(lo, hi) := slice_bounds (length xs) i j in
  Val (tt, take lo xs ++ drop hi xs)).

Definition list_append (x : json) : builtin unit := on_list (λ xs,
  Val (tt, xs ++ [x])).

Definition list_extend (seq : list json) : builtin unit := on_list (λ xs,
  Val (tt, xs ++ seq)).

Definition list_insert (i : Z) (x : json) : builtin unit := on_list (λ xs,
  let n := Z.of_nat (length xs) in
  let i' := if i <? 0 then i + n else i in
  let k := Z.to_nat (if i' <? 0 then 0 else if n <? i' then n else i') in
  Val (tt, take k xs ++ x :: drop k xs)).

(** [pop()] is [pop(-1)]. *)
Definition list_pop (i : option Z) : builtin json := on_list (λ xs,
  match index (length xs) (default (-1) i) with
  | Some n => match xs !! n with
              | Some x => Val (x, delete n xs)
              | None => Exc IndexError
              end
  | None => Exc IndexError
  end).

Fixpoint remove_first (x : json) (xs : list json) : option (list json) :=
  match xs with
  | [] => None
  | y :: ys => if py_eq y x then Some ys else cons y <$> remove_first x ys
  end.

Definition list_remove (x : json) : builtin unit := on_list (λ xs,
  match remove_first x xs with
  | Some xs' => Val (tt, xs')
  | None => Exc ValueError
  end).

(** Applying a built-in to the object a path leads to, writing the new
    value back in place. *)
Fixpoint at_path {A} (p : list key) (f : builtin A) (v : json) : res (A * json) :=
  match p with
  | [] => f v
  | KStr s :: p' =>
      match v with
      | JDict d =>
          match d !! s with
          | Some c => match at_path p' f c with
                      | Val (a, c') => Val (a, JDict (<[s := c']> d))
                      | Exc e => Exc e
                      end
          | None => Exc Detached
          end
      | _ => Exc Detached
      end
  | KIdx i :: p' =>
      match v with
      | JList xs =>
          match xs !! i with
          | Some c => match at_path p' f c with
                      | Val (a, c') => Val (a, JList (<[i := c']> xs))
                      | Exc e => Exc e
                      end
          | None => Exc Detached
          end
      | _ => Exc Detached
      end
  end.

Definition call_builtin {D A} (p : place) (f : builtin A) : M D A := λ w,
  match heap w !! p.1 with
  | Some v => match at_path p.2 f v with
              | Val (a, v') => (Val a, set_heap <[p.1 := v']> w)
              | Exc e => (Exc e, w)
              end
  | None => (Exc Detached, w)
  end.

(** A new object holding [v]; the cell is one no object occupies. *)
Definition new_object {D} (v : json) : M D loc := λ w,
  let l := fresh (dom (heap w)) in (Val l, set_heap <[l := v]> w).

(** ** The mutation-tracking proxies

    [ObjectWrapper] proxies holding a subject and a callable [__modified].
    [C] is the type of callables and [invoke] what calling one does; the
    session instantiates them with its [modified] closures. *)

Record wrapper (C : Type) := Wrapper { __subject__ : place; __modified : C }.
Arguments Wrapper {C} _ _.
Arguments __subject__ {C} _.
Arguments __modified {C} _.

(** A value as application code sees it: plain data or a proxy.
    [Document(Dictionary)] adds nothing to [Dictionary], so a wrapped
    document is a [DictionaryProxy]. *)
Inductive pyval (C : Type) : Type :=
  | Raw (v : json)
  | DictionaryProxy (self : wrapper C)
  | ListProxy (self : wrapper C).
Arguments Raw {C} v.
Arguments DictionaryProxy {C} self.
Arguments ListProxy {C} self.

Definition is_None {C} (v : pyval C) : bool :=
  match v with Raw JNull => true | _ => false end.

Definition child (p : place) (k : key) : place := (p.1, p.2 ++ [k]).

(** [wrap(obj, modified)], [here] being where [obj] lives. *)
Definition wrap {C} (obj : json) (here : place) (modified : C) : pyval C :=
  match obj with
  | JDict _ => DictionaryProxy (Wrapper here modified)
  | JList _ => ListProxy (Wrapper here modified)
  | _ => Raw obj
  end.

(** [self.__subject__.method(...)]. *)
Definition delegate {D C A} (self : wrapper C) (method : string) (f : builtin A) : M D A :=
  log (Delegate (__subject__ self) method) ;;;
  call_builtin (__subject__ self) f.

Module Dictionary.
Section Dictionary.
Context {D C : Type} (invoke : C → M D unit).

Definition __getitem__ (self : wrapper C) (k : string) : M D (pyval C) :=
  let! value := delegate self "__getitem__" (dict___getitem__ k) in
  ret (wrap value (child (__subject__ self) (KStr k)) (__modified self)).

Definition __setitem__ (self : wrapper C) (k : string) (x : json) : M D unit :=
  log Notify ;;; invoke (__modified self) ;;;
  delegate self "__setitem__" (dict___setitem__ k x).

Definition __delitem__ (self : wrapper C) (k : string) : M D unit :=
  log Notify ;;; invoke (__modified self) ;;;
  delegate self "__delitem__" (dict___delitem__ k).

Definition keys (self : wrapper C) : M D (list string) :=
  delegate self "keys" dict_keys.

(** [key in self], which [DictMixin] answers by trying [self[key]]. *)
Definition __contains__ (self : wrapper C) (k : string) : M D bool := λ w,
  match __getitem__ self k w with
  | (Val _, w') => (Val true, w')
  | (Exc KeyError, w') => (Val false, w')
  | (Exc e, w') => (Exc e, w')
  end.
End Dictionary.
End Dictionary.

Module List.
Section List.
Context {D C : Type} (invoke : C → M D unit).

Definition __getitem__ (self : wrapper C) (i : Z) : M D (pyval C) :=
  let! value := delegate self "__getitem__" (list___getitem__ i) in
  ret (wrap value.2 (child (__subject__ self) (KIdx value.1)) (__modified self)).

Definition __getslice__ (self : wrapper C) (i j : Z) : M D (pyval C) :=
  let! value := delegate self "__getslice__" (list___getslice__ i j) in
  let! l := new_object (JList value) in
  ret (wrap (JList value) (l, []) (__modified self)).

Definition __setitem__ (self : wrapper C) (i : Z) (x : json) : M D unit :=
  log Notify ;;; invoke (__modified self) ;;;
  delegate self "__setitem__" (list___setitem__ i x).

Definition __delitem__ (self : wrapper C) (i : Z) : M D unit :=
  log Notify ;;; invoke (__modified self) ;;;
  delegate self "__delitem__" (list___delitem__ i).

Definition __setslice__ (self : wrapper C) (i j : Z) (seq : list json) : M D unit :=
  log Notify ;;; invoke (__modified self) ;;;
  delegate self "__setslice__" (list___setslice__ i j seq).

Definition __delslice__ (self : wrapper C) (i j : Z) : M D unit :=
  log Notify ;;; invoke (__modified self) ;;;
  delegate self "__delslice__" (list___delslice__ i j).

Definition append (self : wrapper C) (x : json) : M D unit :=
  log Notify ;;; invoke (__modified self) ;;;
  delegate self "append" (list_append x).

Definition extend (self : wrapper C) (seq : list json) : M D unit :=
  log Notify ;;; invoke (__modified self) ;;;
  delegate self "extend" (list_extend seq).

Definition insert (self : wrapper C) (i : Z) (x : json) : M D unit :=
  log Notify ;;; invoke (__modified self) ;;;
  delegate self "insert" (list_insert i x).

Definition pop (self : wrapper C) (i : option Z) : M D json :=
  log Notify ;;; invoke (__modified self) ;;;
  delegate self "pop" (list_pop i).

Definition remove (self : wrapper C) (x : json) : M D unit :=
  log Notify ;;; invoke (__modified self) ;;;
  delegate self "remove" (list_remove x).
End List.
End List.

(** ** The session *)

(** The callables the session registers: the closure [modified] that
    [_cached] builds, which captures the session and the proxy [doc]. *)
Inductive callable : Type :=
  | Modified (doc : loc).

(** The proxy [_cached] built around the raw document in cell [doc]. *)
Definition proxy (doc : loc) : wrapper callable := Wrapper (doc, []) (Modified doc).

(** A value used as a document id. *)
Definition as_key {D} (v : pyval callable) : M D string :=
  match v with
  | Raw (JStr s) => ret s
  | _ => raise TypeError
  end.

(** The data behind a value: itself, or what the proxy's subject holds. *)
Definition data_of {D} (v : pyval callable) : M D json :=
  match v with
  | Raw x => ret x
  | DictionaryProxy self | ListProxy self =>
      call_builtin (__subject__ self) (λ x, Val (x, x))
  end.

Module Session.
Section Session.
Context {D : Type} `{!Database D} (uuid4_hex : nat → string).

(** [def modified(): self._changed.add(doc['_id'])] *)
Definition modified (doc : loc) : M D unit :=
  let! id := Dictionary.__getitem__ (proxy doc) "_id" in
  let! id := as_key id in
  modify (set_session (set_changed ({[id]} ∪.))).

Definition invoke (f : callable) : M D unit :=
  match f with Modified doc => modified doc end.

Definition _cached (doc : loc) : M D (pyval callable) :=
  let! obj := call_builtin (doc, []) (λ x, Val (x, x)) in
  match wrap obj (doc, []) (Modified doc) with
  | DictionaryProxy self =>
      let! id := Dictionary.__getitem__ self "_id" in
      let! id := as_key id in
      modify (set_session (set_cache <[id := doc]>)) ;;;
      ret (DictionaryProxy self)
  | _ => raise TypeError
  end.

Definition uuid4 : M D string := λ w,
  (Val (uuid4_hex (rng w)),
   World (heap w) (session w) (db w) (trace w) (S (rng w))).

Definition create (data : gmap string json) : M D (pyval callable) :=
  let! doc := new_object (JDict data) in
  let! has_id := call_builtin (doc, []) (dict___contains__ "_id") in
  (if has_id : bool then ret tt
   else let! u := uuid4 in
        call_builtin (doc, []) (dict___setitem__ "_id" (JStr u))) ;;;
  let! id := call_builtin (doc, []) (dict___getitem__ "_id") in
  let! id := as_key (Raw id) in
  modify (set_session (set_created ({[id]} ∪.))) ;;;
  let! cached := _cached doc in
  match cached with
  | DictionaryProxy self => Dictionary.__getitem__ self "_id"
  | _ => raise TypeError
  end.

Definition delete (doc : wrapper callable) : M D unit :=
  let! id := Dictionary.__getitem__ doc "_id" in
  let! id := as_key id in
  let! created := gets (λ w, _created (session w)) in
  if decide (id ∈ created) then
    let! id := Dictionary.__getitem__ doc "_id" in
    let! id := as_key id in
    let! created := gets (λ w, _created (session w)) in
    (if decide (id ∈ created)
     then modify (set_session (set_created (.∖ {[id]})))
     else raise KeyError) ;;;
    let! id := Dictionary.__getitem__ doc "_id" in
    let! id := as_key id in
    let! cache := gets (λ w, _cache (session w)) in
    if decide (is_Some (cache !! id))
    then modify (set_session (set_cache (base.delete id)))
    else raise KeyError
  else
    let! id := Dictionary.__getitem__ doc "_id" in
    let! id := as_key id in
    modify (set_session (set_changed (.∖ {[id]}))) ;;;
    let! rev := Dictionary.__getitem__ doc "_rev" in
    let! rev := data_of rev in
    let! id := Dictionary.__getitem__ doc "_id" in
    let! id := as_key id in
    modify (set_session (set_deleted <[id := rev]>)).

Definition get (id : string) (default : pyval callable) : M D (pyval callable) :=
  let! doc := gets (λ w, _cache (session w) !! id) in
  match doc with
  | Some l =>
      let doc := proxy l in
      let! a := Dictionary.__getitem__ doc "_id" in
      let! a := as_key a in
      let! deleted := gets (λ w, _deleted (session w)) in
      if decide (is_Some (deleted !! a)) then
        let! b := Dictionary.__getitem__ doc "_id" in
        let! b := as_key b in
        let! created := gets (λ w, _created (session w)) in
        if decide (b ∉ created) then ret (Raw JNull)
        else ret (DictionaryProxy doc)
      else ret (DictionaryProxy doc)
  | None =>
      log (DbGet id) ;;;
      let! found := (λ w, (db_get (db w) id, w)) in
      match found with
      | None => ret default
      | Some d => let! raw := new_object (JDict d) in _cached raw
      end
  end.

Definition __getitem__ (id : string) : M D (pyval callable) :=
  let! doc := get id (Raw JNull) in
  if is_None doc then raise ResourceNotFound else ret doc.

Definition __delitem__ (id : string) : M D unit :=
  let! doc := __getitem__ id in
  match doc with
  | DictionaryProxy self => delete self
  | _ => raise TypeError
  end.

(** Returns [None] on both paths. *)
Definition __setitem__ (id : string) (content : gmap string json) : M D (pyval callable) :=
  if decide (is_Some (content !! "_rev")) then ret (Raw JNull)
  else
    let doc := <["_id" := JStr id]> content in
    create doc ;;; ret (Raw JNull).

Definition delete_attachment : M D unit := raise NotImplementedError.
Definition get_attachment : M D unit := raise NotImplementedError.
Definition put_attachment : M D unit := raise NotImplementedError.
Definition update : M D unit := raise NotImplementedError.

(** [self._db.update(docs)] *)
Definition db_update_call (docs : list (gmap string json)) : M D (list response) :=
  log (DbUpdate docs) ;;;
  λ w, let '(r, d) := db_update (db w) docs in (r, set_db d w).

(** [self._cache[doc_id]] *)
Definition cache_getitem (doc_id : string) : M D loc :=
  let! cache := gets (λ w, _cache (session w)) in
  match cache !! doc_id with
  | Some l => ret l
  | None => raise KeyError
  end.

(** [dict(doc)] on a proxy: its [keys()], then each item. *)
Definition snapshot (doc : wrapper callable) : M D (gmap string json) :=
  let! ks := Dictionary.keys doc in
  let! items := collect ks (λ k,
    let! v := Dictionary.__getitem__ doc k in
    let! x := data_of v in
    ret (k, x)) in
  ret (list_to_map items).

Definition deletion (item : string * json) : gmap string json :=
  <["_id" := JStr item.1]> (<["_rev" := item.2]> {["_deleted" := JBool true]}).

(** [deletions]: one record per entry of [_deleted]. *)
Definition deletions (s : Session) : list (gmap string json) :=
  deletion <$> map_to_list (_deleted s).

(** [updates = list(itertools.chain(additions, changes))]: the created
    documents, then the changed ones, each copied with [dict]. *)
Definition updates_list : M D (list (gmap string json)) :=
  let! created := gets (λ w, elements (_created (session w))) in
  let! changed := gets (λ w, elements (_changed (session w))) in
  collect (created ++ changed) (λ doc_id,
    let! l := cache_getitem doc_id in snapshot (proxy l)).

(** The body of [for doc_id in self._deleted]. *)
Definition evict (doc_id : string) : M D unit :=
  let! created := gets (λ w, _created (session w)) in
  if decide (doc_id ∉ created) then
    let! cache := gets (λ w, _cache (session w)) in
    if decide (is_Some (cache !! doc_id))
    then modify (set_session (set_cache (base.delete doc_id)))
    else raise KeyError
  else ret tt.

(** The body of [for response in self._db.update(updates)]. *)
Definition record_rev (response : response) : M D unit :=
  let! l := cache_getitem (resp_id response) in
  Dictionary.__setitem__ invoke (proxy l) "_rev" (JStr (resp_rev response)).

Definition flush : M D unit :=
  let! deletions := gets (λ w, deletions (session w)) in
  let! updates := updates_list in
  db_update_call deletions ;;;
  let! doomed := gets (λ w, (map_to_list (_deleted (session w))).*1) in
  for_each doomed evict ;;;
  modify (set_session (set_deleted (λ _, ∅))) ;;;
  let! responses := db_update_call updates in
  for_each responses record_rev ;;;
  modify (set_session (set_created (λ _, ∅))) ;;;
  modify (set_session (set_changed (λ _, ∅))).

(** [SessionViewResults(self, self._db.view(...))], iterated: the rows,
    each to be read through [_get_doc]. *)
Definition view (name : string) : M D (list row) :=
  gets (λ w, db_view (db w) name).

(** [SessionViewResults(self, self._db.query(...))], likewise. *)
Definition query (map_fun : string) : M D (list row) :=
  gets (λ w, db_query (db w) map_fun).

(** [SessionRow._get_doc] *)
Definition _get_doc (r : row) : M D (pyval callable) :=
  match row_doc r with
  | Some d =>
      match d !! "_id" with
      | Some id =>
          let! id := as_key (Raw id) in
          let! cached := gets (λ w, _cache (session w) !! id) in
          match cached with
          | Some l => ret (DictionaryProxy (proxy l))
          | None => let! raw := new_object (JDict d) in _cached raw
          end
      | None => raise KeyError
      end
  | None => ret (Raw JNull)
  end.
End Session.
End Session.

(** ** Stores to run the session against *)

(** Modelled from the spec: the underlying store, which [session.py] only
    calls.  Section 6 gives its interface ([get], a batched [update]
    answering one [{id, revision}] per document, deletion by a record
    carrying [_deleted]); this in-memory store implements it, numbering
    revisions.  It serves to run the session on concrete inputs. *)
Module MemStore.
Record t := Store { docs : gmap string (gmap string json); revs : nat }.

Definition rev_token (n : nat) : string := "rev" +:+ pretty n.

Definition store_one (st : t) (doc : gmap string json) : response * t :=
  let id := match doc !! "_id" with Some (JStr s) => s | _ => "" end in
  let rev := rev_token (revs st) in
  match doc !! "_deleted" with
  | Some (JBool true) =>
      (Response id rev, Store (base.delete id (docs st)) (S (revs st)))
  | _ =>
      (Response id rev,
       Store (<[id := <["_rev" := JStr rev]> doc]> (docs st)) (S (revs st)))
  end.

Fixpoint store_all (st : t) (batch : list (gmap string json)) : list response * t :=
  match batch with
  | [] => ([], st)
  | doc :: rest =>
      let '(r, st') := store_one st doc in
      let '(rs, st'') := store_all st' rest in
      (r :: rs, st'')
  end.

(** A document is read back with the id it is stored under. *)
Definition read (st : t) (id : string) : option (gmap string json) :=
  <["_id" := JStr id]> <$> docs st !! id.

(** Every document, as a row with the document included. *)
Definition rows (st : t) : list row :=
  (λ kv, Row kv.1 (Some (<["_id" := JStr kv.1]> kv.2))) <$> map_to_list (docs st).

#[global] Instance database : Database t := {
  db_get st id := Val (read st id);
  db_update st batch := let '(rs, st') := store_all st batch in (Val rs, st');
  db_view st _ := rows st;
  db_query st _ := rows st;
}.

Definition uuid4_hex (n : nat) : string := "uuid" +:+ pretty n.

(** A store holding the given documents, each under its id. *)
Definition holding (ds : list (string * gmap string json)) : t :=
  Store (list_to_map ds) 0.

Definition fresh_world (st : t) : world t :=
  World ∅ (MkSession ∅ ∅ ∅ ∅) st [] 0.
End MemStore.

(** Modelled from the spec: a store that cannot be reached (section 7,
    "Store failure"); every call raises.  It serves to run a failing
    [flush]. *)
Module DownStore.
Definition t : Type := unit.

#[global] Instance database : Database t := {
  db_get _ _ := Exc (StoreError 503);
  db_update st _ := (Exc (StoreError 503), st);
  db_view _ _ := [];
  db_query _ _ := [];
}.
End DownStore.

(** * Vocabulary of the properties *)

(** ** Reading traces *)

(** How many times a proxy called its callback. *)
Definition notifications (tr : list event) : nat :=
  length (omap (λ e, match e with Notify => Some tt | _ => None end) tr).

(** The store calls, in order. *)
Definition store_calls (tr : list event) : list event :=
  omap (λ e, match e with
             | DbGet _ | DbUpdate _ => Some e
             | _ => None
             end) tr.

(** The batches handed to [update], in order. *)
Definition updates_sent (tr : list event) : list (list (gmap string json)) :=
  omap (λ e, match e with DbUpdate docs => Some docs | _ => None end) tr.

(** A stretch of trace in which proxies only read their subjects. *)
Definition reads_only (evs : list event) : Prop :=
  Forall (λ e, match e with Delegate _ _ => True | _ => False end) evs.


(** ** Calls on a proxy *)

(** The mutating calls the proxies define. *)
Inductive dict_mutation : Type :=
  | DictSetItem (k : string) (x : json)
  | DictDelItem (k : string).

Inductive list_mutation : Type :=
  | ListSetItem (i : Z) (x : json)
  | ListDelItem (i : Z)
  | ListSetSlice (i j : Z) (seq : list json)
  | ListDelSlice (i j : Z)
  | ListAppend (x : json)
  | ListExtend (seq : list json)
  | ListInsert (i : Z) (x : json)
  | ListPop (i : option Z)
  | ListRemove (x : json).

(** The reads the proxies define ([in] is answered through [__getitem__]). *)
Inductive dict_read : Type :=
  | DictGetItem (k : string)
  | DictKeys
  | DictContains (k : string).

Inductive list_read : Type :=
  | ListGetItem (i : Z)
  | ListGetSlice (i j : Z).

(** A call that returns [None]. *)
Definition returning_None {D} (m : M D unit) : M D json := m ;;; ret JNull.

Definition dict_mutate {D C} (invoke : C → M D unit) (self : wrapper C)
    (m : dict_mutation) : M D json :=
  match m with
  | DictSetItem k x => returning_None (Dictionary.__setitem__ invoke self k x)
  | DictDelItem k => returning_None (Dictionary.__delitem__ invoke self k)
  end.

Definition list_mutate {D C} (invoke : C → M D unit) (self : wrapper C)
    (m : list_mutation) : M D json :=
  match m with
  | ListSetItem i x => returning_None (List.__setitem__ invoke self i x)
  | ListDelItem i => returning_None (List.__delitem__ invoke self i)
  | ListSetSlice i j seq => returning_None (List.__setslice__ invoke self i j seq)
  | ListDelSlice i j => returning_None (List.__delslice__ invoke self i j)
  | ListAppend x => returning_None (List.append invoke self x)
  | ListExtend seq => returning_None (List.extend invoke self seq)
  | ListInsert i x => returning_None (List.insert invoke self i x)
  | ListPop i => List.pop invoke self i
  | ListRemove x => returning_None (List.remove invoke self x)
  end.

Definition dict_read_call {D C} (self : wrapper C) (r : dict_read) : M D (pyval C) :=
  match r with
  | DictGetItem k => Dictionary.__getitem__ self k
  | DictKeys => let! ks := Dictionary.keys self in ret (Raw (JList (JStr <$> ks)))
  | DictContains k => let! b := Dictionary.__contains__ self k in ret (Raw (JBool b))
  end.

Definition list_read_call {D C} (self : wrapper C) (r : list_read) : M D (pyval C) :=
  match r with
  | ListGetItem i => List.__getitem__ self i
  | ListGetSlice i j => List.__getslice__ self i j
  end.

(** The method of the subject a mutating call ends in, and what that
    built-in does. *)
Definition as_None (f : builtin unit) : builtin json := λ v,
  match f v with
  | Val (_, v') => Val (JNull, v')
  | Exc e => Exc e
  end.

Definition dict_method (m : dict_mutation) : string * builtin json :=
  match m with
  | DictSetItem k x => ("__setitem__", as_None (dict___setitem__ k x))
  | DictDelItem k => ("__delitem__", as_None (dict___delitem__ k))
  end.

Definition list_method (m : list_mutation) : string * builtin json :=
  match m with
  | ListSetItem i x => ("__setitem__", as_None (list___setitem__ i x))
  | ListDelItem i => ("__delitem__", as_None (list___delitem__ i))
  | ListSetSlice i j seq => ("__setslice__", as_None (list___setslice__ i j seq))
  | ListDelSlice i j => ("__delslice__", as_None (list___delslice__ i j))
  | ListAppend x => ("append", as_None (list_append x))
  | ListExtend seq => ("extend", as_None (list_extend seq))
  | ListInsert i x => ("insert", as_None (list_insert i x))
  | ListPop i => ("pop", list_pop i)
  | ListRemove x => ("remove", as_None (list_remove x))
  end.

(** The callback once on the world as it stands, then the subject's own
    method: what the claim asks of a mutating call. *)
Definition notify_then_delegate {D C} (invoke : C → M D unit) (self : wrapper C)
    (method : string * builtin json) : M D json := λ w,
  match invoke (__modified self) (set_trace (.++ [Notify]) w) with
  | (Val _, w1) =>
      call_builtin (__subject__ self) method.2
        (set_trace (.++ [Delegate (__subject__ self) method.1]) w1)
  | (Exc e, w1) => (Exc e, w1)
  end.


(** ** States of the session *)

(** [id] is cached as the document object [l], which holds [d]. *)
Definition cached_as {D} (w : world D) (id : string) (l : loc)
    (d : gmap string json) : Prop :=
  _cache (session w) !! id = Some l ∧
  heap w !! l = Some (JDict d) ∧
  d !! "_id" = Some (JStr id).

(** Every cache entry is a document filed under its own [_id]. *)
Definition consistent {D} (w : world D) : Prop :=
  ∀ id l, _cache (session w) !! id = Some l →
    ∃ d, heap w !! l = Some (JDict d) ∧ d !! "_id" = Some (JStr id).

(** [id] is pending deletion: in [_deleted] and not re-created. *)
Definition pending (s : Session) (id : string) : Prop :=
  is_Some (_deleted s !! id) ∧ id ∉ _created s.

(** The store answers a read of [id] with a document whose [_id] is [id]. *)
Definition answers_by_id (D : Type) `{!Database D} : Prop :=
  ∀ d id doc, db_get d id = Val (Some doc) → doc !! "_id" = Some (JStr id).

(** The store answers a batch with one entry per document, in order, each
    naming its document's [_id]. *)
Definition echoes_ids (D : Type) `{!Database D} : Prop :=
  ∀ d batch rs d', db_update d batch = (Val rs, d') →
    Forall2 (λ r doc, ∀ s, doc !! "_id" = Some (JStr s) → resp_id r = s) rs batch.

(** The cache once [flush] has gone through the ids [ks] of [_deleted]:
    each one not in [created] is dropped. *)
Definition evicted (created : gset string) (ks : list string)
    (cache : gmap string loc) : gmap string loc :=
  foldl (λ c k, if decide (k ∉ created) then base.delete k c else c) cache ks.

(** The world in which [flush] starts writing revisions back: the deleted
    ids are out of the cache, [_deleted] is empty, and the store has taken
    both batches. *)
Definition after_batches {D} (w : world D) (evs : list event) (ups : list (gmap string json))
    (st2 : D) : world D :=
  World (heap w)
        (MkSession (evicted (_created (session w))
                      (map_to_list (_deleted (session w))).*1 (_cache (session w)))
                   (_created (session w)) (_changed (session w)) ∅)
        st2
        (trace w ++ evs ++ [DbUpdate (Session.deletions (session w)); DbUpdate ups])
        (rng w).

(** A call that adds nothing to [_created] and [_changed]. *)
Definition shrinks {D A} (m : M D A) : Prop :=
  ∀ w, _created (session (m w).2) ⊆ _created (session w) ∧
       _changed (session (m w).2) ⊆ _changed (session w).

(** ** Sequences of operations *)

(** What application code can do with a session and the proxies it holds. *)
Inductive op : Type :=
  | OpGet (id : string) (default : pyval callable)
  | OpGetItem (id : string)
  | OpSetItem (id : string) (content : gmap string json)
  | OpDelItem (id : string)
  | OpCreate (data : gmap string json)
  | OpDelete (doc : wrapper callable)
  | OpFlush
  | OpRowDoc (r : row)
  | OpDictMutate (self : wrapper callable) (m : dict_mutation)
  | OpListMutate (self : wrapper callable) (m : list_mutation)
  | OpDictRead (self : wrapper callable) (r : dict_read)
  | OpListRead (self : wrapper callable) (r : list_read).

Definition void {D A} (m : M D A) : M D unit := m ;;; ret tt.

Section Operations.
Context {D : Type} `{!Database D} (uuid4_hex : nat → string).

Definition exec (o : op) : M D unit :=
  match o with
  | OpGet id default => void (Session.get id default)
  | OpGetItem id => void (Session.__getitem__ id)
  | OpSetItem id content => void (Session.__setitem__ uuid4_hex id content)
  | OpDelItem id => Session.__delitem__ id
  | OpCreate data => void (Session.create uuid4_hex data)
  | OpDelete doc => Session.delete doc
  | OpFlush => Session.flush
  | OpRowDoc r => void (Session._get_doc r)
  | OpDictMutate self m => void (dict_mutate Session.invoke self m)
  | OpListMutate self m => void (list_mutate Session.invoke self m)
  | OpDictRead self r => void (dict_read_call self r)
  | OpListRead self r => void (list_read_call self r)
  end.

(** The world after a sequence of operations; an operation that raises
    leaves the world as it was when it raised. *)
Fixpoint run (ops : list op) (w : world D) : world D :=
  match ops with
  | [] => w
  | o :: ops' => run ops' (exec o w).2
  end.

(** The id [create(data)] files the document under. *)
Definition id_for (data : gmap string json) (w : world D) : option string :=
  match data !! "_id" with
  | Some (JStr id) => Some id
  | Some _ => None
  | None => Some (uuid4_hex (rng w))
  end.

(** The id the callback of a proxy reports. *)
Definition reported_id (self : wrapper callable) (w : world D) : option string :=
  match __modified self with
  | Modified l =>
      match heap w !! l with
      | Some (JDict d) =>
          match d !! "_id" with Some (JStr id) => Some id | _ => None end
      | _ => None
      end
  end.

(** The operations that keep [_created] and [_changed] apart: no document
    is mutated while its id is in [_created], no id in [_changed] is
    created again, and [flush] goes through. *)
Definition keeps_apart (o : op) (w : world D) : Prop :=
  match o with
  | OpCreate data =>
      ∀ id, id_for data w = Some id → id ∉ _changed (session w)
  | OpSetItem id content =>
      content !! "_rev" = None → id ∉ _changed (session w)
  | OpDictMutate self _ | OpListMutate self _ =>
      ∀ id, reported_id self w = Some id → id ∉ _created (session w)
  | OpFlush => (Session.flush w).1 = Val tt
  | _ => True
  end.

Fixpoint all_keep_apart (ops : list op) (w : world D) : Prop :=
  match ops with
  | [] => True
  | o :: ops' => keeps_apart o w ∧ all_keep_apart ops' (exec o w).2
  end.
End Operations.

(** ** A concrete session

    One persisted document ["X"], fetched, deleted, created again under the
    same id, and the new document deleted in turn. *)
Module Scenario.
Import MemStore.

Definition None_ : pyval callable := Raw JNull.

Definition persisted : gmap string json :=
  <["_rev" := JStr "1-a"]> {["foo" := JStr "bar"]}.
Definition replacement : gmap string json :=
  <["_id" := JStr "X"]> {["foo" := JStr "wibble"]}.

Definition start : world t := fresh_world (holding [("X", persisted)]).
(** [doc = session.get("X")]: the document is object 0. *)
Definition fetched : world t := (Session.get "X" None_ start).2.
(** [session.delete(doc)] *)
Definition deleted : world t := (Session.delete (proxy 0%nat) fetched).2.
(** [session.create({"_id": "X", "foo": "wibble"})]: object 1. *)
Definition recreated : world t := (Session.create uuid4_hex replacement deleted).2.
(** [session.delete(session.get("X"))] *)
Definition deleted_again : world t :=
  (Session.delete (proxy 1%nat) (Session.get "X" None_ recreated).2).2.

(** [session.create({"_id": "foo"})] on a new session: object 0. *)
Definition created : world t :=
  (Session.create uuid4_hex {["_id" := JStr "foo"]} start).2.
(** [session.get("foo")["x"] = 1] *)
Definition created_then_mutated : world t :=
  (Dictionary.__setitem__ Session.invoke (proxy 0%nat) "x" (JNum 1)
     (Session.get "foo" None_ created).2).2.

(** [session.flush()] with ["X"] both in [_deleted] and in [_created]. *)
Definition flushed : world t := (Session.flush recreated).2.

(** Fetch ["X"], change a field of it, create ["new"]. *)
Definition editing : list op :=
  [OpGet "X" None_;
   OpDictMutate (proxy 0%nat) (DictSetItem "foo" (JStr "baz"));
   OpCreate {["_id" := JStr "new"]}].

(** A session with one created document, its store unreachable. *)
Definition offline : world DownStore.t :=
  (Session.create uuid4_hex {["_id" := JStr "foo"]}
     (World ∅ (MkSession ∅ ∅ ∅ ∅) tt [] 0%nat)).2.

(** A document holding a list, to read and mutate through proxies. *)
Definition with_list : world t :=
  (Session.create uuid4_hex
     (<["_id" := JStr "L"]> {["tags" := JList [JStr "a"; JStr "b"]]}) start).2.
Definition tags : wrapper callable := Wrapper (0%nat, [KStr "tags"]) (Modified 0%nat).
End Scenario.


(** The calls are run by rewriting with the lemmas below, one call at a
    time; simplification does not open them. *)
Arguments call_builtin : simpl never.
Arguments new_object : simpl never.
Arguments delegate : simpl never.
Arguments data_of : simpl never.
Arguments Dictionary.__getitem__ : simpl never.
Arguments Dictionary.__setitem__ : simpl never.
Arguments Dictionary.__delitem__ : simpl never.
Arguments Dictionary.keys : simpl never.
Arguments Dictionary.__contains__ : simpl never.
Arguments Session.modified : simpl never.
Arguments Session._cached : simpl never.
Arguments Session.create : simpl never.
Arguments Session.delete : simpl never.
Arguments Session.get : simpl never.
Arguments Session.__getitem__ : simpl never.
Arguments Session.__delitem__ : simpl never.
Arguments Session.__setitem__ : simpl never.
Arguments Session.snapshot : simpl never.
Arguments Session.updates_list : simpl never.
Arguments Session.evict : simpl never.
Arguments Session.record_rev : simpl never.
Arguments Session.flush : simpl never.
Arguments Session._get_doc : simpl never.
Arguments Session.db_update_call : simpl never.
Arguments Session.cache_getitem : simpl never.

(** * Further vocabulary *)

(** ** What a reference leads to *)

(** The value a path leads to inside [v]. *)
Fixpoint resolve (p : list key) (v : json) : option json :=
  match p with
  | [] => Some v
  | KStr s :: p' =>
      match v with JDict d => d !! s ≫= resolve p' | _ => None end
  | KIdx i :: p' =>
      match v with JList xs => xs !! i ≫= resolve p' | _ => None end
  end.

(** [v] with [x] written where the path leads. *)
Fixpoint put (p : list key) (x : json) (v : json) : json :=
  match p with
  | [] => x
  | KStr s :: p' =>
      match v with
      | JDict d => match d !! s with
                   | Some c => JDict (<[s := put p' x c]> d)
                   | None => v
                   end
      | _ => v
      end
  | KIdx i :: p' =>
      match v with
      | JList xs => match xs !! i with
                    | Some c => JList (<[i := put p' x c]> xs)
                    | None => v
                    end
      | _ => v
      end
  end.

(** The object a reference points to. *)
Definition subject_value {D} (w : world D) (p : place) : option json :=
  heap w !! p.1 ≫= resolve p.2.

(** The world with [x] written where the reference points. *)
Definition write_subject {D} (p : place) (x : json) (w : world D) : world D :=
  set_heap (λ h, match h !! p.1 with
                 | Some v => <[p.1 := put p.2 x v]> h
                 | None => h
                 end) w.

(** ** Frames *)

(** A call after which [R] relates the world it started in to the world
    it left, whether it returned or raised. *)
Definition stable {D A} (R : relation (world D)) (m : M D A) : Prop :=
  ∀ w, R w (m w).2.

(** The store is as it was and no call was made to it. *)
Definition store_untouched {D} : relation (world D) := λ w w',
  db w' = db w ∧ store_calls (trace w') = store_calls (trace w).

(** The store is as it was and no batch was sent to it. *)
Definition nothing_written {D} : relation (world D) := λ w w',
  db w' = db w ∧ updates_sent (trace w') = updates_sent (trace w).

(** The operations that make no call to the store. *)
Definition stays_local (o : op) : bool :=
  match o with
  | OpGet _ _ | OpGetItem _ | OpDelItem _ | OpFlush => false
  | _ => true
  end.

Definition is_flush (o : op) : bool :=
  match o with OpFlush => true | _ => false end.

(** ** Rows *)

(** [[row.doc for row in rows]]: the documents of the rows of a view or a
    query, each read through [SessionRow._get_doc]. *)
Definition row_docs {D} (rows : list row) : M D (list (pyval callable)) :=
  collect rows Session._get_doc.

(** Two rows embed documents with the same [_id], or embed none. *)
Definition same_document (r r' : row) : Prop :=
  match row_doc r, row_doc r' with
  | None, None => True
  | Some d, Some d' => d !! "_id" = d' !! "_id"
  | _, _ => False
  end.

(** The store of [Scenario.start] listed through a view, documents
    included. *)
Module Listing.
Import MemStore.


(** [[row.doc for row in session.view("_all_docs", include_docs=True)]] *)
Definition docs_of_view : M t (list (pyval callable)) :=
  let! rows := Session.view "_all_docs" in row_docs rows.

Definition listed : world t := (docs_of_view Scenario.start).2.
End Listing.

(** ** Filing *)

(** [Session(db)]: nothing cached, nothing tracked. *)
Definition new_session {D} (db : D) : world D :=
  World ∅ (MkSession ∅ ∅ ∅ ∅) db [] 0%nat.

(** From [w] to [w'], every document object kept the [_id] it had, and
    whatever entered the cache is a document filed under its own [_id]. *)
Definition files_by_id {D} : relation (world D) := λ w w',
  (∀ l d id, heap w !! l = Some (JDict d) → d !! "_id" = Some (JStr id) →
     ∃ d', heap w' !! l = Some (JDict d') ∧ d' !! "_id" = Some (JStr id)) ∧
  (∀ id l, _cache (session w') !! id = Some l →
     _cache (session w) !! id = Some l ∨
     ∃ d, heap w' !! l = Some (JDict d) ∧ d !! "_id" = Some (JStr id)).

(** A built-in that, applied where the path leads inside a document,
    leaves the document its [_id]. *)
Definition keeps_id {A} (p : list key) (f : builtin A) : Prop :=
  ∀ d id a v', d !! "_id" = Some (JStr id) →
    at_path p f (JDict d) = Val (a, v') →
    ∃ d', v' = JDict d' ∧ d' !! "_id" = Some (JStr id).

(** A built-in of [dict] or [list]: it has no string for a subject. *)
Definition on_containers {A} (f : builtin A) : Prop :=
  ∀ s, ∃ e, f (JStr s) = Exc e.

(** A built-in that leaves its subject as it is. *)
Definition reads {A} (f : builtin A) : Prop :=
  ∀ v a v', f v = Val (a, v') → v' = v.

(** The key a mutating call on a dictionary proxy is about. *)
Definition mutated_key (m : dict_mutation) : string :=
  match m with DictSetItem k _ | DictDelItem k => k end.

(** The operations that leave [_id] alone: everything but assigning or
    deleting the [_id] item of a document through its proxy. *)
Definition spares_id (o : op) : Prop :=
  match o with
  | OpDictMutate self m => (__subject__ self).2 = [] → mutated_key m ≠ "_id"
  | _ => True
  end.

(** ** A store that gets lost *)

(** Modelled from the spec: a store that answers a number of batched calls
    and then cannot be reached any more (section 7, "Store failure").  An
    answered batch gets one entry per document, naming its [_id].  It
    serves to run a [flush] whose second call fails. *)
Module FlakyStore.
Record t := Store { answers_left : nat }.

Definition answer (doc : gmap string json) : response :=
  Response (match doc !! "_id" with Some (JStr s) => s | _ => "" end) "1-new".

#[global] Instance database : Database t := {
  db_get _ _ := Val None;
  db_update st batch :=
    match answers_left st with
    | S n => (Val (answer <$> batch), Store n)
    | O => (Exc (StoreError 503), st)
    end;
  db_view _ _ := [];
  db_query _ _ := [];
}.

(** A session with one created document ["foo"], on a store that answers
    one more batched call. *)
Definition pending : world t :=
  (Session.create MemStore.uuid4_hex {["_id" := JStr "foo"]}
     (World ∅ (MkSession ∅ ∅ ∅ ∅) (Store 1) [] 0%nat)).2.
End FlakyStore.

(** ** Sessions that can no longer be flushed *)
Module Stranded.
Import MemStore.

(** On the session of [Scenario.created_then_mutated]:
    [session.delete(doc)]. *)
Definition changed_then_deleted : world t :=
  (Session.delete (proxy 0%nat) Scenario.created_then_mutated).2.

(** [session.flush()] with ["foo"] in [_created] and in [_changed]. *)
Definition sent_twice : world t := (Session.flush Scenario.created_then_mutated).2.
End Stranded.

(** ** Calls on the proxies of a document *)

(** The world once the callback of a proxy of document [l], filed under
    [id], has run and the proxy has turned to its subject: the id is in
    [_changed], the calls are on the trace. *)
Definition notified {D} (w : world D) (l : loc) (id : string)
    (subject : place) (method : string) : world D :=
  World (heap w) (set_changed ({[id]} ∪.) (session w)) (db w)
        (trace w ++ [Notify; Delegate (l, []) "__getitem__";
                     Delegate subject method])
        (rng w).

(** ** A document edited over two flushes *)
Module Editing.
Import MemStore.

(** On the session of [Scenario.fetched]: [doc["foo"] = "baz"]. *)
Definition edited : world t :=
  (Dictionary.__setitem__ Session.invoke (proxy 0%nat) "foo" (JStr "baz")
     Scenario.fetched).2.

(** [session.flush()] *)
Definition saved : world t := (Session.flush edited).2.

(** [doc["n"] = 2], then [session.flush()]. *)
Definition edited_again : world t :=
  (Dictionary.__setitem__ Session.invoke (proxy 0%nat) "n" (JNum 2) saved).2.
Definition saved_again : world t := (Session.flush edited_again).2.
End Editing.

(** * Properties *)


Lemma store_calls_app tr1 tr2 :
  store_calls (tr1 ++ tr2) = store_calls tr1 ++ store_calls tr2.
Proof. apply omap_app. Qed.

Lemma updates_sent_app tr1 tr2 :
  updates_sent (tr1 ++ tr2) = updates_sent tr1 ++ updates_sent tr2.
Proof. apply omap_app. Qed.

(** ** Running the primitives *)

Lemma world_eta {D} (w : world D) :
  World (heap w) (session w) (db w) (trace w) (rng w) = w.
Proof. by destruct w. Qed.

Lemma session_eta (s : Session) :
  MkSession (_cache s) (_created s) (_changed s) (_deleted s) = s.
Proof. by destruct s. Qed.

Lemma run_bind {D A B} (m : M D A) (f : A → M D B) (w : world D) :
  bind m f w = match m w with
               | (Val a, w') => f a w'
               | (Exc e, w') => (Exc e, w')
               end.
Proof. reflexivity. Qed.

(** A built-in that only reads leaves the heap as it was. *)
Lemma at_path_nil {A} (f : builtin A) v : at_path [] f v = f v.
Proof. reflexivity. Qed.

Lemma call_builtin_read {D A} (w : world D) l (f : builtin A) v a :
  heap w !! l = Some v → f v = Val (a, v) →
  call_builtin (l, []) f w = (Val a, w).
Proof.
  intros Hl Hf. unfold call_builtin. simpl. rewrite Hl, Hf.
  f_equal. destruct w as [h s d tr n]. unfold set_heap. simpl in *.
  f_equal. by apply insert_id.
Qed.

Lemma call_builtin_fail {D A} (w : world D) l (f : builtin A) v e :
  heap w !! l = Some v → f v = Exc e →
  call_builtin (l, []) f w = (Exc e, w).
Proof. intros Hl Hf. unfold call_builtin. simpl. by rewrite Hl, Hf. Qed.

Lemma call_builtin_write {D A} (w : world D) l (f : builtin A) v a v' :
  heap w !! l = Some v → f v = Val (a, v') →
  call_builtin (l, []) f w = (Val a, set_heap <[l := v']> w).
Proof. intros Hl Hf. unfold call_builtin. simpl. by rewrite Hl, Hf. Qed.

(** Reading a field of a document through its proxy. *)
Lemma proxy_getitem {D} (w : world D) l d k x :
  heap w !! l = Some (JDict d) → d !! k = Some x →
  Dictionary.__getitem__ (proxy l) k w =
    (Val (wrap x (l, [KStr k]) (Modified l)),
     set_trace (.++ [Delegate (l, []) "__getitem__"]) w).
Proof.
  intros Hl Hk. unfold Dictionary.__getitem__, delegate, bind, log, modify.
  simpl. rewrite (call_builtin_read _ l _ (JDict d) x);
    [done | exact Hl | simpl; by rewrite Hk].
Qed.

Lemma proxy_getitem_missing {D} (w : world D) l d k :
  heap w !! l = Some (JDict d) → d !! k = None →
  Dictionary.__getitem__ (proxy l) k w =
    (Exc KeyError, set_trace (.++ [Delegate (l, []) "__getitem__"]) w).
Proof.
  intros Hl Hk. unfold Dictionary.__getitem__, delegate, bind, log, modify.
  simpl. rewrite (call_builtin_fail _ l _ (JDict d) KeyError);
    [done | exact Hl | simpl; by rewrite Hk].
Qed.

(** Reading the id of a document through its proxy. *)
Lemma proxy_id {D} (w : world D) l d id :
  heap w !! l = Some (JDict d) → d !! "_id" = Some (JStr id) →
  (let! a := Dictionary.__getitem__ (proxy l) "_id" in as_key a) w =
    (Val id, set_trace (.++ [Delegate (l, []) "__getitem__"]) w).
Proof.
  intros Hl Hk. unfold bind.
  by rewrite (proxy_getitem w l d "_id" (JStr id) Hl Hk).
Qed.

(** ** The proxies *)

Ltac mrun := unfold bind, gets, modify, log, ret, raise, lift, void; simpl.

(** Closes an equation between two spellings of one world. *)
Ltac same_world :=
  unfold set_session, set_trace, set_heap, set_db; simpl;
  rewrite <- ?app_assoc; simpl; done.


Lemma call_builtin_session {D A} (p : place) (f : builtin A) (w : world D) :
  session (call_builtin p f w).2 = session w.
Proof.
  unfold call_builtin. destruct (heap w !! p.1); [|done].
  by destruct (at_path p.2 f j) as [[]|].
Qed.


Lemma delegate_session {D C A} (self : wrapper C) name (f : builtin A) (w : world D) :
  session (delegate self name f w).2 = session w.
Proof.
  unfold delegate. mrun.
  pose proof (call_builtin_session (__subject__ self) f
    (set_trace (.++ [Delegate (__subject__ self) name]) w)) as Ht.
  by destruct (call_builtin _ _ _) as [[] ?].
Qed.

Lemma call_builtin_as_None {D} (p : place) (f : builtin unit) (w : world D) :
  call_builtin p (as_None f) w =
    match call_builtin p f w with
    | (Val _, w') => (Val JNull, w')
    | (Exc e, w') => (Exc e, w')
    end.
Proof.
  unfold call_builtin. destruct (heap w !! p.1) as [v|]; [|done].
  generalize (p.2). intros path.
  assert (at_path path (as_None f) v =
          match at_path path f v with
          | Val (_, v') => Val (JNull, v')
          | Exc e => Exc e
          end) as ->.
  { revert v. induction path as [|[s|i] path IH]; intros v; simpl.
    - unfold as_None. by destruct (f v) as [[]|].
    - destruct v; try done. destruct (d !! s); [|done].
      rewrite IH. by destruct (at_path path f j) as [[]|].
    - destruct v; try done. destruct (xs !! i); [|done].
      rewrite IH. by destruct (at_path path f j) as [[]|]. }
  by destruct (at_path path f v) as [[]|].
Qed.

(** A mutating method written as the source writes it is the callback,
    then the subject's method. *)
Lemma mutating_method_run {D C} (invoke : C → M D unit) (self : wrapper C)
    name (f : builtin unit) (w : world D) :
  returning_None (log Notify ;;; invoke (__modified self) ;;; delegate self name f) w =
    notify_then_delegate invoke self (name, as_None f) w.
Proof.
  unfold returning_None, notify_then_delegate, delegate. mrun.
  destruct (invoke _ _) as [[[]|e] w1]; [|done].
  rewrite call_builtin_as_None.
  by destruct (call_builtin _ f _) as [[[]|] ?].
Qed.


Lemma dict_mutate_run {D C} (invoke : C → M D unit) (self : wrapper C) m (w : world D) :
  dict_mutate invoke self m w = notify_then_delegate invoke self (dict_method m) w.
Proof. destruct m; apply mutating_method_run. Qed.

Lemma list_mutate_run {D C} (invoke : C → M D unit) (self : wrapper C) m (w : world D) :
  list_mutate invoke self m w = notify_then_delegate invoke self (list_method m) w.
Proof.
  destruct m; try apply mutating_method_run.
  unfold list_mutate, List.pop, notify_then_delegate, delegate. mrun.
  by destruct (invoke _ _) as [[[]|e] w1].
Qed.



Lemma new_object_trace {D} v (w : world D) : trace (new_object v w).2 = trace w.
Proof. done. Qed.






(** ** Running the session's methods *)

Section Running.
Context {D : Type} `{!Database D} (uuid4_hex : nat → string).
Implicit Types (w : world D) (l : loc) (d : gmap string json) (id : string).

Lemma data_of_wrap w l d k x cb :
  heap w !! l = Some (JDict d) → d !! k = Some x →
  data_of (wrap x (l, [KStr k]) cb) w = (Val x, w).
Proof.
  intros Hl Hk. unfold data_of.
  destruct x; simpl; try done;
    unfold call_builtin; simpl; rewrite Hl; simpl; rewrite Hk;
    destruct w; unfold set_heap; simpl in *; do 2 f_equal;
    rewrite (insert_id d k) by done; by apply insert_id.
Qed.

Lemma cached_run w l d id :
  heap w !! l = Some (JDict d) → d !! "_id" = Some (JStr id) →
  Session._cached l w =
    (Val (DictionaryProxy (proxy l)),
     World (heap w) (set_cache <[id := l]> (session w)) (db w)
           (trace w ++ [Delegate (l, []) "__getitem__"]) (rng w)).
Proof.
  intros Hl Hk. unfold Session._cached. mrun.
  rewrite (call_builtin_read w l _ (JDict d) (JDict d) Hl eq_refl). simpl.
  change (Wrapper (l, []) (Modified l)) with (proxy l).
  by rewrite (proxy_getitem w l d "_id" (JStr id) Hl Hk).
Qed.

Lemma modified_run w l d id :
  heap w !! l = Some (JDict d) → d !! "_id" = Some (JStr id) →
  Session.modified l w =
    (Val tt,
     World (heap w) (set_changed ({[id]} ∪.) (session w)) (db w)
           (trace w ++ [Delegate (l, []) "__getitem__"]) (rng w)).
Proof.
  intros Hl Hk. unfold Session.modified. mrun.
  by rewrite (proxy_getitem w l d "_id" (JStr id) Hl Hk).
Qed.

(** [doc[k] = x] on a cached document. *)
Lemma proxy_setitem w l d id k x :
  heap w !! l = Some (JDict d) → d !! "_id" = Some (JStr id) →
  Dictionary.__setitem__ Session.invoke (proxy l) k x w =
    (Val tt,
     World (<[l := JDict (<[k := x]> d)]> (heap w))
           (set_changed ({[id]} ∪.) (session w)) (db w)
           (trace w ++ [Notify; Delegate (l, []) "__getitem__";
                        Delegate (l, []) "__setitem__"])
           (rng w)).
Proof.
  intros Hl Hk. unfold Dictionary.__setitem__. mrun.
  rewrite (modified_run _ l d id) by done. simpl.
  unfold delegate. mrun.
  rewrite (call_builtin_write _ l _ (JDict d) tt (JDict (<[k := x]> d))) by done.
  same_world.
Qed.

(** A cache hit.  The tombstone test reads the id in the document, [a]. *)
Lemma get_hit_live w id l d a default :
  _cache (session w) !! id = Some l →
  heap w !! l = Some (JDict d) → d !! "_id" = Some (JStr a) →
  ¬ pending (session w) a →
  ∃ evs, Session.get id default w =
           (Val (DictionaryProxy (proxy l)), set_trace (.++ evs) w) ∧
         store_calls evs = [] ∧ notifications evs = 0%nat.
Proof.
  intros Hc Hl Hk Hlive. unfold Session.get. mrun. rewrite Hc.
  rewrite (proxy_getitem w l d "_id" (JStr a) Hl Hk). simpl.
  destruct (decide (is_Some (_deleted (session w) !! a))) as [Hd|Hd].
  - rewrite (proxy_getitem _ l d "_id" (JStr a)) by done. simpl.
    destruct (decide (a ∉ _created (session w))) as [Hn|Hn].
    + by destruct Hlive.
    + exists [Delegate (l, []) "__getitem__"; Delegate (l, []) "__getitem__"].
      split; [|done]. f_equal. same_world.
  - by exists [Delegate (l, []) "__getitem__"].
Qed.

Lemma get_hit_pending w id l d a default :
  _cache (session w) !! id = Some l →
  heap w !! l = Some (JDict d) → d !! "_id" = Some (JStr a) →
  pending (session w) a →
  Session.get id default w =
    (Val (Raw JNull),
     set_trace (.++ [Delegate (l, []) "__getitem__";
                     Delegate (l, []) "__getitem__"]) w).
Proof.
  intros Hc Hl Hk [Hd Hn]. unfold Session.get. mrun. rewrite Hc.
  rewrite (proxy_getitem w l d "_id" (JStr a) Hl Hk). simpl.
  destruct (decide (is_Some (_deleted (session w) !! a))); [|done].
  rewrite (proxy_getitem _ l d "_id" (JStr a)) by done. simpl.
  destruct (decide (a ∉ _created (session w))); [|done].
  f_equal. same_world.
Qed.

Lemma new_object_run w v :
  new_object v w =
    (Val (fresh (dom (heap w))),
     World (<[fresh (dom (heap w)) := v]> (heap w)) (session w) (db w)
           (trace w) (rng w)).
Proof. done. Qed.

Lemma fresh_unused w : heap w !! fresh (dom (heap w)) = None.
Proof. apply not_elem_of_dom, is_fresh. Qed.

Lemma get_miss_found w id doc a default :
  _cache (session w) !! id = None →
  db_get (db w) id = Val (Some doc) →
  doc !! "_id" = Some (JStr a) →
  Session.get id default w =
    (Val (DictionaryProxy (proxy (fresh (dom (heap w))))),
     World (<[fresh (dom (heap w)) := JDict doc]> (heap w))
           (set_cache <[a := fresh (dom (heap w))]> (session w)) (db w)
           (trace w ++ [DbGet id;
                        Delegate (fresh (dom (heap w)), []) "__getitem__"])
           (rng w)).
Proof.
  intros Hc Hdb Hk. unfold Session.get. mrun. rewrite Hc, Hdb. simpl.
  rewrite (cached_run _ _ doc a); simpl; [|apply lookup_insert_eq|done].
  by rewrite <- app_assoc.
Qed.

Lemma get_miss_absent w id default :
  _cache (session w) !! id = None →
  db_get (db w) id = Val None →
  Session.get id default w = (Val default, set_trace (.++ [DbGet id]) w).
Proof. intros Hc Hdb. unfold Session.get. mrun. by rewrite Hc, Hdb. Qed.

Lemma create_run w data id :
  data !! "_id" = Some (JStr id) →
  Session.create uuid4_hex data w =
    (Val (Raw (JStr id)),
     World (<[fresh (dom (heap w)) := JDict data]> (heap w))
           (set_cache <[id := fresh (dom (heap w))]>
              (set_created ({[id]} ∪.) (session w)))
           (db w)
           (trace w ++ [Delegate (fresh (dom (heap w)), []) "__getitem__";
                        Delegate (fresh (dom (heap w)), []) "__getitem__"])
           (rng w)).
Proof.
  intros Hk. unfold Session.create. mrun. try rewrite new_object_run.
  set (l := fresh (dom (heap w))).
  rewrite (call_builtin_read _ l _ (JDict data) true); simpl;
    [|apply lookup_insert_eq|by rewrite Hk, bool_decide_eq_true_2].
  rewrite (call_builtin_read _ l _ (JDict data) (JStr id)); simpl;
    [|apply lookup_insert_eq|by rewrite Hk].
  rewrite (cached_run _ l data id); simpl; [|apply lookup_insert_eq|done].
  rewrite (proxy_getitem _ l data "_id" (JStr id)); simpl;
    [|apply lookup_insert_eq|done].
  same_world.
Qed.

(** Deleting a document that was created and not yet flushed. *)
Lemma delete_created_run w l d id :
  heap w !! l = Some (JDict d) → d !! "_id" = Some (JStr id) →
  id ∈ _created (session w) → is_Some (_cache (session w) !! id) →
  Session.delete (proxy l) w =
    (Val tt,
     World (heap w)
           (set_cache (base.delete id) (set_created (.∖ {[id]}) (session w)))
           (db w)
           (trace w ++ replicate 3 (Delegate (l, []) "__getitem__"))
           (rng w)).
Proof.
  intros Hl Hk Hin Hc. unfold Session.delete. mrun.
  rewrite (proxy_getitem _ l d "_id" (JStr id)) by done. simpl.
  destruct (decide (id ∈ _created (session w))); [|done].
  rewrite (proxy_getitem _ l d "_id" (JStr id)) by done. simpl.
  destruct (decide (id ∈ _created (session w))); [|done]. simpl.
  rewrite (proxy_getitem _ l d "_id" (JStr id)) by done. simpl.
  destruct (decide (is_Some (_cache (session w) !! id))); [|done].
  same_world.
Qed.

(** Deleting a persisted document. *)
Lemma delete_persisted_run w l d id rev :
  heap w !! l = Some (JDict d) → d !! "_id" = Some (JStr id) →
  d !! "_rev" = Some rev → id ∉ _created (session w) →
  Session.delete (proxy l) w =
    (Val tt,
     World (heap w)
           (set_deleted <[id := rev]> (set_changed (.∖ {[id]}) (session w)))
           (db w)
           (trace w ++ [Delegate (l, []) "__getitem__";
                        Delegate (l, []) "__getitem__";
                        Delegate (l, []) "__getitem__";
                        Delegate (l, []) "__getitem__"])
           (rng w)).
Proof.
  intros Hl Hk Hr Hn. unfold Session.delete. mrun.
  rewrite (proxy_getitem _ l d "_id" (JStr id)) by done. simpl.
  destruct (decide (id ∈ _created (session w))); [done|].
  rewrite (proxy_getitem _ l d "_id" (JStr id)) by done. simpl.
  rewrite (proxy_getitem _ l d "_rev" rev) by done. simpl.
  rewrite (data_of_wrap _ l d "_rev" rev) by done.
  rewrite (proxy_getitem _ l d "_id" (JStr id)) by done. simpl.
  same_world.
Qed.
End Running.

(** ** Lookups *)

Section Lookups.
Context {D : Type} `{!Database D} (uuid4_hex : nat → string).
Implicit Types (w : world D) (l : loc) (d : gmap string json) (id : string).

Lemma proxy_getitem_inv w l k v w' :
  Dictionary.__getitem__ (proxy l) k w = (Val v, w') →
  ∃ d x, heap w !! l = Some (JDict d) ∧ d !! k = Some x ∧
         v = wrap x (l, [KStr k]) (Modified l) ∧
         w' = set_trace (.++ [Delegate (l, []) "__getitem__"]) w.
Proof.
  intros Hrun. destruct (heap w !! l) as [[| | | |xs|d]|] eqn:Hl.
  1-5,7: exfalso; revert Hrun;
    unfold Dictionary.__getitem__, delegate, call_builtin; mrun;
    rewrite Hl; done.
  destruct (d !! k) as [x|] eqn:Hk.
  - rewrite (proxy_getitem w l d k x Hl Hk) in Hrun.
    injection Hrun as <- <-. by exists d, x.
  - by rewrite (proxy_getitem_missing w l d k Hl Hk) in Hrun.
Qed.

Lemma proxy_id_inv w l id w' :
  (let! a := Dictionary.__getitem__ (proxy l) "_id" in as_key a) w = (Val id, w') →
  ∃ d, heap w !! l = Some (JDict d) ∧ d !! "_id" = Some (JStr id) ∧
       w' = set_trace (.++ [Delegate (l, []) "__getitem__"]) w.
Proof.
  unfold bind. destruct (Dictionary.__getitem__ _ _ _) as [[v|] w1] eqn:Hrun; [|done].
  apply proxy_getitem_inv in Hrun as (d & x & Hl & Hk & -> & ->).
  destruct x as [| | |s| |]; try done. simpl. intros [= <-]. by exists d.
Qed.
(** What a call to [get] that returns did. *)
Lemma get_inv w id default v w1 :
  Session.get id default w = (Val v, w1) →
  (∃ l d a evs,
      _cache (session w) !! id = Some l ∧ heap w !! l = Some (JDict d) ∧
      d !! "_id" = Some (JStr a) ∧
      (if decide (pending (session w) a) then v = Raw JNull
       else v = DictionaryProxy (proxy l)) ∧
      w1 = set_trace (.++ evs) w ∧
      store_calls evs = [] ∧ notifications evs = 0%nat) ∨
  (_cache (session w) !! id = None ∧ db_get (db w) id = Val None ∧
   v = default ∧ w1 = set_trace (.++ [DbGet id]) w) ∨
  (∃ doc a,
      _cache (session w) !! id = None ∧ db_get (db w) id = Val (Some doc) ∧
      doc !! "_id" = Some (JStr a) ∧
      v = DictionaryProxy (proxy (fresh (dom (heap w)))) ∧
      w1 = World (<[fresh (dom (heap w)) := JDict doc]> (heap w))
                 (set_cache <[a := fresh (dom (heap w))]> (session w)) (db w)
                 (trace w ++ [DbGet id;
                              Delegate (fresh (dom (heap w)), []) "__getitem__"])
                 (rng w)).
Proof.
  intros Hrun. destruct (_cache (session w) !! id) as [l|] eqn:Hc.
  - left.
    assert (∃ a w', (let! a := Dictionary.__getitem__ (proxy l) "_id" in as_key a) w
                      = (Val a, w')) as (a & w' & Hid).
    { revert Hrun. unfold Session.get. mrun. rewrite Hc.
      destruct (Dictionary.__getitem__ _ _ _) as [[x|] ?]; [|done].
      destruct (as_key x _) as [[a|] ?]; [|done]. eauto. }
    apply proxy_id_inv in Hid as (d & Hl & Hk & _).
    destruct (decide (pending (session w) a)) as [Hp|Hp].
    + rewrite (get_hit_pending w id l d a default Hc Hl Hk Hp) in Hrun.
      injection Hrun as <- <-. exists l, d, a. eexists.
      rewrite decide_True by done. done.
    + destruct (get_hit_live w id l d a default Hc Hl Hk Hp) as (evs & Hget & ? & ?).
      rewrite Hget in Hrun. injection Hrun as <- <-.
      exists l, d, a, evs. rewrite decide_False by done. done.
  - right. destruct (db_get (db w) id) as [[doc|]|e] eqn:Hdb.
    + right.
      assert (∃ a, doc !! "_id" = Some (JStr a)) as [a Hk].
      { revert Hrun. unfold Session.get. mrun. rewrite Hc, Hdb. simpl.
        unfold Session._cached. mrun.
        rewrite (call_builtin_read _ _ _ (JDict doc) (JDict doc));
          [|simpl; apply lookup_insert_eq|done]. simpl.
        change (Wrapper (?l, []) (Modified ?l)) with (proxy l).
        destruct (doc !! "_id") as [x|] eqn:Hk.
        - erewrite proxy_getitem; [|simpl; apply lookup_insert_eq|done].
          simpl. destruct x; try done. eauto.
        - erewrite proxy_getitem_missing; [done|simpl; apply lookup_insert_eq|done]. }
      rewrite (get_miss_found w id doc a default Hc Hdb Hk) in Hrun.
      injection Hrun as <- <-. by exists doc, a.
    + left. rewrite (get_miss_absent w id default Hc Hdb) in Hrun.
      by injection Hrun as <- <-.
    + revert Hrun. unfold Session.get. mrun. by rewrite Hc, Hdb.
Qed.

End Lookups.

Ltac closed_fact :=
  first [ vm_compute; reflexivity
        | apply (bool_decide_unpack _); vm_compute; exact I ].

Section Recreate.
Context {D : Type} `{!Database D} (uuid4_hex : nat → string).
Implicit Types (w : world D) (l : loc) (d : gmap string json) (id : string).

(** C7. For a persisted document cached under [X], after [delete] on it
    (which makes [get(X)] answer [None]) and [create] of data carrying
    [_id = X], [get(X)] returns, from the cache and without a store call,
    the new instance, which holds the created data. *)
Theorem recreated_document_is_visible w X l d rev data default :
  cached_as w X l d → d !! "_rev" = Some rev → X ∉ _created (session w) →
  data !! "_id" = Some (JStr X) →
  ∃ w1 w2 l' evs,
    Session.delete (proxy l) w = (Val tt, w1) ∧
    (Session.get X default w1).1 = Val (Raw JNull) ∧
    Session.create uuid4_hex data w1 = (Val (Raw (JStr X)), w2) ∧
    Session.get X default w2 =
      (Val (DictionaryProxy (proxy l')), set_trace (.++ evs) w2) ∧
    store_calls evs = [] ∧
    l' ≠ l ∧ heap w2 !! l' = Some (JDict data).
Proof.
  intros (Hc & Hl & Hk) Hrev Hnew Hdata.
  pose proof (delete_persisted_run w l d X rev Hl Hk Hrev Hnew) as Hdel.
  match type of Hdel with _ = (_, ?x) => set (w1 := x) in * end.
  assert (cached_as w1 X l d) as Hc1 by done.
  assert (pending (session w1) X) as Hp1.
  { split; [|done]. simpl. rewrite lookup_insert_eq. by eexists. }
  pose proof (create_run uuid4_hex w1 data X Hdata) as Hcr.
  match type of Hcr with _ = (_, ?x) => set (w2 := x) in * end.
  assert (cached_as w2 X (fresh (dom (heap w))) data) as Hc2.
  { split; [|split; [|done]]; simpl; apply lookup_insert_eq. }
  assert (¬ pending (session w2) X) as Hp2.
  { intros [_ Hn]. apply Hn. simpl. set_solver. }
  destruct Hc2 as (Hc2 & Hl2 & Hk2).
  destruct (get_hit_live w2 X _ data X default Hc2 Hl2 Hk2 Hp2)
    as (evs & Hget & Hst & _).
  exists w1, w2, (fresh (dom (heap w))), evs. repeat split; try done.
  - destruct Hc1 as (Hc1 & Hl1 & Hk1).
    by rewrite (get_hit_pending w1 X l d X default Hc1 Hl1 Hk1 Hp1).
  - intros Heq. pose proof (fresh_unused w) as Hf. rewrite Heq in Hf. congruence.
Qed.
End Recreate.

Lemma recreated_document_is_visible_witness :
  ∃ w1 w2 l' evs,
    Session.delete (proxy 0%nat) Scenario.fetched = (Val tt, w1) ∧
    (Session.get "X" Scenario.None_ w1).1 = Val (Raw JNull) ∧
    Session.create MemStore.uuid4_hex Scenario.replacement w1 =
      (Val (Raw (JStr "X")), w2) ∧
    Session.get "X" Scenario.None_ w2 =
      (Val (DictionaryProxy (proxy l')), set_trace (.++ evs) w2) ∧
    store_calls evs = [] ∧
    l' ≠ 0%nat ∧ heap w2 !! l' = Some (JDict Scenario.replacement).
Proof.
  apply (recreated_document_is_visible MemStore.uuid4_hex Scenario.fetched "X" 0%nat
           (<["_id" := JStr "X"]> Scenario.persisted) (JStr "1-a")).
  - repeat split; closed_fact.
  - closed_fact.
  - closed_fact.
  - closed_fact.
Defined.

(** ** Identity and tombstones *)

Lemma memstore_answers_by_id : answers_by_id MemStore.t.
Proof.
  intros st id doc. simpl. unfold MemStore.read. intros [= Hdoc].
  destruct (MemStore.docs st !! id); [|done]. injection Hdoc as <-.
  apply lookup_insert_eq.
Qed.

Lemma memstore_echoes_ids : echoes_ids MemStore.t.
Proof.
  intros st batch rs st'. simpl.
  destruct (MemStore.store_all st batch) as [rs0 st0] eqn:Hall.
  intros [= <- <-]. revert st rs0 st0 Hall.
  induction batch as [|doc batch IH]; intros st rs0 st0; simpl.
  - intros [= <- <-]. constructor.
  - destruct (MemStore.store_one st doc) as [r st1] eqn:Hone.
    destruct (MemStore.store_all st1 batch) as [rs1 st2] eqn:Hrest.
    intros [= <- <-]. constructor; [|by eapply IH].
    intros s Hs. revert Hone. unfold MemStore.store_one. rewrite Hs.
    by destruct (doc !! "_deleted") as [[| [] | | | |]|]; intros [= <- _].
Qed.

Section Identity.
Context {D : Type} `{!Database D} (uuid4_hex : nat → string).
Implicit Types (w : world D) (l : loc) (d : gmap string json) (id : string).

Lemma getitem_run w id :
  Session.__getitem__ id w =
    match Session.get id (Raw JNull) w with
    | (Val v, w1) => if is_None v then (Exc ResourceNotFound, w1) else (Val v, w1)
    | (Exc e, w1) => (Exc e, w1)
    end.
Proof.
  unfold Session.__getitem__. mrun.
  destruct (Session.get _ _ _) as [[v|] ?]; [|done]. by destruct (is_None v).
Qed.

Lemma row_doc_cached w r d id l :
  row_doc r = Some d → d !! "_id" = Some (JStr id) →
  _cache (session w) !! id = Some l →
  Session._get_doc r w = (Val (DictionaryProxy (proxy l)), w).
Proof.
  intros Hr Hk Hc. unfold Session._get_doc. rewrite Hr, Hk. mrun. by rewrite Hc.
Qed.

(** X1. A second lookup of a document that is not pending deletion returns
    the instance the first returned: from the cache, whatever the store
    now holds and without calling it; and a row whose document carries
    that id resolves to the same instance. *)
Theorem get_again_returns_the_cached_instance w id dv doc w1 default' (db' : D) :
  answers_by_id D → ¬ pending (session w) id →
  Session.get id (Raw dv) w = (Val (DictionaryProxy doc), w1) →
  (∃ evs, Session.get id default' (set_db db' w1) =
            (Val (DictionaryProxy doc), set_trace (.++ evs) (set_db db' w1)) ∧
          store_calls evs = []) ∧
  (Session.__getitem__ id w1).1 = Val (DictionaryProxy doc) ∧
  (∀ r d, row_doc r = Some d → d !! "_id" = Some (JStr id) →
          Session._get_doc r w1 = (Val (DictionaryProxy doc), w1)).
Proof.
  intros Hstore Hlive Hrun.
  assert (∃ l d a, doc = proxy l ∧ _cache (session w1) !! id = Some l ∧
                   heap w1 !! l = Some (JDict d) ∧ d !! "_id" = Some (JStr a) ∧
                   ¬ pending (session w1) a) as (l & d & a & -> & Hc & Hl & Hk & Hp).
  { apply get_inv in Hrun
      as [(l & d & a & evs & Hc & Hl & Hk & Hv & -> & _)
         |[(_ & _ & Hv & _)|(d & a & Hc & Hdb & Hk & Hv & ->)]].
    - destruct (decide (pending (session w) a)); [done|].
      injection Hv as ->. by exists l, d, a.
    - done.
    - injection Hv as ->. pose proof (Hstore _ _ _ Hdb) as Hid.
      rewrite Hk in Hid. injection Hid as ->.
      exists (fresh (dom (heap w))), d, id. simpl.
      rewrite !lookup_insert_eq. done. }
  split; [|split].
  - destruct (get_hit_live (set_db db' w1) id l d a default') as (evs & -> & ? & _);
      try done. by exists evs.
  - rewrite getitem_run.
    by destruct (get_hit_live w1 id l d a (Raw JNull)) as (evs & -> & ? & _).
  - intros r d0 Hr Hk0. by apply (row_doc_cached w1 r d0 id l).
Qed.

(** X2. After [delete] of a persisted, cached document and before [flush],
    [get] answers [None] whatever default the caller supplies, strict
    indexed access raises [ResourceNotFound], and the document is still in
    the cache. *)
Theorem deleted_document_reads_as_None w id l d rev default :
  cached_as w id l d → d !! "_rev" = Some rev → id ∉ _created (session w) →
  ∃ w1, Session.delete (proxy l) w = (Val tt, w1) ∧
        (Session.get id default w1).1 = Val (Raw JNull) ∧
        (Session.__getitem__ id w1).1 = Exc ResourceNotFound ∧
        _cache (session w1) !! id = Some l.
Proof.
  intros (Hc & Hl & Hk) Hrev Hnew.
  rewrite (delete_persisted_run w l d id rev Hl Hk Hrev Hnew).
  eexists. split; [done|].
  match goal with |- (Session.get _ _ ?x).1 = _ ∧ _ => set (w1 := x) end.
  assert (pending (session w1) id) as Hp.
  { split; [|done]. simpl. rewrite lookup_insert_eq. by eexists. }
  rewrite getitem_run.
  by rewrite !(get_hit_pending w1 id l d id _ Hc Hl Hk Hp).
Qed.
End Identity.

(** C1 (the code at the failing input).  ["X"] is fetched (object 0) and
    deleted, created again (object 1), and the document [get] then returns
    is deleted in turn.  The id is now in [_deleted] alone and the cache
    holds nothing for it: the first [get] takes the document from the store
    and returns a proxy, the second finds it cached and pending deletion and
    returns [None]. *)
Theorem get_twice_differs_after_deleting_recreated :
  (Session.get "X" Scenario.None_ Scenario.start).1 =
    Val (DictionaryProxy (proxy 0%nat)) ∧
  (Session.get "X" Scenario.None_ Scenario.recreated).1 =
    Val (DictionaryProxy (proxy 1%nat)) ∧
  _cache (session Scenario.deleted_again) !! "X" = None ∧
  "X" ∉ _created (session Scenario.deleted_again) ∧
  is_Some (_deleted (session Scenario.deleted_again) !! "X") ∧
  (Session.get "X" Scenario.None_ Scenario.deleted_again).1 =
    Val (DictionaryProxy (proxy 2%nat)) ∧
  (Session.get "X" Scenario.None_
     (Session.get "X" Scenario.None_ Scenario.deleted_again).2).1 =
    Val (Raw JNull).
Proof. repeat split; closed_fact. Qed.

Lemma get_again_returns_the_cached_instance_witness :
  (∃ evs, Session.get "X" Scenario.None_ (set_db (MemStore.Store ∅ 0) Scenario.fetched) =
            (Val (DictionaryProxy (proxy 0%nat)),
             set_trace (.++ evs) (set_db (MemStore.Store ∅ 0) Scenario.fetched)) ∧
          store_calls evs = []) ∧
  (Session.__getitem__ "X" Scenario.fetched).1 = Val (DictionaryProxy (proxy 0%nat)) ∧
  (∀ r d, row_doc r = Some d → d !! "_id" = Some (JStr "X") →
          Session._get_doc r Scenario.fetched =
            (Val (DictionaryProxy (proxy 0%nat)), Scenario.fetched)).
Proof.
  apply (get_again_returns_the_cached_instance Scenario.start "X" JNull).
  - apply memstore_answers_by_id.
  - intros [[? Hd] _]. revert Hd. vm_compute. done.
  - vm_compute. reflexivity.
Defined.

(** ** Indexed assignment and deletion *)

Section Indexed.
Context {D : Type} `{!Database D} (uuid4_hex : nat → string).
Implicit Types (w : world D) (l : loc) (d : gmap string json) (id : string).

Lemma setitem_run w id content :
  Session.__setitem__ uuid4_hex id content w =
    if decide (is_Some (content !! "_rev")) then (Val (Raw JNull), w)
    else match Session.create uuid4_hex (<["_id" := JStr id]> content) w with
         | (Val _, w') => (Val (Raw JNull), w')
         | (Exc e, w') => (Exc e, w')
         end.
Proof.
  unfold Session.__setitem__. destruct (decide (is_Some (content !! "_rev"))); [done|].
  mrun. by destruct (Session.create _ _ _) as [[] ?].
Qed.

(** C9 (amended). [session[id] = payload] with a payload carrying [_rev]
    changes nothing, not even the trace, and returns [None]; without
    [_rev] it is [create] of the payload with [_id] set to [id], and
    returns [None] as well, so the returned value tells the two apart in
    no way. *)
Theorem setitem_ignores_revisioned_payload w id content :
  (is_Some (content !! "_rev") →
     Session.__setitem__ uuid4_hex id content w = (Val (Raw JNull), w)) ∧
  (content !! "_rev" = None →
     Session.__setitem__ uuid4_hex id content w =
       match Session.create uuid4_hex (<["_id" := JStr id]> content) w with
       | (Val _, w') => (Val (Raw JNull), w')
       | (Exc e, w') => (Exc e, w')
       end).
Proof.
  rewrite setitem_run. split; intros Hrev.
  - by rewrite decide_True.
  - by rewrite decide_False by (rewrite Hrev; by intros [? ?]).
Qed.

(** X27. [del session[id]] resolves the document by strict indexed access
    first: for an id in neither cache nor store, and for a cached id
    pending deletion, it raises [ResourceNotFound] and leaves heap,
    session and store as they were; when [session[id]] returns, what it
    returns is the proxy of a document and the call is [delete] of that
    proxy. *)
Theorem delitem_resolves_first w id :
  (_cache (session w) !! id = None → db_get (db w) id = Val None →
     Session.__delitem__ id w =
       (Exc ResourceNotFound, set_trace (.++ [DbGet id]) w)) ∧
  (∀ l d, cached_as w id l d → pending (session w) id →
     Session.__delitem__ id w =
       (Exc ResourceNotFound,
        set_trace (.++ [Delegate (l, []) "__getitem__";
                        Delegate (l, []) "__getitem__"]) w)) ∧
  (∀ v w1, Session.__getitem__ id w = (Val v, w1) →
     ∃ l, v = DictionaryProxy (proxy l) ∧
          Session.__delitem__ id w = Session.delete (proxy l) w1).
Proof.
  split; [|split].
  - intros Hc Hdb. unfold Session.__delitem__. mrun. rewrite getitem_run.
    by rewrite (get_miss_absent w id _ Hc Hdb).
  - intros l d (Hc & Hl & Hk) Hp. unfold Session.__delitem__. mrun.
    rewrite getitem_run.
    by rewrite (get_hit_pending w id l d id _ Hc Hl Hk Hp).
  - intros v w1 Hget. unfold Session.__delitem__. mrun. rewrite Hget.
    rewrite getitem_run in Hget.
    destruct (Session.get id (Raw JNull) w) as [[v'|] w'] eqn:Hrun; [|done].
    destruct (is_None v') eqn:Hnone; [done|]. injection Hget as -> ->.
    apply get_inv in Hrun
      as [(l & d & a & evs & _ & _ & _ & Hv & _)
         |[(_ & _ & -> & _)|(d & a & _ & _ & _ & -> & _)]].
    + destruct (decide (pending (session w) a)); subst v; [done|]. by exists l.
    + done.
    + by eexists.
Qed.
End Indexed.

(** C10 (the code at the failing input).  After ["X"] was fetched and
    deleted, created again and the new document deleted in turn, the id is
    in [_deleted] with the first revision, out of [_created], and the cache
    holds nothing for it.  [del session["X"]] does not raise there: its
    lookup misses the cache, reads the document from the store, which never
    heard of the deletion, and caches it as object 2, and the call returns.
    The same statement once more finds the id cached and pending deletion
    and raises [ResourceNotFound]. *)
Theorem delitem_returns_for_a_stranded_tombstone :
  _cache (session Scenario.deleted_again) !! "X" = None ∧
  "X" ∉ _created (session Scenario.deleted_again) ∧
  _deleted (session Scenario.deleted_again) !! "X" = Some (JStr "1-a") ∧
  (Session.__delitem__ "X" Scenario.deleted_again).1 = Val tt ∧
  _cache (session (Session.__delitem__ "X" Scenario.deleted_again).2) !! "X" =
    Some 2%nat ∧
  store_calls (trace (Session.__delitem__ "X" Scenario.deleted_again).2) =
    store_calls (trace Scenario.deleted_again) ++ [DbGet "X"] ∧
  (Session.__delitem__ "X"
     (Session.__delitem__ "X" Scenario.deleted_again).2).1 =
    Exc ResourceNotFound.
Proof. repeat split; closed_fact. Qed.

(** C9 (counterexample).  On a new session, assigning a payload that carries
    [_rev] returns the very value that assigning one without [_rev]
    returns, [None]; the first left the session untouched, the second
    created ["foo"]. *)
Lemma setitem_returns_None_either_way :
  (Session.__setitem__ MemStore.uuid4_hex "X" Scenario.persisted Scenario.start).1 =
    Val (Raw JNull) ∧
  (Session.__setitem__ MemStore.uuid4_hex "foo" ∅ Scenario.start).1 =
    Val (Raw JNull) ∧
  session (Session.__setitem__ MemStore.uuid4_hex "X" Scenario.persisted
             Scenario.start).2 = session Scenario.start ∧
  "foo" ∈ _created (session (Session.__setitem__ MemStore.uuid4_hex "foo" ∅
                               Scenario.start).2).
Proof. repeat split; closed_fact. Qed.

Lemma setitem_ignores_revisioned_payload_witness :
  Session.__setitem__ MemStore.uuid4_hex "X" Scenario.persisted Scenario.start =
    (Val (Raw JNull), Scenario.start).
Proof.
  apply (setitem_ignores_revisioned_payload MemStore.uuid4_hex Scenario.start "X"
           Scenario.persisted).
  closed_fact.
Defined.

Lemma delitem_resolves_first_witness :
  Session.__delitem__ "X" Scenario.deleted =
    (Exc ResourceNotFound,
     set_trace (.++ [Delegate (0%nat, []) "__getitem__";
                     Delegate (0%nat, []) "__getitem__"]) Scenario.deleted).
Proof.
  apply (proj1 (proj2 (delitem_resolves_first Scenario.deleted "X")) 0%nat
           (<["_id" := JStr "X"]> Scenario.persisted)).
  - repeat split; closed_fact.
  - split; closed_fact.
Defined.

(** ** Flushing *)

Lemma reads_only_store_calls evs : reads_only evs → store_calls evs = [].
Proof.
  induction 1 as [|e evs He _ IH]; [done|]. by destruct e.
Qed.

Lemma reads_only_updates_sent evs : reads_only evs → updates_sent evs = [].
Proof.
  induction 1 as [|e evs He _ IH]; [done|]. by destruct e.
Qed.

Lemma reads_only_notifications evs : reads_only evs → notifications evs = 0%nat.
Proof.
  induction 1 as [|e evs He _ IH]; [done|]. by destruct e.
Qed.

Lemma set_trace_app {D} (w : world D) evs1 evs2 :
  set_trace (.++ evs2) (set_trace (.++ evs1) w) = set_trace (.++ (evs1 ++ evs2)) w.
Proof. unfold set_trace. simpl. by rewrite app_assoc. Qed.

Lemma set_trace_nil {D} (w : world D) : set_trace (.++ []) w = w.
Proof. unfold set_trace. rewrite app_nil_r. apply world_eta. Qed.

Section Flush.
Context {D : Type} `{!Database D}.
Implicit Types (w : world D) (l : loc) (d : gmap string json) (id : string).

Lemma keys_run w l d :
  heap w !! l = Some (JDict d) →
  Dictionary.keys (proxy l) w =
    (Val (map_to_list d).*1, set_trace (.++ [Delegate (l, []) "keys"]) w).
Proof.
  intros Hl. unfold Dictionary.keys, delegate. mrun.
  by rewrite (call_builtin_read _ l _ (JDict d) (map_to_list d).*1).
Qed.

Lemma collect_items w l d ks :
  heap w !! l = Some (JDict d) → Forall (λ k, is_Some (d !! k)) ks →
  ∃ evs,
    collect ks (λ k, let! v := Dictionary.__getitem__ (proxy l) k in
                     let! x := data_of v in ret (k, x)) w =
      (Val ((λ k, (k, d !!! k)) <$> ks), set_trace (.++ evs) w) ∧
    reads_only evs.
Proof.
  intros Hl Hks. revert w Hl.
  induction Hks as [|k ks [x Hk] _ IH]; intros w Hl.
  - exists []. rewrite set_trace_nil. split; [done|constructor].
  - simpl. mrun.
    rewrite (proxy_getitem w l d k x Hl Hk). simpl.
    rewrite (data_of_wrap _ l d k x) by done.
    destruct (IH (set_trace (.++ [Delegate (l, []) "__getitem__"]) w) Hl)
      as (evs & Hrun & Hevs).
    revert Hrun. mrun. intros ->. eexists. split.
    + rewrite set_trace_app. by rewrite (lookup_total_correct d k x Hk).
    + by constructor.
Qed.

Lemma items_of_map d : (λ k, (k, d !!! k)) <$> (map_to_list d).*1 = map_to_list d.
Proof.
  rewrite <- list_fmap_compose.
  rewrite <- (list_fmap_id (map_to_list d)) at 2.
  apply Forall_fmap_ext, Forall_forall. intros [k x] Hin. simpl.
  apply elem_of_map_to_list in Hin. by rewrite (lookup_total_correct d k x Hin).
Qed.

Lemma snapshot_run w l d :
  heap w !! l = Some (JDict d) →
  ∃ evs, Session.snapshot (proxy l) w = (Val d, set_trace (.++ evs) w) ∧
         reads_only evs.
Proof.
  intros Hl. unfold Session.snapshot. mrun. rewrite (keys_run w l d Hl).
  destruct (collect_items (set_trace (.++ [Delegate (l, []) "keys"]) w) l d
              (map_to_list d).*1) as (evs & Hrun & Hevs); [done| |].
  { apply Forall_forall. intros k Hin. apply list_elem_of_fmap in Hin as [[k' x] [-> Hin]].
    apply elem_of_map_to_list in Hin. by exists x. }
  revert Hrun. mrun. intros ->. simpl. eexists. split.
  - rewrite set_trace_app, items_of_map, list_to_map_to_list. done.
  - by constructor.
Qed.

Lemma snapshot_step_inv w id u w1 :
  (let! l := Session.cache_getitem id in Session.snapshot (proxy l)) w = (Val u, w1) →
  ∃ l evs, _cache (session w) !! id = Some l ∧ heap w !! l = Some (JDict u) ∧
           w1 = set_trace (.++ evs) w ∧ reads_only evs.
Proof.
  unfold Session.cache_getitem. mrun.
  destruct (_cache (session w) !! id) as [l|] eqn:Hc; [|done]. simpl.
  destruct (heap w !! l) as [[| | | | |d]|] eqn:Hl.
  6: { destruct (snapshot_run w l d Hl) as (evs & -> & Hevs).
       intros [= <- <-]. by exists l, evs. }
  all: unfold Session.snapshot, Dictionary.keys, delegate, call_builtin; mrun;
    by rewrite Hl.
Qed.

(** The documents [flush] is about to send: every id must be cached, and
    the copies are what the documents hold. *)
Lemma snapshots_inv w ids ups w1 :
  collect ids (λ doc_id, let! l := Session.cache_getitem doc_id in
                         Session.snapshot (proxy l)) w = (Val ups, w1) →
  ∃ evs, w1 = set_trace (.++ evs) w ∧ reads_only evs ∧
         Forall2 (λ id u, ∃ l, _cache (session w) !! id = Some l ∧
                               heap w !! l = Some (JDict u)) ids ups.
Proof.
  revert w ups. induction ids as [|id ids IH]; intros w ups; simpl.
  - intros [= <- <-]. exists []. rewrite set_trace_nil.
    split; [done|]. split; constructor.
  - rewrite run_bind.
    destruct ((let! l := Session.cache_getitem id in Session.snapshot (proxy l)) w)
      as [[u|] w0] eqn:Hstep; [|done].
    apply snapshot_step_inv in Hstep as (l & evs0 & Hc & Hl & -> & Hevs0).
    rewrite run_bind.
    destruct (collect ids _ _) as [[us|] w2] eqn:Hrest; [|done].
    intros [= <- <-].
    apply IH in Hrest as (evs & -> & Hevs & Hall).
    exists (evs0 ++ evs). rewrite set_trace_app. split; [done|]. split.
    + by apply Forall_app.
    + constructor; [by exists l|done].
Qed.

Lemma snapshots_run w ids :
  Forall (λ id, ∃ l d, _cache (session w) !! id = Some l ∧
                       heap w !! l = Some (JDict d)) ids →
  ∃ evs ups,
    collect ids (λ doc_id, let! l := Session.cache_getitem doc_id in
                           Session.snapshot (proxy l)) w =
      (Val ups, set_trace (.++ evs) w) ∧ reads_only evs.
Proof.
  intros Hids. revert w Hids. induction ids as [|id ids IH]; intros w Hids.
  - exists [], []. rewrite set_trace_nil. split; [done|constructor].
  - apply Forall_cons in Hids as [(l & d & Hc & Hl) Hids]. simpl.
    rewrite run_bind. unfold Session.cache_getitem at 1. mrun. rewrite Hc. simpl.
    destruct (snapshot_run w l d Hl) as (evs0 & -> & Hevs0).
    destruct (IH (set_trace (.++ evs0) w) Hids) as (evs & ups & Hrun & Hevs).
    revert Hrun. mrun. intros ->.
    exists (evs0 ++ evs), (d :: ups). rewrite set_trace_app.
    split; [done|]. by apply Forall_app.
Qed.
End Flush.

Section FlushLoops.
Context {D : Type} `{!Database D}.
Implicit Types (w : world D) (l : loc) (d : gmap string json) (id : string).

Lemma evict_run w k :
  Session.evict k w =
    if decide (k ∉ _created (session w)) then
      if decide (is_Some (_cache (session w) !! k))
      then (Val tt, set_session (set_cache (base.delete k)) w)
      else (Exc KeyError, w)
    else (Val tt, w).
Proof.
  unfold Session.evict. mrun.
  destruct (decide (k ∉ _created (session w))); [|done].
  by destruct (decide (is_Some (_cache (session w) !! k))).
Qed.

Lemma evict_loop_inv ks w w1 :
  for_each ks Session.evict w = (Val tt, w1) →
  w1 = set_session (set_cache (evicted (_created (session w)) ks)) w.
Proof.
  revert w. induction ks as [|k ks IH]; intros w; simpl.
  - intros [= <-]. unfold set_session, set_cache. simpl.
    by rewrite session_eta, world_eta.
  - rewrite run_bind, evict_run.
    destruct (decide (k ∉ _created (session w))).
    + destruct (decide (is_Some (_cache (session w) !! k))); [|done].
      intros Hrest. apply IH in Hrest as ->.
      unfold set_session, set_cache, evicted. simpl. by rewrite decide_True.
    + intros Hrest. apply IH in Hrest as ->.
      unfold set_session, set_cache, evicted. simpl. by rewrite decide_False.
Qed.

Lemma evicted_lookup created ks cache id :
  evicted created ks cache !! id =
    if decide (id ∈ ks ∧ id ∉ created) then None else cache !! id.
Proof.
  revert cache. induction ks as [|k ks IH]; intros cache.
  - rewrite decide_False; [done|]. intros [Hin _]. by apply not_elem_of_nil in Hin.
  - change (evicted created (k :: ks) cache) with
      (evicted created ks (if decide (k ∉ created) then base.delete k cache else cache)).
    rewrite IH. destruct (decide (id ∈ ks ∧ id ∉ created)) as [[Hin Hn]|Hno].
    + rewrite decide_True; [done|]. split; [by right|done].
    + destruct (decide (k ∉ created)) as [Hk|Hk].
      * destruct (decide (id = k)) as [->|Hne].
        -- rewrite lookup_delete_eq. rewrite decide_True; [done|].
           split; [by left|done].
        -- rewrite lookup_delete_ne by done.
           rewrite decide_False; [done|].
           intros [Hin Hn]. apply elem_of_cons in Hin as [?|Hin]; [done|].
           by apply Hno.
      * rewrite decide_False; [done|].
        intros [Hin Hn]. apply elem_of_cons in Hin as [->|Hin]; [done|].
        by apply Hno.
Qed.

Lemma record_rev_inv w r w1 :
  Session.record_rev r w = (Val tt, w1) →
  ∃ l d a,
    _cache (session w) !! resp_id r = Some l ∧
    heap w !! l = Some (JDict d) ∧ d !! "_id" = Some (JStr a) ∧
    w1 = World (<[l := JDict (<["_rev" := JStr (resp_rev r)]> d)]> (heap w))
               (set_changed ({[a]} ∪.) (session w)) (db w)
               (trace w ++ [Notify; Delegate (l, []) "__getitem__";
                            Delegate (l, []) "__setitem__"])
               (rng w).
Proof.
  unfold Session.record_rev, Session.cache_getitem. mrun.
  destruct (_cache (session w) !! resp_id r) as [l|] eqn:Hc; [|done]. simpl.
  destruct (heap w !! l) as [[| | | | |d]|] eqn:Hl.
  6: { destruct (d !! "_id") as [x|] eqn:Hk.
       - destruct x as [| | |a| |].
         4: { rewrite (proxy_setitem w l d a "_rev" _ Hl Hk).
              intros [= <-]. by exists l, d, a. }
         all: unfold Dictionary.__setitem__, Session.invoke, Session.modified; mrun;
           erewrite proxy_getitem by (first [exact Hk | simpl; exact Hl]); done.
       - unfold Dictionary.__setitem__, Session.invoke, Session.modified. mrun.
         erewrite proxy_getitem_missing by (first [exact Hk | simpl; exact Hl]); done. }
  all: unfold Dictionary.__setitem__, Session.invoke, Session.modified,
         Dictionary.__getitem__, delegate, call_builtin; mrun; by rewrite Hl.
Qed.

(** What writing the returned revisions back does: the cache and the other
    sets stay, every response finds its document in the cache, and a
    document object either has no response and is untouched, or carries the
    revision of a response that names it. *)
Lemma record_revs_inv rs w w1 :
  for_each rs Session.record_rev w = (Val tt, w1) →
  _cache (session w1) = _cache (session w) ∧
  _created (session w1) = _created (session w) ∧
  _deleted (session w1) = _deleted (session w) ∧
  db w1 = db w ∧
  updates_sent (trace w1) = updates_sent (trace w) ∧
  (∀ r, r ∈ rs → is_Some (_cache (session w) !! resp_id r)) ∧
  (∀ l d, heap w !! l = Some (JDict d) →
     ∃ d', heap w1 !! l = Some (JDict d') ∧ d' !! "_id" = d !! "_id" ∧
           ((d' = d ∧ ∀ r, r ∈ rs → _cache (session w) !! resp_id r ≠ Some l) ∨
            (∃ r, r ∈ rs ∧ _cache (session w) !! resp_id r = Some l ∧
                  d' !! "_rev" = Some (JStr (resp_rev r))))).
Proof.
  revert w. induction rs as [|r rs IH]; intros w; simpl.
  - intros [= <-]. repeat split; try done.
    { intros r Hr. by apply not_elem_of_nil in Hr. }
    intros l d Hl. exists d. repeat split; try done. left. split; [done|].
    intros r Hr. by apply not_elem_of_nil in Hr.
  - rewrite run_bind.
    destruct (Session.record_rev r w) as [[[]|] w0] eqn:Hstep; [|done].
    apply record_rev_inv in Hstep as (l0 & d0 & a & Hc0 & Hl0 & Hk0 & ->).
    intros Hrest.
    apply IH in Hrest as (Hcache & Hcr & Hdel & Hdb & Htr & Hfound & Hheap).
    simpl in *. pose proof Hcache as Hcache0. repeat split; try done.
    { rewrite Htr, updates_sent_app. simpl. by rewrite app_nil_r. }
    { intros r' Hin. apply elem_of_cons in Hin as [->|Hin]; [by eexists|].
      by apply Hfound. }
    intros l d Hl. destruct (decide (l = l0)) as [->|Hne].
    + rewrite Hl0 in Hl. injection Hl as <-.
      destruct (Hheap l0 (<["_rev" := JStr (resp_rev r)]> d0)) as (d' & Hl' & Hid & Hrev).
      { apply lookup_insert_eq. }
      exists d'. split; [done|]. split.
      { rewrite Hid. by rewrite lookup_insert_ne. }
      right. destruct Hrev as [[-> Hnone]|(r' & Hin & Hc' & Hrev)].
      * exists r. split; [by left|]. split; [done|]. apply lookup_insert_eq.
      * exists r'. split; [by right|]. done.
    + destruct (Hheap l d) as (d' & Hl' & Hid & Hrev).
      { by rewrite lookup_insert_ne. }
      exists d'. split; [done|]. split; [done|].
      destruct Hrev as [[-> Hnone]|(r' & Hin & Hc' & Hrev)].
      * left. split; [done|]. intros r' Hin. apply elem_of_cons in Hin as [->|Hin].
        -- rewrite Hc0. congruence.
        -- by apply Hnone.
      * right. exists r'. split; [by right|]. done.
Qed.
End FlushLoops.

Section FlushRun.
Context {D : Type} `{!Database D}.
Implicit Types (w : world D) (l : loc) (d : gmap string json) (id : string).

Lemma updates_list_inv w ups w0 :
  Session.updates_list w = (Val ups, w0) →
  ∃ evs, w0 = set_trace (.++ evs) w ∧ reads_only evs ∧
         Forall2 (λ id u, ∃ l, _cache (session w) !! id = Some l ∧
                               heap w !! l = Some (JDict u))
           (elements (_created (session w)) ++ elements (_changed (session w))) ups.
Proof.
  unfold Session.updates_list. rewrite !run_bind. simpl. apply snapshots_inv.
Qed.

Lemma updates_list_run w :
  (∀ id, id ∈ _created (session w) ∪ _changed (session w) →
         ∃ l d, _cache (session w) !! id = Some l ∧ heap w !! l = Some (JDict d)) →
  ∃ evs ups, Session.updates_list w = (Val ups, set_trace (.++ evs) w) ∧
             reads_only evs.
Proof.
  intros Hall. unfold Session.updates_list. rewrite !run_bind. simpl.
  apply snapshots_run, Forall_forall. intros id Hin. apply Hall.
  apply elem_of_app in Hin as [Hin|Hin]; apply elem_of_elements in Hin; set_solver.
Qed.

(** What a [flush] that returns did. *)
Lemma flush_inv w w' :
  Session.flush w = (Val tt, w') →
  ∃ evs ups rs0 st1 rs st2 w2,
    reads_only evs ∧
    Forall2 (λ id u, ∃ l, _cache (session w) !! id = Some l ∧
                          heap w !! l = Some (JDict u))
      (elements (_created (session w)) ++ elements (_changed (session w))) ups ∧
    db_update (db w) (Session.deletions (session w)) = (Val rs0, st1) ∧
    db_update st1 ups = (Val rs, st2) ∧
    for_each rs Session.record_rev (after_batches w evs ups st2) = (Val tt, w2) ∧
    w' = set_session (set_changed (λ _, ∅)) (set_session (set_created (λ _, ∅)) w2).
Proof.
  unfold Session.flush. mrun.
  destruct (Session.updates_list w) as [[ups|] w0] eqn:Hups; [|done].
  apply updates_list_inv in Hups as (evs & -> & Hevs & Hups).
  unfold Session.db_update_call at 1. mrun.
  destruct (db_update (db w) (Session.deletions (session w))) as [[rs0|] st1] eqn:Hdb1;
    [|done].
  simpl.
  destruct (for_each _ Session.evict _) as [[[]|] w1] eqn:Hev; [|done].
  apply evict_loop_inv in Hev as ->. simpl.
  unfold Session.db_update_call. mrun.
  destruct (db_update st1 ups) as [[rs|] st2] eqn:Hdb2; [|done]. simpl.
  destruct (for_each rs Session.record_rev _) as [[[]|] w2] eqn:Hrec; [|done].
  intros [= <-]. exists evs, ups, rs0, st1, rs, st2, w2.
  repeat split; try done.
  rewrite <- Hrec. f_equal. unfold after_batches, set_session, set_trace, set_db,
    set_cache, set_deleted. simpl. by rewrite <- !app_assoc.
Qed.

(** C6. When every created or changed id is cached as a document, so that
    [flush] gets as far as the store, and the batched delete call raises
    [e], [flush] raises [e]; heap and session (cache, [_created],
    [_changed], [_deleted]) are as before the call, and the deletion batch
    is the only batch sent: the additions are not attempted. *)
Theorem failed_deletion_leaves_session_untouched w e (st' : D) :
  (∀ id, id ∈ _created (session w) ∪ _changed (session w) →
         ∃ l d, _cache (session w) !! id = Some l ∧ heap w !! l = Some (JDict d)) →
  db_update (db w) (Session.deletions (session w)) = (Exc e, st') →
  ∃ w', Session.flush w = (Exc e, w') ∧
        session w' = session w ∧ heap w' = heap w ∧
        updates_sent (trace w') =
          updates_sent (trace w) ++ [Session.deletions (session w)].
Proof.
  intros Hcached Hdb.
  destruct (updates_list_run w Hcached) as (evs & ups & Hups & Hevs).
  unfold Session.flush. mrun. rewrite Hups.
  unfold Session.db_update_call at 1. mrun. rewrite Hdb. simpl.
  eexists. split; [done|]. repeat split.
  simpl. rewrite !updates_sent_app, (reads_only_updates_sent evs Hevs).
  simpl. by rewrite app_nil_r.
Qed.

(** C8 (amended). [flush] makes no check for an id that is both in
    [_deleted] and in [_created] or [_changed]: whenever it returns, it has
    made exactly two batched calls, the first with the deletion records of
    [_deleted] and nothing else, the second with the copies of the created
    and changed documents and nothing else. *)
Theorem flush_sends_deletions_and_updates_apart w w' :
  Session.flush w = (Val tt, w') →
  ∃ ups,
    updates_sent (trace w') =
      updates_sent (trace w) ++ [Session.deletions (session w); ups] ∧
    Forall2 (λ id u, ∃ l, _cache (session w) !! id = Some l ∧
                          heap w !! l = Some (JDict u))
      (elements (_created (session w)) ++ elements (_changed (session w))) ups.
Proof.
  intros Hrun.
  apply flush_inv in Hrun
    as (evs & ups & rs0 & st1 & rs & st2 & w2 & Hevs & Hups & _ & _ & Hrec & ->).
  apply record_revs_inv in Hrec as (_ & _ & _ & _ & Htr & _ & _).
  exists ups. split; [|done]. simpl. rewrite Htr. simpl.
  rewrite !updates_sent_app, (reads_only_updates_sent evs Hevs). done.
Qed.

(** C5. After a [flush] that returns, against a store that answers a batch
    entry by entry and a cache that files every document under its own
    [_id]: [_created], [_changed] and [_deleted] are empty; every id that
    was in [_created] or [_changed] is still cached, as the same object,
    and the object's [_rev] is the revision of an entry for that id in the
    store's answer to the batched update; every id that was in [_deleted]
    and not in [_created] is out of the cache. *)
Theorem flush_reconciles w w' :
  echoes_ids D → consistent w →
  Session.flush w = (Val tt, w') →
  _created (session w') = ∅ ∧ _changed (session w') = ∅ ∧
  _deleted (session w') = ∅ ∧
  (∀ id, id ∈ _created (session w) ∪ _changed (session w) →
     ∃ l d' rs0 st1 ups rs r,
       _cache (session w) !! id = Some l ∧
       _cache (session w') !! id = Some l ∧
       heap w' !! l = Some (JDict d') ∧
       db_update (db w) (Session.deletions (session w)) = (Val rs0, st1) ∧
       db_update st1 ups = (Val rs, db w') ∧
       r ∈ rs ∧ resp_id r = id ∧
       d' !! "_rev" = Some (JStr (resp_rev r))) ∧
  (∀ id, is_Some (_deleted (session w) !! id) → id ∉ _created (session w) →
         _cache (session w') !! id = None).
Proof.
  intros Hecho Hcons Hrun.
  apply flush_inv in Hrun
    as (evs & ups & rs0 & st1 & rs & st2 & w2 & Hevs & Hups & Hdb1 & Hdb2 & Hrec & ->).
  apply record_revs_inv in Hrec as (Hcache & Hcr & Hdel & Hdb & _ & Hfound & Hheap).
  simpl in *. repeat split; try done.
  - (* created and changed documents *)
    intros id Hid.
    assert (id ∈ elements (_created (session w)) ++ elements (_changed (session w)))
      as Hin.
    { apply elem_of_app. rewrite !elem_of_elements. set_solver. }
    apply list_elem_of_lookup in Hin as [i Hi].
    destruct (Forall2_lookup_l _ _ _ _ _ Hups Hi) as (u & Hu & l & Hc & Hl).
    destruct (Hcons id l Hc) as (d & Hl' & Hk).
    rewrite Hl in Hl'. injection Hl' as ->.
    (* the store answered for this document *)
    pose proof (Hecho _ _ _ _ Hdb2) as Hanswer.
    destruct (Forall2_lookup_r _ _ _ _ _ Hanswer Hu) as (r & Hr & Hrid).
    specialize (Hrid id Hk). apply list_elem_of_lookup_2 in Hr.
    (* so the id was still cached when the answer was read *)
    destruct (Hfound r Hr) as [l0 Hl0]. rewrite Hrid in Hl0.
    rewrite evicted_lookup in Hl0.
    destruct (decide (id ∈ (map_to_list (_deleted (session w))).*1 ∧
                      id ∉ _created (session w))) as [?|Hkept]; [done|].
    rewrite Hc in Hl0. injection Hl0 as <-.
    destruct (Hheap l d Hl) as (d' & Hl2 & _ & Hrev).
    destruct Hrev as [[_ Hnone]|(r' & Hr' & Hc' & Hrev)].
    + exfalso. apply (Hnone r Hr). rewrite Hrid, evicted_lookup.
      by rewrite decide_False.
    + rewrite evicted_lookup in Hc'.
      destruct (decide (resp_id r' ∈ (map_to_list (_deleted (session w))).*1 ∧
                        resp_id r' ∉ _created (session w))); [done|].
      destruct (Hcons _ _ Hc') as (d0 & Hl0 & Hk0).
      rewrite Hl in Hl0. injection Hl0 as <-.
      rewrite Hk in Hk0. injection Hk0 as Hsame.
      exists l, d', rs0, st1, ups, rs, r'. repeat split; try done.
      * rewrite Hcache, evicted_lookup. by rewrite decide_False.
      * by rewrite Hdb.
  - (* deleted ids *)
    intros id Hdeleted Hnew. rewrite Hcache, evicted_lookup.
    rewrite decide_True; [done|]. split; [|done].
    destruct Hdeleted as [rev Hrev].
    apply list_elem_of_fmap. exists (id, rev). split; [done|].
    by apply elem_of_map_to_list.
Qed.
End FlushRun.

(** ** The tracking sets along a sequence of operations *)

Section Shrinks.
Context {D : Type}.
Implicit Types (w : world D).

Lemma shrinks_bind {A B} (m : M D A) (f : A → M D B) :
  shrinks m → (∀ a, shrinks (f a)) → shrinks (bind m f).
Proof.
  intros Hm Hf w. unfold bind. specialize (Hm w).
  destruct (m w) as [[a|e] w1]; [|done].
  specialize (Hf a w1). simpl in *. set_solver.
Qed.

Lemma shrinks_ret {A} (a : A) : shrinks (D := D) (ret a).
Proof. by intros w. Qed.

Lemma shrinks_raise {A} e : shrinks (D := D) (A := A) (raise e).
Proof. by intros w. Qed.

Lemma shrinks_gets {A} (f : world D → A) : shrinks (gets f).
Proof. by intros w. Qed.

Lemma shrinks_log e : shrinks (D := D) (log e).
Proof. by intros w. Qed.

Lemma shrinks_reading {A} (f : world D → res A) : shrinks (λ w, (f w, w)).
Proof. by intros w. Qed.

Lemma shrinks_call_builtin {A} p (f : builtin A) : shrinks (D := D) (call_builtin p f).
Proof. intros w. by rewrite call_builtin_session. Qed.

Lemma shrinks_new_object v : shrinks (D := D) (new_object v).
Proof. by intros w. Qed.

Lemma shrinks_set_cache f : shrinks (D := D) (modify (set_session (set_cache f))).
Proof. by intros w. Qed.

Lemma shrinks_set_deleted f : shrinks (D := D) (modify (set_session (set_deleted f))).
Proof. by intros w. Qed.

Lemma shrinks_discard_created id :
  shrinks (D := D) (modify (set_session (set_created (.∖ {[id]})))).
Proof. intros w. simpl. set_solver. Qed.

Lemma shrinks_discard_changed id :
  shrinks (D := D) (modify (set_session (set_changed (.∖ {[id]})))).
Proof. intros w. simpl. set_solver. Qed.

Lemma shrinks_delegate {C A} (self : wrapper C) name (f : builtin A) :
  shrinks (D := D) (delegate self name f).
Proof. intros w. by rewrite delegate_session. Qed.
End Shrinks.

Ltac shrinks_step :=
  first
    [ apply shrinks_ret | apply shrinks_raise | apply shrinks_gets
    | apply shrinks_log | apply shrinks_call_builtin | apply shrinks_new_object
    | apply shrinks_set_cache | apply shrinks_set_deleted
    | apply shrinks_discard_created | apply shrinks_discard_changed
    | apply shrinks_delegate | apply shrinks_reading
    | apply shrinks_bind; [|intros ?]
    | match goal with
      | |- shrinks (match ?x with _ => _ end) => destruct x
      | |- shrinks (if ?c then _ else _) => destruct c
      end ].
Ltac shrinks_auto := repeat shrinks_step.

Section ShrinksMethods.
Context {D : Type} `{!Database D} (uuid4_hex : nat → string).
Implicit Types (w : world D) (self doc : wrapper callable).

Lemma shrinks_dict_getitem self k : shrinks (D := D) (Dictionary.__getitem__ self k).
Proof. unfold Dictionary.__getitem__. shrinks_auto. Qed.

Lemma shrinks_as_key v : shrinks (D := D) (as_key v).
Proof. unfold as_key. shrinks_auto. Qed.

Lemma shrinks_data_of v : shrinks (D := D) (data_of v).
Proof. unfold data_of. shrinks_auto. Qed.

Lemma shrinks_cached l : shrinks (D := D) (Session._cached l).
Proof.
  unfold Session._cached. shrinks_auto;
    first [apply shrinks_dict_getitem | apply shrinks_as_key].
Qed.

Ltac shrinks_methods :=
  shrinks_auto;
  first [ apply shrinks_dict_getitem | apply shrinks_as_key
        | apply shrinks_data_of | apply shrinks_cached ].

Lemma shrinks_get id default : shrinks (Session.get id default).
Proof. unfold Session.get. shrinks_methods. Qed.

Lemma shrinks_getitem id : shrinks (Session.__getitem__ id).
Proof. unfold Session.__getitem__. shrinks_methods. Qed.

Lemma shrinks_delete doc : shrinks (D := D) (Session.delete doc).
Proof. unfold Session.delete. shrinks_methods. Qed.

Lemma shrinks_delitem id : shrinks (Session.__delitem__ id).
Proof. unfold Session.__delitem__. shrinks_methods. Qed.

Lemma shrinks_row_doc r : shrinks (D := D) (Session._get_doc r).
Proof. unfold Session._get_doc. shrinks_methods. Qed.

Lemma shrinks_dict_read self r : shrinks (D := D) (dict_read_call self r).
Proof.
  destruct r; simpl.
  - apply shrinks_dict_getitem.
  - unfold Dictionary.keys. shrinks_auto.
  - shrinks_auto. intros w. unfold Dictionary.__contains__.
    pose proof (shrinks_dict_getitem self k w) as Hs.
    by destruct (Dictionary.__getitem__ self k w) as [[|[]] ?].
Qed.

Lemma shrinks_list_read self r : shrinks (D := D) (list_read_call self r).
Proof.
  destruct r; simpl.
  - unfold List.__getitem__. shrinks_auto.
  - unfold List.__getslice__. shrinks_auto.
Qed.
End ShrinksMethods.

Section Apart.
Context {D : Type} `{!Database D}.
Implicit Types (w : world D) (l : loc) (d : gmap string json) (id : string).

Lemma void_world {A} (m : M D A) w : (void m w).2 = (m w).2.
Proof. unfold void, bind. by destruct (m w) as [[] ?]. Qed.

(** The callback adds to [_changed] the id it reads in the document, and
    nothing when it cannot read one. *)
Lemma modified_sets w l :
  _created (session (Session.modified l w).2) = _created (session w) ∧
  _changed (session (Session.modified l w).2) ⊆
    _changed (session w) ∪
    (match reported_id (Wrapper (l, []) (Modified l)) w with
     | Some a => {[a]}
     | None => ∅
     end).
Proof.
  unfold reported_id. simpl.
  destruct (heap w !! l) as [[| | | | |d]|] eqn:Hl.
  6: { destruct (d !! "_id") as [x|] eqn:Hk.
       - destruct x as [| | |a| |].
         4: { rewrite (modified_run w l d a Hl Hk). simpl. set_solver. }
         all: unfold Session.modified; mrun;
           erewrite proxy_getitem by (first [exact Hk | simpl; exact Hl]);
           simpl; set_solver.
       - unfold Session.modified. mrun.
         erewrite proxy_getitem_missing by (first [exact Hk | simpl; exact Hl]).
         simpl. set_solver. }
  all: unfold Session.modified, Dictionary.__getitem__, delegate, call_builtin; mrun;
    rewrite Hl; simpl; set_solver.
Qed.

Lemma mutation_sets self method w :
  _created (session (notify_then_delegate Session.invoke self method w).2) =
    _created (session w) ∧
  _changed (session (notify_then_delegate Session.invoke self method w).2) ⊆
    _changed (session w) ∪
    (match reported_id self w with Some a => {[a]} | None => ∅ end).
Proof.
  unfold notify_then_delegate. destruct self as [p [l]]. simpl.
  pose proof (modified_sets (set_trace (.++ [Notify]) w) l) as Hm.
  destruct (Session.modified l _) as [[[]|e] w1]; simpl in *; [|done].
  by rewrite call_builtin_session.
Qed.

Lemma flush_sets w :
  (Session.flush w).1 = Val tt →
  _created (session (Session.flush w).2) = ∅ ∧
  _changed (session (Session.flush w).2) = ∅.
Proof.
  intros Hok. destruct (Session.flush w) as [[[]|] w'] eqn:Hrun; [|done].
  by apply flush_inv in Hrun as (? & ? & ? & ? & ? & ? & ? & _ & _ & _ & _ & _ & ->).
Qed.

End Apart.

Section KeepsApart.
Context {D : Type} `{!Database D} (uuid4_hex : nat → string).
Implicit Types (w : world D) (l : loc) (d : gmap string json) (id : string).

(** [create] adds the id it files the document under, and nothing else. *)
Lemma create_sets w data :
  _created (session (Session.create uuid4_hex data w).2) ⊆
    _created (session w) ∪
    (match id_for uuid4_hex data w with Some id => {[id]} | None => ∅ end) ∧
  _changed (session (Session.create uuid4_hex data w).2) = _changed (session w).
Proof.
  unfold id_for. destruct (data !! "_id") as [x|] eqn:Hk.
  - destruct x as [| | |id| |].
    4: { rewrite (create_run uuid4_hex w data id Hk). simpl. set_solver. }
    all: unfold Session.create; mrun;
      rewrite (call_builtin_read _ _ _ (JDict data) true);
        [|simpl; apply lookup_insert_eq|simpl; by rewrite Hk, bool_decide_eq_true_2];
      simpl;
      erewrite (call_builtin_read _ _ _ (JDict data));
        [|simpl; apply lookup_insert_eq|simpl; by rewrite Hk];
      simpl; set_solver.
  - unfold Session.create, Session.uuid4. mrun.
    set (l := fresh (dom (heap w))). set (u := uuid4_hex (rng w)).
    rewrite (call_builtin_read _ l _ (JDict data) false);
      [|simpl; apply lookup_insert_eq
       |simpl; rewrite Hk, bool_decide_eq_false_2; [done|by intros [? ?]]].
    simpl.
    rewrite (call_builtin_write _ l _ (JDict data) tt (JDict (<["_id" := JStr u]> data)));
      [|simpl; apply lookup_insert_eq|done].
    simpl.
    rewrite (call_builtin_read _ l _ (JDict (<["_id" := JStr u]> data)) (JStr u));
      [|simpl; apply lookup_insert_eq|simpl; by rewrite lookup_insert_eq].
    simpl.
    rewrite (cached_run _ l (<["_id" := JStr u]> data) u);
      [|simpl; apply lookup_insert_eq|apply lookup_insert_eq].
    simpl.
    rewrite (proxy_getitem _ l (<["_id" := JStr u]> data) "_id" (JStr u));
      [|simpl; apply lookup_insert_eq|apply lookup_insert_eq].
    simpl. set_solver.
Qed.

(** One operation that keeps the sets apart leaves them disjoint. *)
Lemma exec_keeps_apart o w :
  keeps_apart uuid4_hex o w →
  _created (session w) ## _changed (session w) →
  _created (session (exec uuid4_hex o w).2) ##
    _changed (session (exec uuid4_hex o w).2).
Proof.
  intros Hkeep Hdisj.
  assert (∀ A (m : M D A), shrinks m →
            _created (session (m w).2) ## _changed (session (m w).2)) as Hshrinks.
  { intros A m Hm. destruct (Hm w). set_solver. }
  destruct o; simpl in *; rewrite ?void_world.
  - apply Hshrinks, shrinks_get.
  - apply Hshrinks, shrinks_getitem.
  - rewrite setitem_run.
    destruct (decide (is_Some (content !! "_rev"))) as [|Hrev]; [done|].
    destruct (create_sets w (<["_id" := JStr id]> content)) as [Hc Hch].
    unfold id_for in Hc. rewrite lookup_insert_eq in Hc.
    assert (id ∉ _changed (session w)) as Hid.
    { apply Hkeep. by destruct (content !! "_rev"); [destruct Hrev|]. }
    destruct (Session.create _ _ _) as [[] ?]; simpl in *; set_solver.
  - apply Hshrinks, shrinks_delitem.
  - destruct (create_sets w data) as [Hc Hch].
    destruct (id_for uuid4_hex data w) as [id|]; [|set_solver].
    specialize (Hkeep id eq_refl). set_solver.
  - apply Hshrinks, shrinks_delete.
  - destruct (flush_sets w Hkeep) as [-> ->]. set_solver.
  - apply Hshrinks, shrinks_row_doc.
  - rewrite dict_mutate_run.
    destruct (mutation_sets self (dict_method m) w) as [Hc Hch].
    destruct (reported_id self w) as [id|]; [|set_solver].
    specialize (Hkeep id eq_refl). set_solver.
  - rewrite list_mutate_run.
    destruct (mutation_sets self (list_method m) w) as [Hc Hch].
    destruct (reported_id self w) as [id|]; [|set_solver].
    specialize (Hkeep id eq_refl). set_solver.
  - apply Hshrinks, shrinks_dict_read.
  - apply Hshrinks, shrinks_list_read.
Qed.
End KeepsApart.

Section Sequences.
Context {D : Type} `{!Database D} (uuid4_hex : nat → string).
Implicit Types (w : world D) (l : loc) (d : gmap string json) (id : string).

Lemma run_keeps_apart ops w :
  _created (session w) ## _changed (session w) →
  all_keep_apart uuid4_hex ops w →
  _created (session (run uuid4_hex ops w)) ##
    _changed (session (run uuid4_hex ops w)).
Proof.
  revert w. induction ops as [|o ops IH]; intros w Hdisj Hkeep; [done|].
  destruct Hkeep as [Ho Hrest]. simpl. apply IH; [|done].
  by apply exec_keeps_apart.
Qed.

(** C2 (amended). Along every sequence of operations in which no document
    is mutated while its id is in [_created], no id in [_changed] is
    created again and every [flush] returns, [_created] and [_changed]
    stay disjoint.  The callback itself looks at neither set: it adds the
    id the document carries to [_changed] and touches nothing else, so it
    leaves a session whose [_changed] already holds the id as it is. *)
Theorem created_and_changed_stay_apart :
  (∀ ops w,
     _created (session w) ## _changed (session w) →
     all_keep_apart uuid4_hex ops w →
     _created (session (run uuid4_hex ops w)) ##
       _changed (session (run uuid4_hex ops w))) ∧
  (∀ w l d id,
     heap w !! l = Some (JDict d) → d !! "_id" = Some (JStr id) →
     session (Session.modified l w).2 = set_changed ({[id]} ∪.) (session w) ∧
     (id ∈ _changed (session w) →
      session (Session.modified l w).2 = session w)).
Proof.
  split; [apply run_keeps_apart|].
  intros w l d id Hl Hk. rewrite (modified_run w l d id Hl Hk). simpl.
  split; [done|]. intros Hin. unfold set_changed.
  replace ({[id]} ∪ _changed (session w)) with (_changed (session w)) by set_solver.
  apply session_eta.
Qed.
End Sequences.


(** C2 (counterexample).  After [create({"_id": "foo"})] and an item
    assignment on the document [get("foo")] returns (object 0), ["foo"] is
    in [_created] and in [_changed]. *)
Lemma created_document_mutated_is_in_both :
  (Session.get "foo" Scenario.None_ Scenario.created).1 =
    Val (DictionaryProxy (proxy 0%nat)) ∧
  "foo" ∈ _created (session Scenario.created_then_mutated) ∧
  "foo" ∈ _changed (session Scenario.created_then_mutated).
Proof. repeat split; closed_fact. Qed.

Lemma created_and_changed_stay_apart_witness :
  _created (session (run MemStore.uuid4_hex Scenario.editing Scenario.start)) ##
    _changed (session (run MemStore.uuid4_hex Scenario.editing Scenario.start)).
Proof.
  apply (proj1 (created_and_changed_stay_apart MemStore.uuid4_hex)).
  - closed_fact.
  - split; [exact I|]. split; [|split; [|exact I]].
    + intros id Hid. vm_compute in Hid. injection Hid as <-. closed_fact.
    + intros id Hid. vm_compute in Hid. injection Hid as <-. closed_fact.
Defined.


(** C8 (counterexample).  With ["X"] in [_deleted] and in [_created],
    [flush] returns normally, having sent the delete record for ["X"] in
    one batch and the new document ["X"] in the next. *)
Lemma flush_sends_both_for_a_recreated_id :
  is_Some (_deleted (session Scenario.recreated) !! "X") ∧
  "X" ∈ _created (session Scenario.recreated) ∧
  (Session.flush Scenario.recreated).1 = Val tt ∧
  updates_sent (trace Scenario.flushed) =
    [[Session.deletion ("X", JStr "1-a")]; [Scenario.replacement]].
Proof. repeat split; closed_fact. Qed.

Lemma recreated_flushes : Session.flush Scenario.recreated = (Val tt, Scenario.flushed).
Proof.
  unfold Scenario.flushed.
  assert ((Session.flush Scenario.recreated).1 = Val tt) as Hok by closed_fact.
  destruct (Session.flush Scenario.recreated) as [r w']. simpl in Hok. by rewrite Hok.
Qed.

Lemma recreated_consistent : consistent Scenario.recreated.
Proof.
  intros id l Hc.
  assert (_cache (session Scenario.recreated) = {["X" := 1%nat]}) as Hcache
    by closed_fact.
  rewrite Hcache in Hc. apply lookup_singleton_Some in Hc as [<- <-].
  exists Scenario.replacement. split; closed_fact.
Qed.

Lemma flush_sends_deletions_and_updates_apart_witness :
  ∃ ups,
    updates_sent (trace Scenario.flushed) =
      updates_sent (trace Scenario.recreated) ++
        [Session.deletions (session Scenario.recreated); ups] ∧
    Forall2 (λ id u, ∃ l, _cache (session Scenario.recreated) !! id = Some l ∧
                          heap Scenario.recreated !! l = Some (JDict u))
      (elements (_created (session Scenario.recreated)) ++
       elements (_changed (session Scenario.recreated))) ups.
Proof.
  apply (flush_sends_deletions_and_updates_apart Scenario.recreated Scenario.flushed).
  apply recreated_flushes.
Defined.

Lemma flush_reconciles_witness :
  _created (session Scenario.flushed) = ∅ ∧
  _changed (session Scenario.flushed) = ∅ ∧
  _deleted (session Scenario.flushed) = ∅ ∧
  (∀ id, id ∈ _created (session Scenario.recreated) ∪
              _changed (session Scenario.recreated) →
     ∃ l d' rs0 st1 ups rs r,
       _cache (session Scenario.recreated) !! id = Some l ∧
       _cache (session Scenario.flushed) !! id = Some l ∧
       heap Scenario.flushed !! l = Some (JDict d') ∧
       db_update (db Scenario.recreated)
         (Session.deletions (session Scenario.recreated)) = (Val rs0, st1) ∧
       db_update st1 ups = (Val rs, db Scenario.flushed) ∧
       r ∈ rs ∧ resp_id r = id ∧
       d' !! "_rev" = Some (JStr (resp_rev r))) ∧
  (∀ id, is_Some (_deleted (session Scenario.recreated) !! id) →
         id ∉ _created (session Scenario.recreated) →
         _cache (session Scenario.flushed) !! id = None).
Proof.
  apply (flush_reconciles Scenario.recreated Scenario.flushed).
  - apply memstore_echoes_ids.
  - apply recreated_consistent.
  - apply recreated_flushes.
Defined.

Lemma failed_deletion_leaves_session_untouched_witness :
  ∃ w', Session.flush Scenario.offline = (Exc (StoreError 503), w') ∧
        session w' = session Scenario.offline ∧
        heap w' = heap Scenario.offline ∧
        updates_sent (trace w') =
          updates_sent (trace Scenario.offline) ++
            [Session.deletions (session Scenario.offline)].
Proof.
  apply (failed_deletion_leaves_session_untouched Scenario.offline (StoreError 503) tt).
  - intros id Hid.
    assert (_created (session Scenario.offline) ∪ _changed (session Scenario.offline)
            = {["foo"]}) as Hsets by closed_fact.
    rewrite Hsets in Hid. apply elem_of_singleton in Hid as ->.
    exists 0%nat, {["_id" := JStr "foo"]}. split; closed_fact.
  - closed_fact.
Defined.

(** C4 (the code at the failing input).  With the persisted document ["X"]
    fetched and deleted, [get("X", "missing")] returns [None], not the
    default it was given; [session["X"]] raises [ResourceNotFound], and the
    document is still in the cache. *)
Theorem get_ignores_default_for_a_deleted_document :
  (Session.get "X" (Raw (JStr "missing")) Scenario.deleted).1 = Val (Raw JNull) ∧
  (Session.__getitem__ "X" Scenario.deleted).1 = Exc ResourceNotFound ∧
  _cache (session Scenario.deleted) !! "X" = Some 0%nat ∧
  (Session.get "absent" (Raw (JStr "missing")) Scenario.deleted).1 =
    Val (Raw (JStr "missing")).
Proof. repeat split; closed_fact. Qed.

Lemma deleted_document_reads_as_None_witness :
  ∃ w1, Session.delete (proxy 0%nat) Scenario.fetched = (Val tt, w1) ∧
        (Session.get "X" (Raw (JStr "missing")) w1).1 = Val (Raw JNull) ∧
        (Session.__getitem__ "X" w1).1 = Exc ResourceNotFound ∧
        _cache (session w1) !! "X" = Some 0%nat.
Proof.
  apply (deleted_document_reads_as_None Scenario.fetched "X" 0%nat
           (<["_id" := JStr "X"]> Scenario.persisted) (JStr "1-a")).
  - repeat split; closed_fact.
  - closed_fact.
  - closed_fact.
Defined.

(** * Further properties *)

(** ** Paths *)

Lemma at_path_resolve {A} (p : list key) (f : builtin A) (v : json) :
  at_path p f v =
    match resolve p v with
    | Some x => match f x with
                | Val (a, x') => Val (a, put p x' v)
                | Exc e => Exc e
                end
    | None => Exc Detached
    end.
Proof.
  revert v. induction p as [|[s|i] p IH]; intros v; simpl.
  - by destruct (f v) as [[]|].
  - destruct v; try done. destruct (d !! s) as [c|]; simpl; [|done].
    rewrite IH. destruct (resolve p c); [|done]. by destruct (f j) as [[]|].
  - destruct v; try done. destruct (xs !! i) as [c|]; simpl; [|done].
    rewrite IH. destruct (resolve p c); [|done]. by destruct (f j) as [[]|].
Qed.

Lemma put_same p v x : resolve p v = Some x → put p x v = v.
Proof.
  revert v. induction p as [|[s|i] p IH]; intros v; simpl.
  - by intros [= ->].
  - destruct v; try done. destruct (d !! s) as [c|] eqn:Hc; simpl; [|done].
    intros Hx. rewrite (IH c Hx). by rewrite insert_id.
  - destruct v; try done. destruct (xs !! i) as [c|] eqn:Hc; simpl; [|done].
    intros Hx. rewrite (IH c Hx). by rewrite list_insert_id.
Qed.

Lemma resolve_put p v x x' : resolve p v = Some x → resolve p (put p x' v) = Some x'.
Proof.
  revert v. induction p as [|[s|i] p IH]; intros v; simpl.
  - done.
  - destruct v; try done. destruct (d !! s) as [c|] eqn:Hc; simpl; [|done].
    intros Hx. rewrite lookup_insert_eq. simpl. by apply (IH c).
  - destruct v; try done. destruct (xs !! i) as [c|] eqn:Hc; simpl; [|done].
    intros Hx. rewrite list_lookup_insert_eq by (by eapply lookup_lt_Some).
    simpl. by apply (IH c).
Qed.

(** A call on a subject: the built-in applied to what the reference leads
    to, the result written back in place. *)
Lemma call_builtin_at {D A} (w : world D) (p : place) (f : builtin A) :
  call_builtin p f w =
    match subject_value w p with
    | Some x => match f x with
                | Val (a, x') => (Val a, write_subject p x' w)
                | Exc e => (Exc e, w)
                end
    | None => (Exc Detached, w)
    end.
Proof.
  unfold call_builtin, subject_value, write_subject, set_heap.
  destruct (heap w !! p.1) as [v|] eqn:Hv; simpl; [|done].
  rewrite at_path_resolve. destruct (resolve p.2 v); [|done].
  by destruct (f j) as [[a x']|].
Qed.

Lemma write_subject_same {D} (w : world D) p x :
  subject_value w p = Some x → write_subject p x w = w.
Proof.
  unfold subject_value, write_subject, set_heap.
  destruct (heap w !! p.1) as [v|] eqn:Hv; simpl; [|done].
  intros Hx. rewrite (put_same _ _ _ Hx), insert_id by done. apply world_eta.
Qed.

Lemma subject_value_written {D} (w : world D) p x x' :
  subject_value w p = Some x → subject_value (write_subject p x' w) p = Some x'.
Proof.
  unfold subject_value, write_subject, set_heap.
  destruct (heap w !! p.1) as [v|] eqn:Hv; simpl; [|done].
  intros Hx. rewrite lookup_insert_eq. simpl. by eapply resolve_put.
Qed.

(** ** Frames *)

Section Stable.
Context {D : Type} (R : relation (world D)) `{!PreOrder R}.

Lemma stable_bind {A B} (m : M D A) (f : A → M D B) :
  stable R m → (∀ a, stable R (f a)) → stable R (bind m f).
Proof using Type*.
  intros Hm Hf w. unfold bind. specialize (Hm w).
  destruct (m w) as [[a|e] w1]; [|done].
  specialize (Hf a w1). simpl in *. by etrans.
Qed.

Lemma stable_ret {A} (a : A) : stable R (ret a).
Proof using Type*. by intros w. Qed.

Lemma stable_raise {A} e : stable R (A := A) (raise e).
Proof using Type*. by intros w. Qed.

Lemma stable_gets {A} (f : world D → A) : stable R (gets f).
Proof using Type*. by intros w. Qed.

Lemma stable_reading {A} (f : world D → res A) : stable R (λ w, (f w, w)).
Proof using Type*. by intros w. Qed.

Lemma stable_for_each {A} (xs : list A) (body : A → M D unit) :
  (∀ x, stable R (body x)) → stable R (for_each xs body).
Proof using Type*.
  intros Hbody. induction xs as [|x xs IH]; simpl.
  - apply stable_ret.
  - apply stable_bind; [apply Hbody|by intros _].
Qed.

Lemma stable_collect {A B} (xs : list A) (f : A → M D B) :
  (∀ x, stable R (f x)) → stable R (collect xs f).
Proof using Type*.
  intros Hf. induction xs as [|x xs IH]; simpl.
  - apply stable_ret.
  - apply stable_bind; [apply Hf|intros y].
    apply stable_bind; [apply IH|intros ys]. apply stable_ret.
Qed.

Lemma stable_void {A} (m : M D A) : stable R m → stable R (void m).
Proof using Type*. intros Hm. apply stable_bind; [done|intros ?; apply stable_ret]. Qed.
End Stable.

#[global] Instance store_untouched_preorder {D} : PreOrder (store_untouched (D := D)).
Proof.
  split.
  - by intros w.
  - intros w1 w2 w3 [? ?] [? ?]. split; congruence.
Qed.

#[global] Instance nothing_written_preorder {D} : PreOrder (nothing_written (D := D)).
Proof.
  split.
  - by intros w.
  - intros w1 w2 w3 [? ?] [? ?]. split; congruence.
Qed.

Lemma updates_sent_store_calls tr : updates_sent (store_calls tr) = updates_sent tr.
Proof.
  induction tr as [|e tr IH]; [done|]. destruct e; simpl; try done. by f_equal.
Qed.

Lemma store_untouched_nothing_written {D} (w w' : world D) :
  store_untouched w w' → nothing_written w w'.
Proof.
  intros [Hdb Htr]. split; [done|].
  by rewrite <- (updates_sent_store_calls (trace w')), Htr, updates_sent_store_calls.
Qed.

Lemma stable_local_written {D A} (m : M D A) :
  stable store_untouched m → stable nothing_written m.
Proof. intros Hm w. apply store_untouched_nothing_written, Hm. Qed.

Section Local.
Context {D : Type}.
Implicit Types (w : world D).

Lemma local_log_notify : stable (D := D) store_untouched (log Notify).
Proof. intros w. split; [done|]. simpl. by rewrite store_calls_app, app_nil_r. Qed.

Lemma local_log_delegate p name : stable (D := D) store_untouched (log (Delegate p name)).
Proof. intros w. split; [done|]. simpl. by rewrite store_calls_app, app_nil_r. Qed.

Lemma local_call_builtin {A} p (f : builtin A) :
  stable (D := D) store_untouched (call_builtin p f).
Proof.
  intros w. rewrite call_builtin_at.
  destruct (subject_value w p); [|done]. by destruct (f j) as [[]|].
Qed.

Lemma local_new_object v : stable (D := D) store_untouched (new_object v).
Proof. by intros w. Qed.

Lemma local_set_session f : stable (D := D) store_untouched (modify (set_session f)).
Proof. by intros w. Qed.
End Local.

Create HintDb local discriminated.
#[global] Hint Resolve local_log_notify local_log_delegate local_call_builtin
  local_new_object local_set_session : local.

(** Proves [stable R m] along the structure of [m], closing the leaves
    with the hints of [db]. *)
Tactic Notation "stable_with" ident(db) :=
  repeat match goal with
  | |- stable ?R _ =>
      first
        [ apply (stable_ret R) | apply (stable_raise R) | apply (stable_gets R)
        | apply (stable_reading R) | apply (stable_void R)
        | solve [eauto 3 with db]
        | apply (stable_for_each R); intros ?
        | apply (stable_collect R); intros ?
        | apply (stable_bind R); [|intros ?]
        | match goal with
          | |- stable _ (match ?x with _ => _ end) => destruct x
          | |- stable _ (if ?c then _ else _) => destruct c
          end ]
  end.

Section LocalMethods.
Context {D : Type} `{!Database D} (uuid4_hex : nat → string).
Implicit Types (w : world D) (self doc : wrapper callable).

Lemma local_delegate {C A} (self : wrapper C) name (f : builtin A) :
  stable (D := D) store_untouched (delegate self name f).
Proof. unfold delegate. stable_with local. Qed.

Lemma local_dict_getitem {C} (self : wrapper C) k :
  stable (D := D) store_untouched (Dictionary.__getitem__ self k).
Proof. unfold Dictionary.__getitem__, delegate. stable_with local. Qed.

Lemma local_dict_contains {C} (self : wrapper C) k :
  stable (D := D) store_untouched (Dictionary.__contains__ self k).
Proof.
  intros w. unfold Dictionary.__contains__.
  pose proof (local_dict_getitem self k w) as Hs.
  by destruct (Dictionary.__getitem__ self k w) as [[|[]] ?].
Qed.

Lemma local_as_key v : stable (D := D) store_untouched (as_key v).
Proof. unfold as_key. stable_with local. Qed.

Lemma local_data_of v : stable (D := D) store_untouched (data_of v).
Proof. unfold data_of. stable_with local. Qed.

Lemma local_invoke f : stable (D := D) store_untouched (Session.invoke f).
Proof.
  destruct f as [l]. unfold Session.invoke, Session.modified, Dictionary.__getitem__,
    delegate, as_key.
  stable_with local.
Qed.

Lemma local_notify_then_delegate self method :
  stable (D := D) store_untouched (notify_then_delegate Session.invoke self method).
Proof.
  intros w. unfold notify_then_delegate.
  pose proof (local_invoke (__modified self) (set_trace (.++ [Notify]) w)) as Hi.
  destruct (Session.invoke _ _) as [[[]|e] w1]; simpl in *.
  - etrans; [apply (local_log_notify w)|]. etrans; [apply Hi|].
    etrans; [apply (local_log_delegate (__subject__ self) method.1 w1)|].
    apply local_call_builtin.
  - etrans; [apply (local_log_notify w)|]. apply Hi.
Qed.

Lemma local_uuid4 : stable (D := D) store_untouched (Session.uuid4 uuid4_hex).
Proof. by intros w. Qed.

Ltac local_auto :=
  stable_with local;
  try first [ apply local_delegate | apply local_dict_getitem
            | apply local_dict_contains | apply local_as_key
            | apply local_data_of | apply local_invoke | apply local_uuid4 ].

Lemma local_cached l : stable (D := D) store_untouched (Session._cached l).
Proof. unfold Session._cached. local_auto. Qed.

Lemma local_create data :
  stable (D := D) store_untouched (Session.create uuid4_hex data).
Proof. unfold Session.create. local_auto. Qed.

Lemma local_delete doc : stable (D := D) store_untouched (Session.delete doc).
Proof. unfold Session.delete. local_auto. Qed.

Lemma local_setitem id content :
  stable (D := D) store_untouched (Session.__setitem__ uuid4_hex id content).
Proof. unfold Session.__setitem__. local_auto. Qed.

Lemma local_row_doc r : stable (D := D) store_untouched (Session._get_doc r).
Proof. unfold Session._get_doc. local_auto. Qed.

Lemma local_dict_mutate self m :
  stable (D := D) store_untouched (dict_mutate Session.invoke self m).
Proof. intros w. rewrite dict_mutate_run. apply local_notify_then_delegate. Qed.

Lemma local_list_mutate self m :
  stable (D := D) store_untouched (list_mutate Session.invoke self m).
Proof. intros w. rewrite list_mutate_run. apply local_notify_then_delegate. Qed.

Lemma local_dict_read self r : stable (D := D) store_untouched (dict_read_call self r).
Proof. destruct r; simpl; unfold Dictionary.keys; local_auto. Qed.

Lemma local_list_read self r : stable (D := D) store_untouched (list_read_call self r).
Proof.
  destruct r; simpl; unfold List.__getitem__, List.__getslice__; local_auto.
Qed.

Lemma exec_local o :
  stays_local o = true → stable (D := D) store_untouched (exec uuid4_hex o).
Proof.
  destruct o; simpl; try done; intros _; try apply (stable_void _).
  - apply local_setitem.
  - apply local_create.
  - apply local_delete.
  - apply local_row_doc.
  - apply local_dict_mutate.
  - apply local_list_mutate.
  - apply local_dict_read.
  - apply local_list_read.
Qed.

(** A lookup calls the store once when the id is not cached, and not at
    all when it is. *)
Lemma get_store_calls w id default :
  db (Session.get id default w).2 = db w ∧
  store_calls (trace (Session.get id default w).2) =
    store_calls (trace w) ++
    match _cache (session w) !! id with Some _ => [] | None => [DbGet id] end.
Proof.
  assert (∀ A (m : M D A) w0, stable store_untouched m →
            db (m w0).2 = db w0 ∧
            store_calls (trace (m w0).2) = store_calls (trace w0)) as Hlocal.
  { intros A m w0 Hm. apply Hm. }
  destruct (Session.get id default w) as [r w1] eqn:Hrun. simpl.
  revert Hrun. unfold Session.get. rewrite run_bind. unfold gets at 1.
  cbv beta iota.
  destruct (_cache (session w) !! id) as [l|]; cbv beta iota zeta.
  - intros Hrun. rewrite app_nil_r.
    match type of Hrun with ?m ?w0 = _ =>
      pose proof (Hlocal _ m w0) as Hm; rewrite Hrun in Hm end.
    simpl in Hm. apply Hm. local_auto.
  - rewrite run_bind. unfold log at 1, modify at 1. cbv beta iota.
    rewrite run_bind. cbv beta iota.
    destruct (db_get (db (set_trace (.++ [DbGet id]) w)) id) as [[doc|]|e].
    + intros Hrun.
      match type of Hrun with ?m ?w0 = _ =>
        pose proof (Hlocal _ m w0) as Hm; rewrite Hrun in Hm end.
      simpl in Hm. destruct Hm as [-> ->]; [local_auto|].
      simpl. by rewrite store_calls_app.
    + intros [= <- <-]. simpl. by rewrite store_calls_app.
    + intros [= <- <-]. simpl. by rewrite store_calls_app.
Qed.

Lemma written_get id default : stable (D := D) nothing_written (Session.get id default).
Proof.
  intros w. destruct (get_store_calls w id default) as [Hdb Htr]. split; [done|].
  rewrite <- (updates_sent_store_calls (trace _)), Htr, updates_sent_app.
  rewrite updates_sent_store_calls.
  destruct (_cache (session w) !! id); simpl; by rewrite app_nil_r.
Qed.

Lemma written_getitem id : stable (D := D) nothing_written (Session.__getitem__ id).
Proof.
  unfold Session.__getitem__. apply (stable_bind _); [apply written_get|intros v].
  destruct (is_None v); [apply (stable_raise _)|apply (stable_ret _)].
Qed.

Lemma written_delitem id : stable (D := D) nothing_written (Session.__delitem__ id).
Proof.
  unfold Session.__delitem__. apply (stable_bind _); [apply written_getitem|intros v].
  destruct v; try apply (stable_raise _). apply stable_local_written, local_delete.
Qed.

Lemma exec_written o :
  is_flush o = false → stable (D := D) nothing_written (exec uuid4_hex o).
Proof.
  intros Ho. destruct (stays_local o) eqn:Hlocal.
  - by apply stable_local_written, exec_local.
  - destruct o; try done; simpl.
    + apply (stable_void _), written_get.
    + apply (stable_void _), written_getitem.
    + apply written_delitem.
Qed.

Lemma run_written ops w :
  forallb (λ o, negb (is_flush o)) ops = true →
  nothing_written w (run uuid4_hex ops w).
Proof.
  revert w. induction ops as [|o ops IH]; intros w; simpl; [done|].
  intros [Ho Hops]%andb_true_iff. etrans; [|by apply IH].
  apply exec_written. by destruct (is_flush o).
Qed.

(** X3. Only [flush] writes to the store.  [create], [delete], indexed
    assignment, a row's document and every call on a proxy make no store
    call at all; a lookup makes one read when the id is not cached and
    none when it is; and along any sequence of operations without a
    [flush] the store stays as it was and no batch is sent. *)
Theorem only_flush_writes_to_the_store :
  (∀ o w, stays_local o = true →
     db (exec uuid4_hex o w).2 = db w ∧
     store_calls (trace (exec uuid4_hex o w).2) = store_calls (trace w)) ∧
  (∀ id default w,
     db (Session.get id default w).2 = db w ∧
     store_calls (trace (Session.get id default w).2) =
       store_calls (trace w) ++
       match _cache (session w) !! id with Some _ => [] | None => [DbGet id] end) ∧
  (∀ ops w, forallb (λ o, negb (is_flush o)) ops = true →
     db (run uuid4_hex ops w) = db w ∧
     updates_sent (trace (run uuid4_hex ops w)) = updates_sent (trace w)).
Proof.
  split; [|split].
  - intros o w Ho. by apply exec_local.
  - intros id default w. apply get_store_calls.
  - intros ops w Hops. by apply run_written.
Qed.
End LocalMethods.

Lemma only_flush_writes_to_the_store_witness :
  db (run MemStore.uuid4_hex Scenario.editing Scenario.start) = db Scenario.start ∧
  updates_sent (trace (run MemStore.uuid4_hex Scenario.editing Scenario.start)) =
    updates_sent (trace Scenario.start).
Proof.
  apply (proj2 (proj2 (only_flush_writes_to_the_store MemStore.uuid4_hex))).
  reflexivity.
Defined.

(** ** Creating, deleting and looking up *)

Section Lifecycle.
Context {D : Type} `{!Database D} (uuid4_hex : nat → string).
Implicit Types (w : world D) (l : loc) (d : gmap string json) (id : string).

(** [create] of data without an id: the next identifier is drawn and
    written into the copy. *)
Lemma create_run_fresh w data :
  data !! "_id" = None →
  Session.create uuid4_hex data w =
    (Val (Raw (JStr (uuid4_hex (rng w)))),
     World (<[fresh (dom (heap w)) :=
                JDict (<["_id" := JStr (uuid4_hex (rng w))]> data)]> (heap w))
           (set_cache <[uuid4_hex (rng w) := fresh (dom (heap w))]>
              (set_created ({[uuid4_hex (rng w)]} ∪.) (session w)))
           (db w)
           (trace w ++ [Delegate (fresh (dom (heap w)), []) "__getitem__";
                        Delegate (fresh (dom (heap w)), []) "__getitem__"])
           (S (rng w))).
Proof.
  intros Hk. unfold Session.create, Session.uuid4. mrun.
  set (l := fresh (dom (heap w))). set (u := uuid4_hex (rng w)).
  rewrite (call_builtin_read _ l _ (JDict data) false);
    [|simpl; apply lookup_insert_eq
     |simpl; rewrite Hk, bool_decide_eq_false_2; [done|by intros [? ?]]].
  simpl.
  rewrite (call_builtin_write _ l _ (JDict data) tt (JDict (<["_id" := JStr u]> data)));
    [|simpl; apply lookup_insert_eq|done].
  simpl.
  rewrite (call_builtin_read _ l _ (JDict (<["_id" := JStr u]> data)) (JStr u));
    [|simpl; apply lookup_insert_eq|simpl; by rewrite lookup_insert_eq].
  simpl.
  rewrite (cached_run _ l (<["_id" := JStr u]> data) u);
    [|simpl; apply lookup_insert_eq|apply lookup_insert_eq].
  simpl.
  rewrite (proxy_getitem _ l (<["_id" := JStr u]> data) "_id" (JStr u));
    [|simpl; apply lookup_insert_eq|apply lookup_insert_eq].
  simpl. unfold set_trace, set_session, set_cache, set_created. simpl.
  rewrite insert_insert_eq, <- app_assoc. done.
Qed.

(** X4. [create] files a copy of the data as a new object under the id
    the data carries, or under the next generated identifier when it
    carries none (the copy then holds that identifier as its [_id]); it
    returns the id, adds it to [_created], leaves the other sets and the
    store alone, and a lookup of the id then returns the new object with no
    store call. *)
Theorem create_files_a_new_document w data id :
  id_for uuid4_hex data w = Some id →
  ∃ l w1,
    Session.create uuid4_hex data w = (Val (Raw (JStr id)), w1) ∧
    heap w !! l = None ∧
    heap w1 = <[l := JDict (<["_id" := JStr id]> data)]> (heap w) ∧
    session w1 = set_cache <[id := l]> (set_created ({[id]} ∪.) (session w)) ∧
    db w1 = db w ∧ store_calls (trace w1) = store_calls (trace w) ∧
    rng w1 = (if decide (is_Some (data !! "_id")) then rng w else S (rng w)) ∧
    ∀ default, ∃ evs,
      Session.get id default w1 =
        (Val (DictionaryProxy (proxy l)), set_trace (.++ evs) w1) ∧
      store_calls evs = [].
Proof.
  unfold id_for. intros Hid.
  assert (∀ w1 l d,
            _cache (session w1) !! id = Some l → heap w1 !! l = Some (JDict d) →
            d !! "_id" = Some (JStr id) → id ∈ _created (session w1) →
            ∀ default, ∃ evs,
              Session.get id default w1 =
                (Val (DictionaryProxy (proxy l)), set_trace (.++ evs) w1) ∧
              store_calls evs = []) as Hget.
  { intros w1 l d Hc Hl Hk Hin default.
    destruct (get_hit_live w1 id l d id default Hc Hl Hk) as (evs & ? & ? & _).
    - by intros [_ ?].
    - by exists evs. }
  destruct (data !! "_id") as [x|] eqn:Hk.
  - destruct x as [| | |id'| |]; try done. injection Hid as ->.
    exists (fresh (dom (heap w))). eexists.
    split; [by apply create_run|]. simpl.
    rewrite (insert_id data "_id" (JStr id)) by done.
    rewrite store_calls_app, app_nil_r.
    repeat split; try done; [apply fresh_unused|].
    apply (Hget _ _ data); simpl; rewrite ?lookup_insert_eq; try done. set_solver.
  - injection Hid as <-.
    exists (fresh (dom (heap w))). eexists.
    split; [by apply create_run_fresh|]. simpl.
    rewrite store_calls_app, app_nil_r.
    repeat split; try done; [apply fresh_unused|].
    apply (Hget _ _ (<["_id" := JStr (uuid4_hex (rng w))]> data)); simpl;
      rewrite ?lookup_insert_eq; try done. set_solver.
Qed.

(** X5. Indexed assignment of a payload without [_rev] files a copy under
    the index, whatever [_id] the payload carries. *)
Theorem setitem_files_under_the_index w id content :
  content !! "_rev" = None →
  ∃ l w1,
    Session.__setitem__ uuid4_hex id content w = (Val (Raw JNull), w1) ∧
    heap w !! l = None ∧
    heap w1 = <[l := JDict (<["_id" := JStr id]> content)]> (heap w) ∧
    session w1 = set_cache <[id := l]> (set_created ({[id]} ∪.) (session w)) ∧
    db w1 = db w ∧ store_calls (trace w1) = store_calls (trace w).
Proof.
  intros Hrev. rewrite setitem_run.
  rewrite decide_False by (rewrite Hrev; by intros [? ?]).
  rewrite (create_run uuid4_hex w _ id) by apply lookup_insert_eq.
  exists (fresh (dom (heap w))). eexists. split; [done|]. simpl.
  rewrite store_calls_app, app_nil_r. repeat split; try done. apply fresh_unused.
Qed.

End Lifecycle.

Section Deleting.
Context {D : Type} `{!Database D}.
Implicit Types (w : world D) (l : loc) (d : gmap string json) (id : string).

(** Deleting a document that carries no revision and is not in
    [_created]: the id has left [_changed] when [doc['_rev']] raises. *)
Lemma delete_unrevisioned_run w l d id :
  heap w !! l = Some (JDict d) → d !! "_id" = Some (JStr id) →
  d !! "_rev" = None → id ∉ _created (session w) →
  Session.delete (proxy l) w =
    (Exc KeyError,
     World (heap w) (set_changed (.∖ {[id]}) (session w)) (db w)
           (trace w ++ replicate 3 (Delegate (l, []) "__getitem__"))
           (rng w)).
Proof.
  intros Hl Hk Hr Hn. unfold Session.delete. mrun.
  rewrite (proxy_getitem _ l d "_id" (JStr id)) by done. simpl.
  destruct (decide (id ∈ _created (session w))); [done|].
  rewrite (proxy_getitem _ l d "_id" (JStr id)) by done. simpl.
  rewrite (proxy_getitem_missing _ l d "_rev") by done. simpl.
  same_world.
Qed.

(** X6. Deleting a document that was created and not yet flushed forgets
    it: the id leaves [_created] and the cache, nothing enters [_deleted],
    and neither the document nor the store is touched.  Deleting the same
    document once more raises [KeyError] (it carries no [_rev]) and still
    records nothing in [_deleted]. *)
Theorem delete_forgets_a_created_document w id l d :
  cached_as w id l d → id ∈ _created (session w) →
  ∃ w1,
    Session.delete (proxy l) w = (Val tt, w1) ∧
    _cache (session w1) = delete id (_cache (session w)) ∧
    _created (session w1) = _created (session w) ∖ {[id]} ∧
    _changed (session w1) = _changed (session w) ∧
    _deleted (session w1) = _deleted (session w) ∧
    heap w1 = heap w ∧ db w1 = db w ∧
    store_calls (trace w1) = store_calls (trace w) ∧
    (d !! "_rev" = None →
       (Session.delete (proxy l) w1).1 = Exc KeyError ∧
       _deleted (session (Session.delete (proxy l) w1).2) = _deleted (session w)).
Proof.
  intros (Hc & Hl & Hk) Hin.
  rewrite (delete_created_run w l d id Hl Hk Hin) by (by eexists).
  eexists. split; [done|]. simpl.
  rewrite store_calls_app, app_nil_r.
  do 7 (split; [done|]). intros Hrev.
  erewrite (delete_unrevisioned_run _ l d id); simpl; try done. set_solver.
Qed.
End Deleting.

Lemma Forall2_and_left {A B} (P : A → Prop) (Q : A → B → Prop) xs ys :
  Forall P xs → Forall2 Q xs ys → Forall2 (λ x y, P x ∧ Q x y) xs ys.
Proof.
  intros HP HQ. induction HQ as [|x y xs ys Hxy _ IH]; [constructor|].
  apply Forall_cons in HP as [Hx HP]. constructor; [done|by apply IH].
Qed.

Section Returned.
Context {D : Type} `{!Database D}.
Implicit Types (w : world D) (l : loc) (d : gmap string json) (id : string).

(** What a [flush] that returned has sent and left behind. *)
Lemma flush_returned w w' :
  Session.flush w = (Val tt, w') →
  ∃ ups rs0 st1 rs,
    updates_sent (trace w') =
      updates_sent (trace w) ++ [Session.deletions (session w); ups] ∧
    Forall2 (λ id u, ∃ l, _cache (session w) !! id = Some l ∧
                          heap w !! l = Some (JDict u))
      (elements (_created (session w)) ++ elements (_changed (session w))) ups ∧
    db_update (db w) (Session.deletions (session w)) = (Val rs0, st1) ∧
    db_update st1 ups = (Val rs, db w') ∧
    session w' =
      MkSession (evicted (_created (session w))
                   (map_to_list (_deleted (session w))).*1 (_cache (session w)))
                ∅ ∅ ∅ ∧
    (∀ r, r ∈ rs → is_Some (_cache (session w') !! resp_id r)).
Proof.
  intros Hrun.
  apply flush_inv in Hrun
    as (evs & ups & rs0 & st1 & rs & st2 & w2 & Hevs & Hups & Hdb1 & Hdb2 & Hrec & ->).
  apply record_revs_inv in Hrec as (Hcache & Hcr & Hdel & Hdb & Htr & Hfound & _).
  simpl in *. exists ups, rs0, st1, rs. split_and!; try done.
  - rewrite Htr, !updates_sent_app, (reads_only_updates_sent evs Hevs). done.
  - by rewrite Hdb.
  - unfold set_session, set_changed, set_created. simpl.
    by rewrite Hcache, Hdel.
  - intros r Hr. rewrite Hcache. by apply Hfound.
Qed.

(** X7. Deleting a persisted document records, under its id, the revision
    the document carries at that moment, takes the id out of [_changed],
    and leaves cache, documents and store alone; a [flush] that then
    returns has sent the deletion record with that revision in the first
    batch, has sent no copy of the document in the second, and has dropped
    the id from the cache. *)
Theorem delete_records_the_document_revision w id l d rev :
  cached_as w id l d → d !! "_rev" = Some rev → id ∉ _created (session w) →
  ∃ w1,
    Session.delete (proxy l) w = (Val tt, w1) ∧
    session w1 =
      set_deleted <[id := rev]> (set_changed (.∖ {[id]}) (session w)) ∧
    heap w1 = heap w ∧ db w1 = db w ∧
    store_calls (trace w1) = store_calls (trace w) ∧
    ∀ w2, Session.flush w1 = (Val tt, w2) →
      ∃ ups,
        updates_sent (trace w2) =
          updates_sent (trace w) ++ [Session.deletions (session w1); ups] ∧
        Session.deletion (id, rev) ∈ Session.deletions (session w1) ∧
        Forall2 (λ id' u, id' ≠ id ∧
                          ∃ l', _cache (session w) !! id' = Some l' ∧
                                heap w !! l' = Some (JDict u))
          (elements (_created (session w1)) ++ elements (_changed (session w1)))
          ups ∧
        _cache (session w2) !! id = None.
Proof.
  intros (Hc & Hl & Hk) Hrev Hnew.
  rewrite (delete_persisted_run w l d id rev Hl Hk Hrev Hnew).
  eexists. split; [done|]. simpl. rewrite store_calls_app, app_nil_r.
  do 4 (split; [done|]). intros w2 Hflush.
  apply flush_returned in Hflush as (ups & rs0 & st1 & rs & Hsent & Hups & _ & _ & Hs & _).
  simpl in *. exists ups. split_and!.
  - rewrite Hsent, !updates_sent_app. simpl. by rewrite app_nil_r.
  - unfold Session.deletions. simpl. apply list_elem_of_fmap.
    exists (id, rev). split; [done|]. apply elem_of_map_to_list, lookup_insert_eq.
  - apply Forall2_and_left; [|exact Hups].
    apply Forall_forall. intros id' Hin Heq. subst id'.
    apply elem_of_app in Hin as [Hin|Hin]; apply elem_of_elements in Hin;
      set_solver.
  - rewrite Hs. simpl. rewrite evicted_lookup. rewrite decide_True; [done|].
    split; [|done]. apply list_elem_of_fmap. exists (id, rev). split; [done|].
    apply elem_of_map_to_list, lookup_insert_eq.
Qed.

Lemma get_miss_error w id default e :
  _cache (session w) !! id = None → db_get (db w) id = Exc e →
  Session.get id default w = (Exc e, set_trace (.++ [DbGet id]) w).
Proof. intros Hc Hdb. unfold Session.get. mrun. by rewrite Hc, Hdb. Qed.

(** X8. A lookup of an id that is not cached asks the store once.  When
    the store has no such document, [get] returns the caller's default and
    strict access raises [ResourceNotFound]; when the store raises, the
    error comes out unchanged of [get], of strict access and of [del];
    either way heap and session stay as they were, so nothing is
    remembered and the next lookup asks again.  When the store has the
    document, it becomes a new cached object and enters no tracking set. *)
Theorem lookup_of_an_uncached_id w id default :
  _cache (session w) !! id = None →
  (db_get (db w) id = Val None →
     Session.get id default w = (Val default, set_trace (.++ [DbGet id]) w) ∧
     Session.__getitem__ id w =
       (Exc ResourceNotFound, set_trace (.++ [DbGet id]) w)) ∧
  (∀ e, db_get (db w) id = Exc e →
     Session.get id default w = (Exc e, set_trace (.++ [DbGet id]) w) ∧
     Session.__getitem__ id w = (Exc e, set_trace (.++ [DbGet id]) w) ∧
     Session.__delitem__ id w = (Exc e, set_trace (.++ [DbGet id]) w)) ∧
  (∀ doc, db_get (db w) id = Val (Some doc) → doc !! "_id" = Some (JStr id) →
     ∃ l w1,
       Session.get id default w = (Val (DictionaryProxy (proxy l)), w1) ∧
       heap w !! l = None ∧ heap w1 = <[l := JDict doc]> (heap w) ∧
       session w1 = set_cache <[id := l]> (session w) ∧ db w1 = db w).
Proof.
  intros Hc. split_and!.
  - intros Hdb. split; [by apply get_miss_absent|].
    rewrite getitem_run. by rewrite (get_miss_absent w id _ Hc Hdb).
  - intros e Hdb. split_and!; [by apply get_miss_error|..].
    + rewrite getitem_run. by rewrite (get_miss_error w id _ e Hc Hdb).
    + unfold Session.__delitem__. mrun. rewrite getitem_run.
      by rewrite (get_miss_error w id _ e Hc Hdb).
  - intros doc Hdb Hk. exists (fresh (dom (heap w))). eexists.
    split; [by apply get_miss_found|]. simpl.
    split_and!; try done. apply fresh_unused.
Qed.
End Returned.

Lemma create_files_a_new_document_witness :
  ∃ l w1,
    Session.create MemStore.uuid4_hex {["foo" := JStr "bar"]} Scenario.start =
      (Val (Raw (JStr (MemStore.uuid4_hex 0))), w1) ∧
    heap Scenario.start !! l = None ∧
    heap w1 = <[l := JDict (<["_id" := JStr (MemStore.uuid4_hex 0)]>
                              {["foo" := JStr "bar"]})]> (heap Scenario.start) ∧
    session w1 =
      set_cache <[MemStore.uuid4_hex 0 := l]>
        (set_created ({[MemStore.uuid4_hex 0]} ∪.) (session Scenario.start)) ∧
    db w1 = db Scenario.start ∧
    store_calls (trace w1) = store_calls (trace Scenario.start) ∧
    rng w1 = (if decide (is_Some (({["foo" := JStr "bar"]} : gmap string json) !! "_id"))
              then rng Scenario.start else S (rng Scenario.start)) ∧
    ∀ default, ∃ evs,
      Session.get (MemStore.uuid4_hex 0) default w1 =
        (Val (DictionaryProxy (proxy l)), set_trace (.++ evs) w1) ∧
      store_calls evs = [].
Proof.
  apply (create_files_a_new_document MemStore.uuid4_hex Scenario.start
           {["foo" := JStr "bar"]} (MemStore.uuid4_hex 0)).
  reflexivity.
Defined.

Lemma setitem_files_under_the_index_witness :
  ∃ l w1,
    Session.__setitem__ MemStore.uuid4_hex "foo" Scenario.replacement Scenario.start =
      (Val (Raw JNull), w1) ∧
    heap Scenario.start !! l = None ∧
    heap w1 = <[l := JDict (<["_id" := JStr "foo"]> Scenario.replacement)]>
                (heap Scenario.start) ∧
    session w1 =
      set_cache <["foo" := l]> (set_created ({["foo"]} ∪.) (session Scenario.start)) ∧
    db w1 = db Scenario.start ∧
    store_calls (trace w1) = store_calls (trace Scenario.start).
Proof.
  apply (setitem_files_under_the_index MemStore.uuid4_hex Scenario.start "foo"
           Scenario.replacement).
  reflexivity.
Defined.

Lemma delete_forgets_a_created_document_witness :
  ∃ w1,
    Session.delete (proxy 0%nat) Scenario.created = (Val tt, w1) ∧
    _cache (session w1) = delete "foo" (_cache (session Scenario.created)) ∧
    _created (session w1) = _created (session Scenario.created) ∖ {["foo"]} ∧
    _changed (session w1) = _changed (session Scenario.created) ∧
    _deleted (session w1) = _deleted (session Scenario.created) ∧
    heap w1 = heap Scenario.created ∧ db w1 = db Scenario.created ∧
    store_calls (trace w1) = store_calls (trace Scenario.created) ∧
    (({["_id" := JStr "foo"]} : gmap string json) !! "_rev" = None →
       (Session.delete (proxy 0%nat) w1).1 = Exc KeyError ∧
       _deleted (session (Session.delete (proxy 0%nat) w1).2) =
         _deleted (session Scenario.created)).
Proof.
  apply (delete_forgets_a_created_document Scenario.created "foo" 0%nat
           {["_id" := JStr "foo"]}).
  - repeat split; closed_fact.
  - closed_fact.
Defined.

Lemma delete_records_the_document_revision_witness :
  ∃ w1,
    Session.delete (proxy 0%nat) Scenario.fetched = (Val tt, w1) ∧
    session w1 =
      set_deleted <["X" := JStr "1-a"]>
        (set_changed (.∖ {["X"]}) (session Scenario.fetched)) ∧
    heap w1 = heap Scenario.fetched ∧ db w1 = db Scenario.fetched ∧
    store_calls (trace w1) = store_calls (trace Scenario.fetched) ∧
    ∀ w2, Session.flush w1 = (Val tt, w2) →
      ∃ ups,
        updates_sent (trace w2) =
          updates_sent (trace Scenario.fetched) ++
            [Session.deletions (session w1); ups] ∧
        Session.deletion ("X", JStr "1-a") ∈ Session.deletions (session w1) ∧
        Forall2 (λ id' u, id' ≠ "X" ∧
                          ∃ l', _cache (session Scenario.fetched) !! id' = Some l' ∧
                                heap Scenario.fetched !! l' = Some (JDict u))
          (elements (_created (session w1)) ++ elements (_changed (session w1)))
          ups ∧
        _cache (session w2) !! "X" = None.
Proof.
  apply (delete_records_the_document_revision Scenario.fetched "X" 0%nat
           (<["_id" := JStr "X"]> Scenario.persisted) (JStr "1-a")).
  - repeat split; closed_fact.
  - closed_fact.
  - closed_fact.
Defined.

Lemma lookup_of_an_uncached_id_witness :
  Session.get "absent" (Raw (JStr "missing")) Scenario.start =
    (Val (Raw (JStr "missing")), set_trace (.++ [DbGet "absent"]) Scenario.start) ∧
  Session.__getitem__ "absent" Scenario.start =
    (Exc ResourceNotFound, set_trace (.++ [DbGet "absent"]) Scenario.start).
Proof.
  apply (proj1 (lookup_of_an_uncached_id Scenario.start "absent"
                  (Raw (JStr "missing")) eq_refl)).
  reflexivity.
Defined.

(** ** Rows of a view or a query *)

Section Rows.
Context {D : Type} `{!Database D}.
Implicit Types (w : world D) (l : loc) (d : gmap string json) (id : string).

Lemma row_doc_miss w r d id :
  row_doc r = Some d → d !! "_id" = Some (JStr id) →
  _cache (session w) !! id = None →
  Session._get_doc r w =
    (Val (DictionaryProxy (proxy (fresh (dom (heap w))))),
     World (<[fresh (dom (heap w)) := JDict d]> (heap w))
           (set_cache <[id := fresh (dom (heap w))]> (session w)) (db w)
           (trace w ++ [Delegate (fresh (dom (heap w)), []) "__getitem__"])
           (rng w)).
Proof.
  intros Hr Hk Hc. unfold Session._get_doc. rewrite Hr, Hk. mrun. rewrite Hc.
  rewrite (cached_run _ _ d id); simpl; [done|apply lookup_insert_eq|done].
Qed.

(** What a row's document resolved to, when it resolved. *)
Lemma row_doc_inv w r v w1 :
  Session._get_doc r w = (Val v, w1) →
  (row_doc r = None ∧ v = Raw JNull ∧ w1 = w) ∨
  (∃ d id l, row_doc r = Some d ∧ d !! "_id" = Some (JStr id) ∧
             v = DictionaryProxy (proxy l) ∧
             _cache (session w1) !! id = Some l ∧
             _cache (session w) ⊆ _cache (session w1)).
Proof.
  destruct (row_doc r) as [d|] eqn:Hr.
  - destruct (d !! "_id") as [x|] eqn:Hk.
    + destruct x as [| | |id| |];
        try (unfold Session._get_doc; rewrite Hr, Hk; mrun; done).
      destruct (_cache (session w) !! id) as [l|] eqn:Hc.
      * rewrite (row_doc_cached w r d id l Hr Hk Hc). intros [= <- <-].
        right. by exists d, id, l.
      * rewrite (row_doc_miss w r d id Hr Hk Hc). intros [= <- <-].
        right. exists d, id, (fresh (dom (heap w))). simpl.
        rewrite lookup_insert_eq. split_and!; try done.
        by apply insert_subseteq.
    + unfold Session._get_doc. rewrite Hr, Hk. by mrun.
  - unfold Session._get_doc. rewrite Hr. mrun. intros [= <- <-]. by left.
Qed.

Lemma row_docs_cons r rows w :
  row_docs (r :: rows) w =
    match Session._get_doc r w with
    | (Val v, w0) => match row_docs rows w0 with
                     | (Val vs, w1) => (Val (v :: vs), w1)
                     | (Exc e, w1) => (Exc e, w1)
                     end
    | (Exc e, w0) => (Exc e, w0)
    end.
Proof.
  unfold row_docs. simpl. rewrite run_bind.
  destruct (Session._get_doc r w) as [[v|e] w0]; [|done].
  rewrite run_bind. by destruct (collect rows Session._get_doc w0) as [[vs|e] w1].
Qed.

Lemma row_docs_cache rows w vs w1 :
  row_docs rows w = (Val vs, w1) → _cache (session w) ⊆ _cache (session w1).
Proof.
  revert w vs. induction rows as [|r rows IH]; intros w vs.
  - by intros [= <- <-].
  - rewrite row_docs_cons.
    destruct (Session._get_doc r w) as [[v|e] w0] eqn:Hr; [|done].
    destruct (row_docs rows w0) as [[vs0|e] w2] eqn:Hrows; [|done].
    intros [= <- <-]. etrans; [|by eapply IH].
    apply row_doc_inv in Hr as [(_ & _ & ->)|(? & ? & ? & _ & _ & _ & _ & Hsub)]; done.
Qed.

(** Rows already resolved resolve again to the same objects, from the
    cache alone. *)
Lemma row_docs_again rows rows' :
  Forall2 same_document rows rows' →
  ∀ w vs w1, row_docs rows w = (Val vs, w1) →
  ∀ w2, _cache (session w1) ⊆ _cache (session w2) →
        row_docs rows' w2 = (Val vs, w2).
Proof.
  induction 1 as [|r r' rows rows' Hsame _ IH]; intros w vs w1.
  - by intros [= <- <-].
  - rewrite row_docs_cons.
    destruct (Session._get_doc r w) as [[v|e] w0] eqn:Hr; [|done].
    destruct (row_docs rows w0) as [[vs0|e] w3] eqn:Hrows; [|done].
    intros [= <- <-] w2 Hsub. rewrite row_docs_cons.
    assert (Session._get_doc r' w2 = (Val v, w2)) as ->.
    { unfold same_document in Hsame.
      apply row_doc_inv in Hr as [(Hnone & -> & ->)|(d & id & l & Hd & Hk & -> & Hc & _)].
      - rewrite Hnone in Hsame. destruct (row_doc r') eqn:Hr'; [done|].
        unfold Session._get_doc. by rewrite Hr'.
      - rewrite Hd in Hsame. destruct (row_doc r') as [d'|] eqn:Hr'; [|done].
        apply (row_doc_cached w2 r' d' id l); [done|congruence|].
        eapply lookup_weaken; [|exact Hsub].
        eapply lookup_weaken; [exact Hc|]. by eapply row_docs_cache. }
    by rewrite (IH w0 vs0 w3 Hrows w2 Hsub).
Qed.

Lemma same_document_refl r : same_document r r.
Proof. unfold same_document. by destruct (row_doc r). Qed.

Lemma row_docs_store rows w : db (row_docs rows w).2 = db w.
Proof.
  assert (stable (D := D) store_untouched (row_docs rows)) as Hs.
  { unfold row_docs. apply (stable_collect _). intros r. apply local_row_doc. }
  apply Hs.
Qed.


(** X10. Reading the documents of a list of rows a second time gives the
    objects the first reading gave and changes nothing, also when the
    second list is another answer of the store with the same ids row by
    row; in particular the documents of the same view, or of the same
    query, read twice are the same objects. *)
Theorem rows_read_twice_give_the_same_documents :
  (∀ rows rows' w vs w1,
     Forall2 same_document rows rows' →
     row_docs rows w = (Val vs, w1) → row_docs rows' w1 = (Val vs, w1)) ∧
  (∀ name w vs w1,
     (let! rows := Session.view name in row_docs rows) w = (Val vs, w1) →
     (let! rows := Session.view name in row_docs rows) w1 = (Val vs, w1)) ∧
  (∀ map_fun w vs w1,
     (let! rows := Session.query map_fun in row_docs rows) w = (Val vs, w1) →
     (let! rows := Session.query map_fun in row_docs rows) w1 = (Val vs, w1)).
Proof.
  split_and!.
  - intros rows rows' w vs w1 Hsame Hrun.
    by apply (row_docs_again rows rows' Hsame w vs w1).
  - intros name w vs w1. unfold Session.view. mrun. intros Hrun.
    pose proof (row_docs_store (db_view (db w) name) w) as Hdb.
    rewrite Hrun in Hdb. simpl in Hdb. rewrite Hdb.
    eapply row_docs_again; [|exact Hrun|done].
    apply Forall_Forall2_diag, Forall_forall. intros r _. apply same_document_refl.
  - intros map_fun w vs w1. unfold Session.query. mrun. intros Hrun.
    pose proof (row_docs_store (db_query (db w) map_fun) w) as Hdb.
    rewrite Hrun in Hdb. simpl in Hdb. rewrite Hdb.
    eapply row_docs_again; [|exact Hrun|done].
    apply Forall_Forall2_diag, Forall_forall. intros r _. apply same_document_refl.
Qed.
End Rows.


Lemma listed_run :
  Listing.docs_of_view Scenario.start =
    (Val [DictionaryProxy (proxy 0%nat)], Listing.listed).
Proof.
  unfold Listing.listed.
  assert ((Listing.docs_of_view Scenario.start).1 =
          Val [DictionaryProxy (proxy 0%nat)]) as Hok by closed_fact.
  destruct (Listing.docs_of_view Scenario.start) as [r w']. simpl in Hok.
  by rewrite Hok.
Qed.

Lemma rows_read_twice_give_the_same_documents_witness :
  Listing.docs_of_view Listing.listed =
    (Val [DictionaryProxy (proxy 0%nat)], Listing.listed).
Proof.
  apply (proj1 (proj2 (rows_read_twice_give_the_same_documents (D := MemStore.t)))
           "_all_docs" Scenario.start).
  apply listed_run.
Defined.

(** ** Documents stay filed under their ids *)

#[global] Instance files_by_id_preorder {D} : PreOrder (files_by_id (D := D)).
Proof.
  split.
  - intros w. split; [by eauto|]. intros id l Hc. by left.
  - intros w1 w2 w3 [Hh12 Hc12] [Hh23 Hc23]. split.
    + intros l d id Hl Hk. destruct (Hh12 l d id Hl Hk) as (d' & Hl' & Hk').
      by apply (Hh23 l d' id).
    + intros id l Hc. destruct (Hc23 id l Hc) as [Hc2|?]; [|by right].
      destruct (Hc12 id l Hc2) as [?|(d & Hl & Hk)]; [by left|]. right.
      by apply (Hh23 l d id).
Qed.

Lemma files_by_id_consistent {D} (w w' : world D) :
  files_by_id w w' → consistent w → consistent w'.
Proof.
  intros [Hh Hc] Hcons id l Hl. destruct (Hc id l Hl) as [Hold|?]; [|done].
  destruct (Hcons id l Hold) as (d & Hd & Hk). by apply (Hh l d id).
Qed.

Lemma filed_same {D} (w w' : world D) :
  heap w' = heap w → _cache (session w') ⊆ _cache (session w) → files_by_id w w'.
Proof.
  intros Hh Hc. split.
  - intros l d id Hl Hk. exists d. by rewrite Hh.
  - intros id l Hl. left. by eapply lookup_weaken.
Qed.

Section Filed.
Context {D : Type}.
Implicit Types (w : world D).

Lemma filed_log e : stable (D := D) files_by_id (log e).
Proof. intros w. by apply filed_same. Qed.

Lemma filed_set_created f : stable (D := D) files_by_id (modify (set_session (set_created f))).
Proof. intros w. by apply filed_same. Qed.

Lemma filed_set_changed f : stable (D := D) files_by_id (modify (set_session (set_changed f))).
Proof. intros w. by apply filed_same. Qed.

Lemma filed_set_deleted f : stable (D := D) files_by_id (modify (set_session (set_deleted f))).
Proof. intros w. by apply filed_same. Qed.

Lemma filed_uncache k :
  stable (D := D) files_by_id (modify (set_session (set_cache (base.delete k)))).
Proof. intros w. apply filed_same; [done|]. simpl. apply delete_subseteq. Qed.

Lemma filed_new_object v : stable (D := D) files_by_id (new_object v).
Proof.
  intros w. split; simpl.
  - intros l d id Hl Hk. exists d. split; [|done].
    rewrite lookup_insert_ne; [done|]. intros <-.
    by rewrite fresh_unused in Hl.
  - intros id l Hl. by left.
Qed.

Lemma filed_call_builtin {A} p (f : builtin A) :
  keeps_id p.2 f → stable (D := D) files_by_id (call_builtin p f).
Proof.
  intros Hf w. unfold call_builtin.
  destruct (heap w !! p.1) as [v|] eqn:Hv; [|reflexivity].
  destruct (at_path p.2 f v) as [[a v']|] eqn:Hrun; [|reflexivity].
  split; simpl.
  - intros l d id Hl Hk. destruct (decide (l = p.1)) as [->|Hne].
    + rewrite Hv in Hl. injection Hl as ->.
      destruct (Hf d id a v' Hk Hrun) as (d' & -> & Hk').
      exists d'. by rewrite lookup_insert_eq.
    + exists d. by rewrite lookup_insert_ne.
  - intros id l Hl. by left.
Qed.
End Filed.

(** *** Built-ins that leave the id alone *)

Lemma keeps_id_reading {A} p (f : builtin A) : reads f → keeps_id p f.
Proof.
  intros Hf d id a v' Hk. rewrite at_path_resolve.
  destruct (resolve p (JDict d)) as [x|] eqn:Hx; [|done].
  destruct (f x) as [[a' x']|] eqn:Hfx; [|done]. intros [= <- <-].
  apply Hf in Hfx as ->. rewrite (put_same _ _ _ Hx). by exists d.
Qed.

Lemma keeps_id_writing {A} p (f : builtin A) :
  on_containers f →
  (p = [] → ∀ d id a v', d !! "_id" = Some (JStr id) → f (JDict d) = Val (a, v') →
            ∃ d', v' = JDict d' ∧ d' !! "_id" = Some (JStr id)) →
  keeps_id p f.
Proof.
  intros Hstr Htop d id a v' Hk. destruct p as [|[s|i] p]; simpl.
  - by apply Htop.
  - destruct (d !! s) as [c|] eqn:Hs; [|done].
    destruct (at_path p f c) as [[a' c']|] eqn:Hrun; [|done]. intros [= <- <-].
    exists (<[s := c']> d). split; [done|].
    destruct (decide (s = "_id")) as [->|Hne]; [|by rewrite lookup_insert_ne].
    exfalso. rewrite Hk in Hs. injection Hs as <-.
    destruct p as [|[]]; simpl in Hrun; try done.
    destruct (Hstr id) as [e He]. by rewrite He in Hrun.
  - done.
Qed.

Lemma as_None_on_containers (f : builtin unit) :
  on_containers f → on_containers (as_None f).
Proof. intros Hf s. destruct (Hf s) as [e He]. exists e. unfold as_None. by rewrite He. Qed.

Lemma on_list_on_containers {A} (g : list json → res (A * list json)) :
  on_containers (on_list g).
Proof. intros s. by exists Detached. Qed.

Lemma dict_method_on_containers m : on_containers (dict_method m).2.
Proof. destruct m; apply as_None_on_containers; intros s; by exists Detached. Qed.

Lemma list_method_on_containers m : on_containers (list_method m).2.
Proof.
  destruct m; simpl; try apply as_None_on_containers; apply on_list_on_containers.
Qed.

Lemma keeps_id_dict_method p m :
  (p = [] → mutated_key m ≠ "_id") → keeps_id p (dict_method m).2.
Proof.
  intros Hkey. apply keeps_id_writing; [apply dict_method_on_containers|].
  intros Hp d id a v' Hk. specialize (Hkey Hp).
  destruct m as [k x|k]; simpl in *; unfold as_None; simpl.
  - intros [= <- <-]. exists (<[k := x]> d). by rewrite lookup_insert_ne.
  - destruct (d !! k); [|done]. simpl. intros [= <- <-].
    exists (delete k d). by rewrite lookup_delete_ne.
Qed.

Lemma keeps_id_list_method p m : keeps_id p (list_method m).2.
Proof.
  apply keeps_id_writing; [apply list_method_on_containers|].
  intros _ d id a v' _. by destruct m.
Qed.

(** *** Reading built-ins *)

Lemma reads_identity : reads (λ x, Val (x, x)).
Proof. by intros v a v' [= _ <-]. Qed.

Lemma reads_dict_getitem k : reads (dict___getitem__ k).
Proof.
  intros v a v'. unfold dict___getitem__. destruct v; try done.
  destruct (d !! k); [|done]. by intros [= _ <-].
Qed.

Lemma reads_dict_contains k : reads (dict___contains__ k).
Proof. intros v a v'. unfold dict___contains__. destruct v; try done. by intros [= _ <-]. Qed.

Lemma reads_dict_keys : reads dict_keys.
Proof. intros v a v'. unfold dict_keys. destruct v; try done. by intros [= _ <-]. Qed.

Lemma reads_list_getitem i : reads (list___getitem__ i).
Proof.
  intros v a v'. unfold list___getitem__, on_list. destruct v; try done.
  destruct (index (length xs) i) as [n|]; [|done].
  destruct (xs !! n); [|done]. by intros [= _ <-].
Qed.

Lemma reads_list_getslice i j : reads (list___getslice__ i j).
Proof.
  intros v a v'. unfold list___getslice__, on_list. destruct v; try done.
  destruct (slice_bounds (length xs) i j). by intros [= _ <-].
Qed.

(** A call that only reads leaves the world as it was. *)
Lemma call_builtin_reading {D A} (w : world D) p (f : builtin A) :
  reads f → (call_builtin p f w).2 = w.
Proof.
  intros Hf. rewrite call_builtin_at.
  destruct (subject_value w p) as [x|] eqn:Hx; [|done].
  destruct (f x) as [[a x']|] eqn:Hfx; [|done]. simpl.
  apply Hf in Hfx as ->. by apply write_subject_same.
Qed.

Lemma filed_call_reading {D A} p (f : builtin A) :
  reads f → stable (D := D) files_by_id (call_builtin p f).
Proof. intros Hf. by apply filed_call_builtin, keeps_id_reading. Qed.

Create HintDb filed discriminated.
#[global] Hint Resolve filed_log filed_set_created filed_set_changed
  filed_set_deleted filed_uncache filed_new_object filed_call_reading
  reads_identity reads_dict_getitem reads_dict_contains reads_dict_keys
  reads_list_getitem reads_list_getslice : filed.

Section FiledMethods.
Context {D : Type} `{!Database D}.
Implicit Types (w : world D) (self doc : wrapper callable).

Lemma filed_dict_getitem {C} (self : wrapper C) k :
  stable (D := D) files_by_id (Dictionary.__getitem__ self k).
Proof. unfold Dictionary.__getitem__, delegate. stable_with filed. Qed.

Lemma filed_dict_contains {C} (self : wrapper C) k :
  stable (D := D) files_by_id (Dictionary.__contains__ self k).
Proof.
  intros w. unfold Dictionary.__contains__.
  pose proof (filed_dict_getitem self k w) as Hs.
  by destruct (Dictionary.__getitem__ self k w) as [[|[]] ?].
Qed.

Lemma filed_as_key v : stable (D := D) files_by_id (as_key v).
Proof. unfold as_key. stable_with filed. Qed.

Lemma filed_data_of v : stable (D := D) files_by_id (data_of v).
Proof. unfold data_of. stable_with filed. Qed.

Lemma filed_invoke f : stable (D := D) files_by_id (Session.invoke f).
Proof.
  destruct f as [l]. unfold Session.invoke, Session.modified, Dictionary.__getitem__,
    delegate, as_key.
  stable_with filed.
Qed.


Lemma filed_db_update_call docs :
  stable (D := D) files_by_id (Session.db_update_call docs).
Proof.
  unfold Session.db_update_call. apply (stable_bind _); [apply filed_log|intros _].
  intros w. destruct (db_update (db w) docs) as [r st]. by apply filed_same.
Qed.

(** A new object enters the cache only as a document filed under its own
    id. *)
Lemma filed_alloc w w' v :
  heap w' = <[fresh (dom (heap w)) := v]> (heap w) →
  (∀ id l, _cache (session w') !! id = Some l →
     _cache (session w) !! id = Some l ∨
     (l = fresh (dom (heap w)) ∧ ∃ d, v = JDict d ∧ d !! "_id" = Some (JStr id))) →
  files_by_id w w'.
Proof.
  intros Hh Hc. split.
  - intros l d id Hl Hk. exists d. split; [|done]. rewrite Hh.
    rewrite lookup_insert_ne; [done|]. intros <-. by rewrite fresh_unused in Hl.
  - intros id l Hl. destruct (Hc id l Hl) as [?|(-> & d & -> & Hk)]; [by left|].
    right. exists d. by rewrite Hh, lookup_insert_eq.
Qed.

Lemma filed_cached l : stable (D := D) files_by_id (Session._cached l).
Proof.
  intros w.
  assert (∀ w', heap w' = heap w → _cache (session w') = _cache (session w) →
                files_by_id w w') as Hsame.
  { intros w' Hh Hc. apply filed_same; [done|by rewrite Hc]. }
  destruct (heap w !! l) as [[| | | | |d]|] eqn:Hl.
  6: { destruct (d !! "_id") as [x|] eqn:Hk.
       - destruct x as [| | |a| |].
         4: { rewrite (cached_run w l d a Hl Hk). split; simpl.
              - intros l' d' id' Hl' Hk'. by exists d'.
              - intros id' l' Hc. destruct (decide (id' = a)) as [->|Hne].
                + rewrite lookup_insert_eq in Hc. injection Hc as <-. right. by exists d.
                + rewrite lookup_insert_ne in Hc by done. by left. }
         all: unfold Session._cached; mrun;
           rewrite (call_builtin_read w l _ (JDict d) (JDict d) Hl eq_refl); simpl;
           change (Wrapper (l, []) (Modified l)) with (proxy l);
           erewrite proxy_getitem by (first [exact Hk | simpl; exact Hl]);
           simpl; by apply Hsame.
       - unfold Session._cached. mrun.
         rewrite (call_builtin_read w l _ (JDict d) (JDict d) Hl eq_refl). simpl.
         change (Wrapper (l, []) (Modified l)) with (proxy l).
         erewrite proxy_getitem_missing by (first [exact Hk | simpl; exact Hl]).
         simpl. by apply Hsame. }
  all: unfold Session._cached; mrun;
    first [ erewrite call_builtin_read by (first [exact Hl | done])
          | unfold call_builtin; simpl; rewrite Hl ];
    simpl; by apply Hsame.
Qed.

#[local] Hint Resolve filed_dict_getitem filed_dict_contains filed_as_key
  filed_data_of filed_invoke filed_cached filed_db_update_call : filed.

Ltac filed_auto := stable_with filed.


Lemma filed_get id default : stable (D := D) files_by_id (Session.get id default).
Proof. unfold Session.get. filed_auto. Qed.

Lemma filed_getitem id : stable (D := D) files_by_id (Session.__getitem__ id).
Proof.
  unfold Session.__getitem__. apply (stable_bind _); [apply filed_get|intros v].
  destruct (is_None v); [apply (stable_raise _)|apply (stable_ret _)].
Qed.

Lemma filed_delete doc : stable (D := D) files_by_id (Session.delete doc).
Proof. unfold Session.delete. filed_auto. Qed.

Lemma filed_delitem id : stable (D := D) files_by_id (Session.__delitem__ id).
Proof.
  unfold Session.__delitem__. apply (stable_bind _); [apply filed_getitem|intros v].
  destruct v; try apply (stable_raise _). apply filed_delete.
Qed.


Lemma filed_row_doc r : stable (D := D) files_by_id (Session._get_doc r).
Proof. unfold Session._get_doc. filed_auto. Qed.

Lemma filed_snapshot doc : stable (D := D) files_by_id (Session.snapshot doc).
Proof. unfold Session.snapshot, Dictionary.keys, delegate. filed_auto. Qed.

#[local] Hint Resolve filed_snapshot : filed.

Lemma keeps_id_set_rev x : keeps_id [] (dict___setitem__ "_rev" x).
Proof.
  intros d id a v' Hk. simpl. intros [= <- <-].
  exists (<["_rev" := x]> d). by rewrite lookup_insert_ne.
Qed.

Lemma filed_record_rev r : stable (D := D) files_by_id (Session.record_rev r).
Proof.
  unfold Session.record_rev, Session.cache_getitem, Dictionary.__setitem__, delegate.
  filed_auto. apply filed_call_builtin, keeps_id_set_rev.
Qed.

#[local] Hint Resolve filed_record_rev : filed.

Lemma filed_flush : stable (D := D) files_by_id Session.flush.
Proof.
  unfold Session.flush, Session.updates_list, Session.cache_getitem, Session.evict.
  filed_auto.
Qed.

Lemma filed_notify_then_delegate self method :
  keeps_id (__subject__ self).2 method.2 →
  stable (D := D) files_by_id (notify_then_delegate Session.invoke self method).
Proof.
  intros Hkeep w. unfold notify_then_delegate.
  pose proof (filed_invoke (__modified self) (set_trace (.++ [Notify]) w)) as Hi.
  destruct (Session.invoke _ _) as [[[]|e] w1]; simpl in *.
  - etrans; [apply (filed_log Notify w)|]. etrans; [apply Hi|].
    etrans; [apply (filed_log (Delegate (__subject__ self) method.1) w1)|].
    by apply filed_call_builtin.
  - etrans; [apply (filed_log Notify w)|]. apply Hi.
Qed.

Lemma filed_dict_read self r : stable (D := D) files_by_id (dict_read_call self r).
Proof. destruct r; simpl; unfold Dictionary.keys, delegate; filed_auto. Qed.

Lemma filed_list_read self r : stable (D := D) files_by_id (list_read_call self r).
Proof.
  destruct r; simpl; unfold List.__getitem__, List.__getslice__, delegate; filed_auto.
Qed.

End FiledMethods.

Section FiledOperations.
Context {D : Type} `{!Database D} (uuid4_hex : nat → string).
Implicit Types (w : world D) (self doc : wrapper callable).

Lemma filed_create data :
  stable (D := D) files_by_id (Session.create uuid4_hex data).
Proof.
  intros w. destruct (data !! "_id") as [x|] eqn:Hk.
  - destruct x as [| | |id| |].
    4: { rewrite (create_run uuid4_hex w data id Hk).
         eapply filed_alloc; [done|]. simpl. intros id' l Hc.
         destruct (decide (id' = id)) as [->|Hne].
         - rewrite lookup_insert_eq in Hc. injection Hc as <-. right.
           split; [done|]. by exists data.
         - rewrite lookup_insert_ne in Hc by done. by left. }
    all: unfold Session.create; mrun;
      rewrite (call_builtin_read _ _ _ (JDict data) true);
        [|simpl; apply lookup_insert_eq|simpl; by rewrite Hk, bool_decide_eq_true_2];
      simpl;
      erewrite (call_builtin_read _ _ _ (JDict data));
        [|simpl; apply lookup_insert_eq|simpl; by rewrite Hk];
      simpl; (eapply filed_alloc; [done|]); simpl; intros id' l Hc; by left.
  - rewrite (create_run_fresh uuid4_hex w data Hk).
    eapply filed_alloc; [done|]. simpl. intros id' l Hc.
    destruct (decide (id' = uuid4_hex (rng w))) as [->|Hne].
    + rewrite lookup_insert_eq in Hc. injection Hc as <-. right.
      split; [done|]. eexists. split; [done|]. apply lookup_insert_eq.
    + rewrite lookup_insert_ne in Hc by done. by left.
Qed.

Lemma filed_setitem id content :
  stable (D := D) files_by_id (Session.__setitem__ uuid4_hex id content).
Proof.
  unfold Session.__setitem__. destruct (decide _); [apply (stable_ret _)|].
  apply (stable_bind _); [apply filed_create|intros _; apply (stable_ret _)].
Qed.

Lemma exec_filed o : spares_id o → stable (D := D) files_by_id (exec uuid4_hex o).
Proof.
  intros Hspare. destruct o; simpl; try apply (stable_void _).
  - apply filed_get.
  - apply filed_getitem.
  - apply filed_setitem.
  - apply filed_delitem.
  - apply filed_create.
  - apply filed_delete.
  - apply filed_flush.
  - apply filed_row_doc.
  - intros w. rewrite dict_mutate_run.
    by apply filed_notify_then_delegate, keeps_id_dict_method.
  - intros w. rewrite list_mutate_run.
    apply filed_notify_then_delegate, keeps_id_list_method.
  - apply filed_dict_read.
  - apply filed_list_read.
Qed.

Lemma run_filed ops w :
  Forall spares_id ops → files_by_id w (run uuid4_hex ops w).
Proof.
  intros Hops. revert w. induction Hops as [|o ops Ho _ IH]; intros w; simpl.
  - reflexivity.
  - etrans; [by apply exec_filed|]. apply IH.
Qed.

(** X11. Every cache entry stays a document filed under its own [_id]:
    the property holds of a new session and is kept by every sequence of
    operations, whether they return or raise, as long as none assigns or
    deletes the [_id] item of a document through its proxy.  Along such a
    sequence no document object changes its [_id]. *)
Theorem cache_stays_filed_by_id ops :
  Forall spares_id ops →
  (∀ w, consistent w → consistent (run uuid4_hex ops w)) ∧
  (∀ st : D, consistent (run uuid4_hex ops (new_session st))) ∧
  (∀ w l d id, heap w !! l = Some (JDict d) → d !! "_id" = Some (JStr id) →
     ∃ d', heap (run uuid4_hex ops w) !! l = Some (JDict d') ∧
           d' !! "_id" = Some (JStr id)).
Proof.
  intros Hops. split_and!.
  - intros w. by apply files_by_id_consistent, run_filed.
  - intros st. apply (files_by_id_consistent (new_session st)); [by apply run_filed|].
    by intros id l Hc.
  - intros w. by apply run_filed.
Qed.
End FiledOperations.

Lemma cache_stays_filed_by_id_witness :
  (∀ w : world MemStore.t,
     consistent w → consistent (run MemStore.uuid4_hex Scenario.editing w)) ∧
  (∀ st : MemStore.t,
     consistent (run MemStore.uuid4_hex Scenario.editing (new_session st))) ∧
  (∀ (w : world MemStore.t) l d id,
     heap w !! l = Some (JDict d) → d !! "_id" = Some (JStr id) →
     ∃ d', heap (run MemStore.uuid4_hex Scenario.editing w) !! l = Some (JDict d') ∧
           d' !! "_id" = Some (JStr id)).
Proof.
  apply (cache_stays_filed_by_id (D := MemStore.t) MemStore.uuid4_hex Scenario.editing).
  repeat constructor. simpl. done.
Defined.

(** ** When [flush] cannot go through *)

Section Stuck.
Context {D : Type} `{!Database D}.
Implicit Types (w : world D) (l : loc) (d : gmap string json) (id : string).

Lemma consistent_set_trace w f : consistent w → consistent (set_trace f w).
Proof. done. Qed.

(** Copying the tracked documents stops with [KeyError] at the first id
    that is not cached. *)
Lemma snapshots_fail w ids id :
  consistent w → id ∈ ids → _cache (session w) !! id = None →
  ∃ evs,
    collect ids (λ doc_id, let! l := Session.cache_getitem doc_id in
                           Session.snapshot (proxy l)) w =
      (Exc KeyError, set_trace (.++ evs) w) ∧ reads_only evs.
Proof.
  intros Hcons Hin Hnone. revert w Hcons Hnone.
  induction ids as [|id0 ids IH]; intros w Hcons Hnone.
  { by apply not_elem_of_nil in Hin. }
  simpl. rewrite run_bind. unfold Session.cache_getitem at 1. mrun.
  destruct (_cache (session w) !! id0) as [l|] eqn:Hc; simpl.
  - destruct (Hcons id0 l Hc) as (d & Hl & _).
    destruct (snapshot_run w l d Hl) as (evs0 & -> & Hevs0).
    apply elem_of_cons in Hin as [->|Hin]; [congruence|].
    destruct (IH Hin (set_trace (.++ evs0) w)) as (evs & Hrun & Hevs); [done..|].
    revert Hrun. mrun. intros ->.
    exists (evs0 ++ evs). rewrite set_trace_app. split; [done|]. by apply Forall_app.
  - exists []. rewrite set_trace_nil. split; [done|constructor].
Qed.

Lemma flush_misses w id :
  consistent w → id ∈ _created (session w) ∪ _changed (session w) →
  _cache (session w) !! id = None →
  ∃ evs, Session.flush w = (Exc KeyError, set_trace (.++ evs) w) ∧ reads_only evs.
Proof.
  intros Hcons Hin Hnone.
  destruct (snapshots_fail w
              (elements (_created (session w)) ++ elements (_changed (session w))) id)
    as (evs & Hrun & Hevs); [done| |done|].
  { apply elem_of_app. rewrite !elem_of_elements. set_solver. }
  exists evs. split; [|done].
  unfold Session.flush, Session.updates_list. revert Hrun. mrun. by intros ->.
Qed.

(** X12. When an id in [_created] or [_changed] is not in the cache,
    [flush] raises [KeyError] while it copies the documents to send: no
    call is made to the store, and heap, cache and tracking sets stay as
    they were, so that every later [flush] raises again. *)
Theorem flush_raises_KeyError_for_an_uncached_change w id :
  consistent w → id ∈ _created (session w) ∪ _changed (session w) →
  _cache (session w) !! id = None →
  ∃ evs, Session.flush w = (Exc KeyError, set_trace (.++ evs) w) ∧
         store_calls evs = [] ∧
         (Session.flush (set_trace (.++ evs) w)).1 = Exc KeyError.
Proof.
  intros Hcons Hin Hnone.
  destruct (flush_misses w id Hcons Hin Hnone) as (evs & Hrun & Hevs).
  exists evs. split_and!; [done|by apply reads_only_store_calls|].
  by destruct (flush_misses (set_trace (.++ evs) w) id) as (evs' & -> & _).
Qed.

(** The loop over [_deleted] got through: every id it met outside
    [_created] was cached. *)
Lemma evict_loop_cached ks w w1 k :
  for_each ks Session.evict w = (Val tt, w1) →
  k ∈ ks → k ∉ _created (session w) → is_Some (_cache (session w) !! k).
Proof.
  revert w. induction ks as [|k0 ks IH]; intros w; simpl.
  { intros _ Hin. by apply not_elem_of_nil in Hin. }
  rewrite run_bind, evict_run. intros Hrun Hin Hnew.
  destruct (decide (k0 ∉ _created (session w))) as [Hk0|Hk0].
  - destruct (decide (is_Some (_cache (session w) !! k0))) as [Hc|Hc]; [|done].
    apply elem_of_cons in Hin as [->|Hin]; [done|].
    destruct (IH _ Hrun Hin Hnew) as [l Hl]. simpl in Hl.
    apply lookup_delete_Some in Hl as [_ Hl]. by exists l.
  - apply elem_of_cons in Hin as [->|Hin]; [done|]. by apply (IH _ Hrun).
Qed.

(** The loop over [_deleted] stops with [KeyError] when one of the ids
    outside [_created] is not cached; it has dropped from the cache the
    ids it went through. *)
Lemma evict_loop_fails ks w k :
  k ∈ ks → k ∉ _created (session w) → _cache (session w) !! k = None →
  ∃ cache',
    for_each ks Session.evict w =
      (Exc KeyError, set_session (set_cache (λ _, cache')) w) ∧
    cache' ⊆ _cache (session w).
Proof.
  revert w. induction ks as [|k0 ks IH]; intros w Hin Hnew Hnone; simpl.
  { by apply not_elem_of_nil in Hin. }
  rewrite run_bind, evict_run.
  destruct (decide (k0 ∉ _created (session w))) as [Hk0|Hk0].
  - destruct (decide (is_Some (_cache (session w) !! k0))) as [Hc|Hc].
    + apply elem_of_cons in Hin as [->|Hin].
      { rewrite Hnone in Hc. by destruct Hc. }
      destruct (IH (set_session (set_cache (base.delete k0)) w)) as (cache' & -> & Hsub);
        [done|done|simpl; apply lookup_delete_None; by right|].
      exists cache'. split; [done|]. etrans; [exact Hsub|]. apply delete_subseteq.
    + exists (_cache (session w)). split; [|done].
      unfold set_session, set_cache. simpl. by rewrite session_eta, world_eta.
  - apply elem_of_cons in Hin as [->|Hin]; [done|]. by apply IH.
Qed.

(** A [flush] that returned found every id of [_deleted] that was not in
    [_created] in the cache. *)
Lemma flush_evicts w w' id :
  Session.flush w = (Val tt, w') →
  is_Some (_deleted (session w) !! id) → id ∉ _created (session w) →
  is_Some (_cache (session w) !! id).
Proof.
  unfold Session.flush. mrun.
  destruct (Session.updates_list w) as [[ups|] w0] eqn:Hups; [|done].
  apply updates_list_inv in Hups as (evs & -> & Hevs & Hups).
  unfold Session.db_update_call at 1. mrun.
  destruct (db_update (db w) (Session.deletions (session w))) as [[rs0|] st1]; [|done].
  simpl.
  destruct (for_each _ Session.evict _) as [[[]|] w1] eqn:Hev; [|done].
  intros _ [rev Hrev] Hnew.
  apply (evict_loop_cached _ _ _ id) in Hev; [done| |done].
  simpl. apply list_elem_of_fmap. exists (id, rev). split; [done|].
  by apply elem_of_map_to_list.
Qed.

(** X13. With an id in [_deleted] that is neither in [_created] nor in
    the cache, [flush] never returns normally.  When the created and
    changed documents are all cached and the store takes the deletion
    batch, [flush] raises [KeyError] after that batch has been sent: the
    additions are not sent, heap and tracking sets are as before the
    call and the cache has only lost entries, so the id is stranded and
    the next [flush] sends the same deletions again. *)
Theorem flush_fails_on_a_tombstone_without_a_document w id :
  is_Some (_deleted (session w) !! id) → id ∉ _created (session w) →
  _cache (session w) !! id = None →
  (Session.flush w).1 ≠ Val tt ∧
  (∀ rs0 st1,
     (∀ id', id' ∈ _created (session w) ∪ _changed (session w) →
             ∃ l d, _cache (session w) !! id' = Some l ∧
                    heap w !! l = Some (JDict d)) →
     db_update (db w) (Session.deletions (session w)) = (Val rs0, st1) →
     ∃ w', Session.flush w = (Exc KeyError, w') ∧
           db w' = st1 ∧
           updates_sent (trace w') =
             updates_sent (trace w) ++ [Session.deletions (session w)] ∧
           heap w' = heap w ∧
           _created (session w') = _created (session w) ∧
           _changed (session w') = _changed (session w) ∧
           _deleted (session w') = _deleted (session w) ∧
           _cache (session w') ⊆ _cache (session w)).
Proof.
  intros Hdel Hnew Hnone. split.
  - destruct (Session.flush w) as [[[]|e] w'] eqn:Hrun; [|done].
    destruct (flush_evicts w w' id Hrun Hdel Hnew) as [l Hl]. congruence.
  - intros rs0 st1 Hcached Hdb.
    destruct (updates_list_run w Hcached) as (evs & ups & Hups & Hevs).
    unfold Session.flush. mrun. rewrite Hups.
    unfold Session.db_update_call at 1. mrun. rewrite Hdb. simpl.
    destruct Hdel as [rev Hrev].
    edestruct evict_loop_fails as (cache' & -> & Hsub); [..|eexists; split; [done|]].
    + apply list_elem_of_fmap. exists (id, rev). split; [done|].
      apply elem_of_map_to_list. exact Hrev.
    + exact Hnew.
    + exact Hnone.
    + simpl. split_and!; try done.
      rewrite !updates_sent_app, (reads_only_updates_sent evs Hevs).
      simpl. by rewrite app_nil_r.
Qed.
End Stuck.

Section Strand.
Context {D : Type} `{!Database D} (uuid4_hex : nat → string).
Implicit Types (w : world D) (l : loc) (d : gmap string json) (id : string).

Lemma dict_setitem_world self k x w :
  (Dictionary.__setitem__ Session.invoke self k x w).2 =
    (dict_mutate Session.invoke self (DictSetItem k x) w).2.
Proof.
  simpl. unfold returning_None, bind.
  by destruct (Dictionary.__setitem__ _ _ _ _ _) as [[] ?].
Qed.

(** X14. Deleting a document that was created and then changed, all
    before a [flush], takes its id out of [_created] and of the cache but
    leaves it in [_changed]; [flush] then raises [KeyError] before it
    calls the store. *)
Theorem deleting_a_changed_new_document_breaks_flush w data id k x :
  consistent w → data !! "_id" = Some (JStr id) → k ≠ "_id" →
  ∃ l w1 w1' w2 w3 evs,
    Session.create uuid4_hex data w = (Val (Raw (JStr id)), w1) ∧
    Session.get id (Raw JNull) w1 = (Val (DictionaryProxy (proxy l)), w1') ∧
    Dictionary.__setitem__ Session.invoke (proxy l) k x w1' = (Val tt, w2) ∧
    Session.delete (proxy l) w2 = (Val tt, w3) ∧
    id ∈ _changed (session w3) ∧ id ∉ _created (session w3) ∧
    _cache (session w3) !! id = None ∧
    Session.flush w3 = (Exc KeyError, set_trace (.++ evs) w3) ∧
    store_calls evs = [].
Proof.
  intros Hcons Hk Hne.
  pose proof (create_run uuid4_hex w data id Hk) as Hcr.
  match type of Hcr with _ = (_, ?x) => set (w1 := x) in * end.
  set (l := fresh (dom (heap w))) in *.
  assert (heap w1 !! l = Some (JDict data)) as Hl1 by apply lookup_insert_eq.
  destruct (get_hit_live w1 id l data id (Raw JNull)) as (evs1 & Hget & _);
    [apply lookup_insert_eq|done|done|intros [_ Hn]; apply Hn; simpl; set_solver|].
  set (w1' := set_trace (.++ evs1) w1) in *.
  pose proof (proxy_setitem w1' l data id k x Hl1 Hk) as Hset.
  match type of Hset with _ = (_, ?x) => set (w2 := x) in * end.
  assert (heap w2 !! l = Some (JDict (<[k := x]> data))) as Hl2
    by apply lookup_insert_eq.
  assert (<[k := x]> data !! "_id" = Some (JStr id)) as Hk2
    by by rewrite lookup_insert_ne.
  assert (id ∈ _created (session w2)) as Hin2 by (simpl; set_solver).
  assert (is_Some (_cache (session w2) !! id)) as Hc2
    by (simpl; rewrite lookup_insert_eq; by eexists).
  pose proof (delete_created_run w2 l _ id Hl2 Hk2 Hin2 Hc2) as Hdel.
  match type of Hdel with _ = (_, ?x) => set (w3 := x) in * end.
  assert (consistent w3) as Hcons3.
  { assert (files_by_id w w3) as Hf; [|by eapply files_by_id_consistent].
    etrans; [apply (filed_create uuid4_hex data w)|]. rewrite Hcr. simpl.
    etrans; [apply (filed_get id (Raw JNull) w1)|]. rewrite Hget. simpl.
    etrans; [apply (filed_notify_then_delegate (proxy l)
                      (dict_method (DictSetItem k x))
                      (keeps_id_dict_method [] (DictSetItem k x) (λ _, Hne)) w1')|].
    rewrite <- dict_mutate_run, <- dict_setitem_world, Hset. simpl.
    pose proof (filed_delete (proxy l) w2) as Hd. by rewrite Hdel in Hd. }
  assert (id ∈ _changed (session w3)) as Hch3 by (simpl; set_solver).
  assert (_cache (session w3) !! id = None) as Hc3
    by (simpl; apply lookup_delete_eq).
  destruct (flush_misses w3 id Hcons3) as (evs & Hflush & Hevs); [set_solver|done|].
  exists l, w1, w1', w2, w3, evs. split_and!; try done.
  - simpl. set_solver.
  - by apply reads_only_store_calls.
Qed.

(** X15. Deleting a persisted document, creating a document under the
    same id and deleting that one in turn leaves the id in [_deleted] with
    the first document's revision, out of [_created] and out of the cache:
    a tombstone without a document, on which [flush] cannot return. *)
Theorem deleting_a_recreated_document_strands_the_tombstone w X l d rev data :
  cached_as w X l d → d !! "_rev" = Some rev → X ∉ _created (session w) →
  data !! "_id" = Some (JStr X) →
  ∃ w1 w2 l' w2' w3,
    Session.delete (proxy l) w = (Val tt, w1) ∧
    Session.create uuid4_hex data w1 = (Val (Raw (JStr X)), w2) ∧
    Session.get X (Raw JNull) w2 = (Val (DictionaryProxy (proxy l')), w2') ∧
    Session.delete (proxy l') w2' = (Val tt, w3) ∧
    _deleted (session w3) !! X = Some rev ∧
    X ∉ _created (session w3) ∧ _cache (session w3) !! X = None ∧
    (Session.flush w3).1 ≠ Val tt.
Proof.
  intros (Hc & Hl & Hk) Hrev Hnew Hdata.
  pose proof (delete_persisted_run w l d X rev Hl Hk Hrev Hnew) as Hdel.
  match type of Hdel with _ = (_, ?x) => set (w1 := x) in * end.
  pose proof (create_run uuid4_hex w1 data X Hdata) as Hcr.
  match type of Hcr with _ = (_, ?x) => set (w2 := x) in * end.
  set (l' := fresh (dom (heap w1))) in *.
  assert (heap w2 !! l' = Some (JDict data)) as Hl2 by apply lookup_insert_eq.
  assert (X ∈ _created (session w2)) as Hin2 by (simpl; set_solver).
  destruct (get_hit_live w2 X l' data X (Raw JNull)) as (evs1 & Hget & _);
    [apply lookup_insert_eq|done|done|by intros [_ Hn]|].
  set (w2' := set_trace (.++ evs1) w2) in *.
  assert (is_Some (_cache (session w2') !! X)) as Hc2
    by (simpl; rewrite lookup_insert_eq; by eexists).
  pose proof (delete_created_run w2' l' data X Hl2 Hdata Hin2 Hc2) as Hdel2.
  match type of Hdel2 with _ = (_, ?x) => set (w3 := x) in * end.
  assert (_deleted (session w3) !! X = Some rev) as Hd3
    by (simpl; apply lookup_insert_eq).
  assert (X ∉ _created (session w3)) as Hn3 by (simpl; set_solver).
  assert (_cache (session w3) !! X = None) as Hc3
    by (simpl; apply lookup_delete_eq).
  exists w1, w2, l', w2', w3. split_and!; try done.
  destruct (Session.flush w3) as [[[]|e] w'] eqn:Hrun; [|done].
  destruct (flush_evicts w3 w' X Hrun) as [l0 Hl0]; [by eexists|done|congruence].
Qed.

(** X16. A document that is created and changed before a [flush] is in
    [_created] and in [_changed], and a [flush] that returns has sent two
    copies of it in the batch of additions. *)
Theorem created_then_changed_document_is_sent_twice w data id k x w3 :
  data !! "_id" = Some (JStr id) → k ≠ "_id" →
  ∃ l w1 w1' w2,
    Session.create uuid4_hex data w = (Val (Raw (JStr id)), w1) ∧
    Session.get id (Raw JNull) w1 = (Val (DictionaryProxy (proxy l)), w1') ∧
    Dictionary.__setitem__ Session.invoke (proxy l) k x w1' = (Val tt, w2) ∧
    id ∈ _created (session w2) ∧ id ∈ _changed (session w2) ∧
    (Session.flush w2 = (Val tt, w3) →
     ∃ ups i j,
       updates_sent (trace w3) =
         updates_sent (trace w) ++ [Session.deletions (session w); ups] ∧
       (i < j)%nat ∧
       ups !! i = Some (<[k := x]> data) ∧ ups !! j = Some (<[k := x]> data)).
Proof.
  intros Hk Hne.
  pose proof (create_run uuid4_hex w data id Hk) as Hcr.
  match type of Hcr with _ = (_, ?x) => set (w1 := x) in * end.
  set (l := fresh (dom (heap w))) in *.
  assert (heap w1 !! l = Some (JDict data)) as Hl1 by apply lookup_insert_eq.
  destruct (get_hit_live w1 id l data id (Raw JNull)) as (evs1 & Hget & Hst1 & _);
    [apply lookup_insert_eq|done|done|intros [_ Hn]; apply Hn; simpl; set_solver|].
  set (w1' := set_trace (.++ evs1) w1) in *.
  pose proof (proxy_setitem w1' l data id k x Hl1 Hk) as Hset.
  match type of Hset with _ = (_, ?x) => set (w2 := x) in * end.
  assert (id ∈ _created (session w2)) as Hin by (simpl; set_solver).
  assert (id ∈ _changed (session w2)) as Hch by (simpl; set_solver).
  exists l, w1, w1', w2. split_and!; try done.
  intros Hflush.
  apply flush_returned in Hflush as (ups & _ & _ & _ & Hsent & Hups & _).
  assert (∀ i, (elements (_created (session w2)) ++
                elements (_changed (session w2))) !! i = Some id →
               ups !! i = Some (<[k := x]> data)) as Hcopy.
  { intros i Hi. destruct (Forall2_lookup_l _ _ _ _ _ Hups Hi) as (u & Hu & l0 & Hc & Hl0).
    simpl in Hc, Hl0. rewrite lookup_insert_eq in Hc. injection Hc as <-.
    rewrite lookup_insert_eq in Hl0. by injection Hl0 as <-. }
  apply elem_of_elements, list_elem_of_lookup in Hin as [i Hi].
  apply elem_of_elements, list_elem_of_lookup in Hch as [j Hj].
  exists ups, i, (length (elements (_created (session w2))) + j)%nat.
  split_and!.
  - rewrite Hsent. simpl. rewrite !updates_sent_app. simpl.
    rewrite <- (updates_sent_store_calls evs1), Hst1. simpl. by rewrite !app_nil_r.
  - apply lookup_lt_Some in Hi. lia.
  - apply Hcopy. by apply lookup_app_l_Some.
  - apply Hcopy. rewrite lookup_app_r by lia.
    by replace (length _ + j - length _)%nat with j by lia.
Qed.
End Strand.

Lemma Forall2_functional {A B} (R : A → B → Prop) xs ys ys' :
  (∀ x y y', R x y → R x y' → y = y') →
  Forall2 R xs ys → Forall2 R xs ys' → ys = ys'.
Proof.
  intros Hfun Hys. revert ys'. induction Hys as [|x y xs ys Hxy _ IH]; intros ys' Hys'.
  - by apply Forall2_nil_inv_l in Hys'.
  - apply Forall2_cons_inv_l in Hys' as (y' & ys0 & Hxy' & Hys0 & ->).
    f_equal; [by eapply Hfun|by apply IH].
Qed.

Section Halfway.
Context {D : Type} `{!Database D}.
Implicit Types (w : world D) (l : loc) (d : gmap string json) (id : string).

(** The loop over [_deleted] goes through when every id it meets outside
    [_created] is cached. *)
Lemma evict_loop_run ks w :
  NoDup ks →
  (∀ k, k ∈ ks → k ∉ _created (session w) → is_Some (_cache (session w) !! k)) →
  for_each ks Session.evict w =
    (Val tt, set_session (set_cache (evicted (_created (session w)) ks)) w).
Proof.
  intros Hnodup. revert w. induction Hnodup as [|k0 ks Hk0 _ IH]; intros w Hcached; simpl.
  { unfold set_session, set_cache. simpl. by rewrite session_eta, world_eta. }
  rewrite run_bind, evict_run.
  destruct (decide (k0 ∉ _created (session w))) as [Hnew|Hnew].
  - destruct (decide (is_Some (_cache (session w) !! k0))) as [Hc|Hc].
    + rewrite IH.
      * unfold set_session, set_cache, evicted. simpl. by rewrite decide_True.
      * intros k Hin Hk. simpl in *. rewrite lookup_delete_ne by (by intros ->).
        apply Hcached; [by right|done].
    + destruct Hc. apply Hcached; [by left|done].
  - rewrite IH.
    + unfold set_session, set_cache, evicted. simpl. by rewrite decide_False.
    + intros k Hin Hk. apply Hcached; [by right|done].
Qed.

(** [flush] up to the answer of the store to the second batch. *)
Lemma flush_until_update w ups rs0 st1 :
  Forall2 (λ id u, ∃ l, _cache (session w) !! id = Some l ∧
                        heap w !! l = Some (JDict u))
    (elements (_created (session w)) ++ elements (_changed (session w))) ups →
  (∀ id, is_Some (_deleted (session w) !! id) → id ∉ _created (session w) →
         is_Some (_cache (session w) !! id)) →
  db_update (db w) (Session.deletions (session w)) = (Val rs0, st1) →
  ∃ evs, reads_only evs ∧
    Session.flush w =
      match db_update st1 ups with
      | (Val rs, st2) =>
          match for_each rs Session.record_rev (after_batches w evs ups st2) with
          | (Val _, w2) =>
              (Val tt, set_session (set_changed (λ _, ∅))
                         (set_session (set_created (λ _, ∅)) w2))
          | (Exc e, w2) => (Exc e, w2)
          end
      | (Exc e, st2) => (Exc e, after_batches w evs ups st2)
      end.
Proof.
  intros Hups Htomb Hdb.
  destruct (updates_list_run w) as (evs & ups' & Hrun & Hevs).
  { intros id Hid.
    assert (id ∈ elements (_created (session w)) ++ elements (_changed (session w)))
      as Hin by (apply elem_of_app; rewrite !elem_of_elements; set_solver).
    apply list_elem_of_lookup in Hin as [i Hi].
    destruct (Forall2_lookup_l _ _ _ _ _ Hups Hi) as (u & _ & l & Hc & Hl).
    by exists l, u. }
  assert (ups' = ups) as ->.
  { pose proof Hrun as Hinv. apply updates_list_inv in Hinv as (? & _ & _ & Hups').
    eapply Forall2_functional; [|exact Hups'|exact Hups].
    intros id u u' (l & Hc & Hl) (l' & Hc' & Hl'). congruence. }
  exists evs. split; [done|].
  unfold Session.flush. mrun. rewrite Hrun.
  unfold Session.db_update_call at 1. mrun. rewrite Hdb. simpl.
  rewrite evict_loop_run; simpl.
  2: { apply NoDup_fst_map_to_list. }
  2: { intros k Hin Hk. apply Htomb; [|done].
       apply list_elem_of_fmap in Hin as [[k' rev] [-> Hin]].
       apply elem_of_map_to_list in Hin. by exists rev. }
  unfold Session.db_update_call. mrun.
  destruct (db_update st1 ups) as [[rs|e] st2]; simpl.
  - match goal with |- context [for_each rs Session.record_rev ?x] =>
      replace x with (after_batches w evs ups st2) end.
    + by destruct (for_each rs Session.record_rev _) as [[[]|] w2].
    + unfold after_batches, set_session, set_trace, set_db, set_cache, set_deleted.
      simpl. by rewrite <- !app_assoc.
  - f_equal. unfold after_batches, set_session, set_trace, set_db, set_cache,
      set_deleted. simpl. by rewrite <- !app_assoc.
Qed.

(** X17. When the store takes the deletion batch and raises on the batch
    of additions, [flush] raises that error with the deletions done and
    forgotten ([_deleted] is empty, the deleted ids are out of the cache)
    and the additions still pending: [_created], [_changed] and the
    documents are as before the call, no revision was written back. *)
Theorem failed_update_leaves_the_additions_pending w ups rs0 st1 e st2 :
  Forall2 (λ id u, ∃ l, _cache (session w) !! id = Some l ∧
                        heap w !! l = Some (JDict u))
    (elements (_created (session w)) ++ elements (_changed (session w))) ups →
  (∀ id, is_Some (_deleted (session w) !! id) → id ∉ _created (session w) →
         is_Some (_cache (session w) !! id)) →
  db_update (db w) (Session.deletions (session w)) = (Val rs0, st1) →
  db_update st1 ups = (Exc e, st2) →
  ∃ w', Session.flush w = (Exc e, w') ∧
        _created (session w') = _created (session w) ∧
        _changed (session w') = _changed (session w) ∧
        _deleted (session w') = ∅ ∧
        _cache (session w') =
          evicted (_created (session w))
            (map_to_list (_deleted (session w))).*1 (_cache (session w)) ∧
        (∀ id, is_Some (_deleted (session w) !! id) → id ∉ _created (session w) →
               _cache (session w') !! id = None) ∧
        heap w' = heap w ∧ db w' = st2 ∧
        updates_sent (trace w') =
          updates_sent (trace w) ++ [Session.deletions (session w); ups].
Proof.
  intros Hups Htomb Hdb1 Hdb2.
  destruct (flush_until_update w ups rs0 st1 Hups Htomb Hdb1) as (evs & Hevs & ->).
  rewrite Hdb2. eexists. split; [done|]. simpl. split_and!; try done.
  - intros id [rev Hrev] Hnew. rewrite evicted_lookup, decide_True; [done|].
    split; [|done]. apply list_elem_of_fmap. exists (id, rev). split; [done|].
    by apply elem_of_map_to_list.
  - rewrite !updates_sent_app, (reads_only_updates_sent evs Hevs). done.
Qed.

Lemma record_rev_run w r l d a :
  _cache (session w) !! resp_id r = Some l →
  heap w !! l = Some (JDict d) → d !! "_id" = Some (JStr a) →
  Session.record_rev r w =
    (Val tt,
     World (<[l := JDict (<["_rev" := JStr (resp_rev r)]> d)]> (heap w))
           (set_changed ({[a]} ∪.) (session w)) (db w)
           (trace w ++ [Notify; Delegate (l, []) "__getitem__";
                        Delegate (l, []) "__setitem__"])
           (rng w)).
Proof.
  intros Hc Hl Hk. unfold Session.record_rev, Session.cache_getitem. mrun.
  rewrite Hc. simpl. by apply proxy_setitem.
Qed.

(** Writing the revisions back stops with [KeyError] at the first answer
    whose id is not cached. *)
Lemma record_revs_fail rs w r0 :
  consistent w → r0 ∈ rs → _cache (session w) !! resp_id r0 = None →
  ∃ w1, for_each rs Session.record_rev w = (Exc KeyError, w1) ∧
        _cache (session w1) = _cache (session w) ∧
        _created (session w1) = _created (session w) ∧
        _deleted (session w1) = _deleted (session w) ∧
        _changed (session w) ⊆ _changed (session w1) ∧
        db w1 = db w ∧
        updates_sent (trace w1) = updates_sent (trace w).
Proof.
  revert w. induction rs as [|r rs IH]; intros w Hcons Hin Hnone.
  { by apply not_elem_of_nil in Hin. }
  simpl. rewrite run_bind.
  destruct (_cache (session w) !! resp_id r) as [l|] eqn:Hc.
  - destruct (Hcons _ _ Hc) as (d & Hl & Hk).
    pose proof (filed_record_rev r w) as Hfiled.
    rewrite (record_rev_run w r l d _ Hc Hl Hk) in *. simpl in Hfiled.
    apply elem_of_cons in Hin as [->|Hin]; [congruence|].
    edestruct IH as (w1 & -> & Hc1 & Hcr1 & Hd1 & Hch1 & Hdb1 & Htr1);
      [by eapply files_by_id_consistent|exact Hin|exact Hnone|].
    exists w1. simpl in *. split_and!; try done.
    + set_solver.
    + rewrite Htr1, updates_sent_app. simpl. by rewrite app_nil_r.
  - exists w. split; [|done].
    unfold Session.record_rev, Session.cache_getitem. mrun. by rewrite Hc.
Qed.

(** X18. Changing a persisted document after deleting it puts its id back
    into [_changed] while it stays in [_deleted].  [flush] then cannot
    return: against a store that answers entry by entry it sends the
    deletions, drops the document from the cache, sends the additions,
    the changed document among them, and raises [KeyError] when it looks
    the document up to write the returned revision back; the id is left
    in [_changed] with nothing cached. *)
Theorem changing_a_deleted_document_breaks_flush w id l d rev k x :
  echoes_ids D → consistent w →
  cached_as w id l d → d !! "_rev" = Some rev → id ∉ _created (session w) →
  k ≠ "_id" →
  ∃ w1 w2,
    Session.delete (proxy l) w = (Val tt, w1) ∧
    Dictionary.__setitem__ Session.invoke (proxy l) k x w1 = (Val tt, w2) ∧
    _deleted (session w2) !! id = Some rev ∧ id ∈ _changed (session w2) ∧
    (Session.flush w2).1 ≠ Val tt ∧
    (∀ ups rs0 st1 rs st2,
       Forall2 (λ id' u, ∃ l', _cache (session w2) !! id' = Some l' ∧
                               heap w2 !! l' = Some (JDict u))
         (elements (_created (session w2)) ++ elements (_changed (session w2)))
         ups →
       (∀ id', is_Some (_deleted (session w2) !! id') →
               id' ∉ _created (session w2) →
               is_Some (_cache (session w2) !! id')) →
       db_update (db w) (Session.deletions (session w2)) = (Val rs0, st1) →
       db_update st1 ups = (Val rs, st2) →
       ∃ w3, Session.flush w2 = (Exc KeyError, w3) ∧
             db w3 = st2 ∧
             updates_sent (trace w3) =
               updates_sent (trace w) ++ [Session.deletions (session w2); ups] ∧
             <[k := x]> d ∈ ups ∧
             _deleted (session w3) = ∅ ∧
             id ∈ _changed (session w3) ∧ _cache (session w3) !! id = None).
Proof.
  intros Hecho Hcons (Hc & Hl & Hk) Hrev Hnew Hne.
  pose proof (delete_persisted_run w l d id rev Hl Hk Hrev Hnew) as Hdel.
  match type of Hdel with _ = (_, ?x) => set (w1 := x) in * end.
  pose proof (proxy_setitem w1 l d id k x Hl Hk) as Hset.
  match type of Hset with _ = (_, ?x) => set (w2 := x) in * end.
  assert (_deleted (session w2) !! id = Some rev) as Hd2
    by (simpl; apply lookup_insert_eq).
  assert (id ∈ _changed (session w2)) as Hch2 by (simpl; set_solver).
  assert (id ∉ _created (session w2)) as Hn2 by done.
  assert (_cache (session w2) !! id = Some l) as Hc2 by done.
  assert (heap w2 !! l = Some (JDict (<[k := x]> d))) as Hl2
    by apply lookup_insert_eq.
  assert (<[k := x]> d !! "_id" = Some (JStr id)) as Hk2
    by by rewrite lookup_insert_ne.
  assert (consistent w2) as Hcons2.
  { assert (files_by_id w w2) as Hf; [|by eapply files_by_id_consistent].
    pose proof (filed_delete (proxy l) w) as Hd. rewrite Hdel in Hd.
    etrans; [exact Hd|].
    pose proof (filed_notify_then_delegate (proxy l) (dict_method (DictSetItem k x))
                  (keeps_id_dict_method [] (DictSetItem k x) (λ _, Hne)) w1) as Hm.
    by rewrite <- dict_mutate_run, <- dict_setitem_world, Hset in Hm. }
  (* the entry of the batch and of the answer that stand for the document *)
  assert (∀ ups rs st1 st2,
            Forall2 (λ id' u, ∃ l', _cache (session w2) !! id' = Some l' ∧
                                    heap w2 !! l' = Some (JDict u))
              (elements (_created (session w2)) ++ elements (_changed (session w2)))
              ups →
            db_update st1 ups = (Val rs, st2) →
            <[k := x]> d ∈ ups ∧ ∃ r, r ∈ rs ∧ resp_id r = id) as Hentry.
  { intros ups rs st1 st2 Hups Hdb.
    assert (id ∈ elements (_created (session w2)) ++ elements (_changed (session w2)))
      as Hin by (apply elem_of_app; right; by apply elem_of_elements).
    apply list_elem_of_lookup in Hin as [i Hi].
    destruct (Forall2_lookup_l _ _ _ _ _ Hups Hi) as (u & Hu & l' & Hc' & Hl').
    rewrite Hc2 in Hc'. injection Hc' as <-. rewrite Hl2 in Hl'. injection Hl' as <-.
    split; [by eapply list_elem_of_lookup_2|].
    destruct (Forall2_lookup_r _ _ _ _ _ (Hecho _ _ _ _ Hdb) Hu) as (r & Hr & Hrid).
    exists r. split; [by eapply list_elem_of_lookup_2|by apply Hrid]. }
  assert (∀ created cache,
            id ∉ created →
            evicted created (map_to_list (_deleted (session w2))).*1 cache !! id = None)
    as Hgone.
  { intros created cache Hn. rewrite evicted_lookup, decide_True; [done|].
    split; [|done]. apply list_elem_of_fmap. exists (id, rev). split; [done|].
    by apply elem_of_map_to_list. }
  exists w1, w2. split_and!; try done.
  - destruct (Session.flush w2) as [[[]|e] w'] eqn:Hrun; [|done]. exfalso.
    apply flush_returned in Hrun as (ups & rs0 & st1 & rs & _ & Hups & _ & Hdb & Hs & Hfound).
    destruct (Hentry ups rs st1 _ Hups Hdb) as (_ & r & Hr & Hrid).
    destruct (Hfound r Hr) as [l0 Hl0]. rewrite Hrid, Hs in Hl0. simpl in Hl0.
    by rewrite Hgone in Hl0.
  - intros ups rs0 st1 rs st2 Hups Htomb Hdb1 Hdb2.
    destruct (flush_until_update w2 ups rs0 st1 Hups Htomb Hdb1) as (evs & Hevs & ->).
    rewrite Hdb2.
    destruct (Hentry ups rs st1 st2 Hups Hdb2) as (Hin & r & Hr & Hrid).
    destruct (record_revs_fail rs (after_batches w2 evs ups st2) r)
      as (w3 & -> & Hc3 & Hcr3 & Hd3 & Hch3 & Hdb3 & Htr3); [|done|..].
    { apply (files_by_id_consistent w2); [|done]. apply filed_same; [done|].
      simpl. apply map_subseteq_spec. intros i y. rewrite evicted_lookup.
      by destruct (decide _). }
    { rewrite Hrid. simpl. by apply Hgone. }
    exists w3. split_and!; try done.
    + rewrite Htr3. simpl.
      rewrite !updates_sent_app, (reads_only_updates_sent evs Hevs). simpl.
      by rewrite !app_nil_r.
    + apply Hch3. simpl. set_solver.
    + rewrite Hc3. simpl. by apply Hgone.
Qed.
End Halfway.

Lemma start_consistent : consistent Scenario.start.
Proof. intros id l Hc. simpl in Hc. by rewrite lookup_empty in Hc. Qed.

Lemma fetched_consistent : consistent Scenario.fetched.
Proof.
  apply (files_by_id_consistent Scenario.start); [|apply start_consistent].
  apply (filed_get "X" Scenario.None_ Scenario.start).
Qed.

Lemma changed_then_deleted_consistent : consistent Stranded.changed_then_deleted.
Proof.
  intros id l Hc.
  assert (_cache (session Stranded.changed_then_deleted) = ∅) as Hcache by closed_fact.
  rewrite Hcache in Hc. by rewrite lookup_empty in Hc.
Qed.

Lemma flush_raises_KeyError_for_an_uncached_change_witness :
  ∃ evs,
    Session.flush Stranded.changed_then_deleted =
      (Exc KeyError, set_trace (.++ evs) Stranded.changed_then_deleted) ∧
    store_calls evs = [] ∧
    (Session.flush (set_trace (.++ evs) Stranded.changed_then_deleted)).1 =
      Exc KeyError.
Proof.
  apply (flush_raises_KeyError_for_an_uncached_change Stranded.changed_then_deleted "foo").
  - apply changed_then_deleted_consistent.
  - closed_fact.
  - closed_fact.
Defined.

Lemma flush_fails_on_a_tombstone_without_a_document_witness :
  (Session.flush Scenario.deleted_again).1 ≠ Val tt ∧
  (∀ rs0 st1,
     (∀ id', id' ∈ _created (session Scenario.deleted_again) ∪
                   _changed (session Scenario.deleted_again) →
             ∃ l d, _cache (session Scenario.deleted_again) !! id' = Some l ∧
                    heap Scenario.deleted_again !! l = Some (JDict d)) →
     db_update (db Scenario.deleted_again)
       (Session.deletions (session Scenario.deleted_again)) = (Val rs0, st1) →
     ∃ w', Session.flush Scenario.deleted_again = (Exc KeyError, w') ∧
           db w' = st1 ∧
           updates_sent (trace w') =
             updates_sent (trace Scenario.deleted_again) ++
               [Session.deletions (session Scenario.deleted_again)] ∧
           heap w' = heap Scenario.deleted_again ∧
           _created (session w') = _created (session Scenario.deleted_again) ∧
           _changed (session w') = _changed (session Scenario.deleted_again) ∧
           _deleted (session w') = _deleted (session Scenario.deleted_again) ∧
           _cache (session w') ⊆ _cache (session Scenario.deleted_again)).
Proof.
  apply (flush_fails_on_a_tombstone_without_a_document Scenario.deleted_again "X").
  - closed_fact.
  - closed_fact.
  - closed_fact.
Defined.

Lemma deleting_a_changed_new_document_breaks_flush_witness :
  ∃ l w1 w1' w2 w3 evs,
    Session.create MemStore.uuid4_hex {["_id" := JStr "foo"]} Scenario.start =
      (Val (Raw (JStr "foo")), w1) ∧
    Session.get "foo" (Raw JNull) w1 = (Val (DictionaryProxy (proxy l)), w1') ∧
    Dictionary.__setitem__ Session.invoke (proxy l) "x" (JNum 1) w1' = (Val tt, w2) ∧
    Session.delete (proxy l) w2 = (Val tt, w3) ∧
    "foo" ∈ _changed (session w3) ∧ "foo" ∉ _created (session w3) ∧
    _cache (session w3) !! "foo" = None ∧
    Session.flush w3 = (Exc KeyError, set_trace (.++ evs) w3) ∧
    store_calls evs = [].
Proof.
  apply (deleting_a_changed_new_document_breaks_flush MemStore.uuid4_hex
           Scenario.start {["_id" := JStr "foo"]} "foo" "x" (JNum 1)).
  - apply start_consistent.
  - reflexivity.
  - done.
Defined.

Lemma deleting_a_recreated_document_strands_the_tombstone_witness :
  ∃ w1 w2 l' w2' w3,
    Session.delete (proxy 0%nat) Scenario.fetched = (Val tt, w1) ∧
    Session.create MemStore.uuid4_hex Scenario.replacement w1 =
      (Val (Raw (JStr "X")), w2) ∧
    Session.get "X" (Raw JNull) w2 = (Val (DictionaryProxy (proxy l')), w2') ∧
    Session.delete (proxy l') w2' = (Val tt, w3) ∧
    _deleted (session w3) !! "X" = Some (JStr "1-a") ∧
    "X" ∉ _created (session w3) ∧ _cache (session w3) !! "X" = None ∧
    (Session.flush w3).1 ≠ Val tt.
Proof.
  apply (deleting_a_recreated_document_strands_the_tombstone MemStore.uuid4_hex
           Scenario.fetched "X" 0%nat (<["_id" := JStr "X"]> Scenario.persisted)
           (JStr "1-a") Scenario.replacement).
  - repeat split; closed_fact.
  - closed_fact.
  - closed_fact.
  - closed_fact.
Defined.

Lemma created_then_mutated_flushes :
  Session.flush Scenario.created_then_mutated = (Val tt, Stranded.sent_twice).
Proof.
  unfold Stranded.sent_twice.
  assert ((Session.flush Scenario.created_then_mutated).1 = Val tt) as Hok
    by closed_fact.
  destruct (Session.flush Scenario.created_then_mutated) as [r w']. simpl in Hok.
  by rewrite Hok.
Qed.

Lemma created_then_changed_document_is_sent_twice_witness :
  ∃ ups i j,
    updates_sent (trace Stranded.sent_twice) =
      updates_sent (trace Scenario.start) ++
        [Session.deletions (session Scenario.start); ups] ∧
    (i < j)%nat ∧
    ups !! i = Some (<["x" := JNum 1]> {["_id" := JStr "foo"]}) ∧
    ups !! j = Some (<["x" := JNum 1]> {["_id" := JStr "foo"]}).
Proof.
  destruct (created_then_changed_document_is_sent_twice MemStore.uuid4_hex
              Scenario.start {["_id" := JStr "foo"]} "foo" "x" (JNum 1)
              Stranded.sent_twice)
    as (l & w1 & w1' & w2 & Hcr & Hget & Hset & _ & _ & Hflush);
    [reflexivity|done|].
  apply Hflush.
  assert (w1 = Scenario.created) as -> by (unfold Scenario.created; by rewrite Hcr).
  assert (l = 0%nat) as ->.
  { assert ((Session.get "foo" (Raw JNull) Scenario.created).1 =
            Val (DictionaryProxy (proxy 0%nat))) as H0 by closed_fact.
    rewrite Hget in H0. by injection H0. }
  assert (w2 = Scenario.created_then_mutated) as ->.
  { unfold Scenario.created_then_mutated, Scenario.None_. rewrite Hget. simpl.
    by rewrite Hset. }
  apply created_then_mutated_flushes.
Defined.

Lemma failed_update_leaves_the_additions_pending_witness :
  ∃ w', Session.flush FlakyStore.pending = (Exc (StoreError 503), w') ∧
        _created (session w') = _created (session FlakyStore.pending) ∧
        _changed (session w') = _changed (session FlakyStore.pending) ∧
        _deleted (session w') = ∅ ∧
        _cache (session w') =
          evicted (_created (session FlakyStore.pending))
            (map_to_list (_deleted (session FlakyStore.pending))).*1
            (_cache (session FlakyStore.pending)) ∧
        (∀ id, is_Some (_deleted (session FlakyStore.pending) !! id) →
               id ∉ _created (session FlakyStore.pending) →
               _cache (session w') !! id = None) ∧
        heap w' = heap FlakyStore.pending ∧ db w' = FlakyStore.Store 0 ∧
        updates_sent (trace w') =
          updates_sent (trace FlakyStore.pending) ++
            [Session.deletions (session FlakyStore.pending);
             [{["_id" := JStr "foo"]}]].
Proof.
  apply (failed_update_leaves_the_additions_pending FlakyStore.pending
           [{["_id" := JStr "foo"]}] [] (FlakyStore.Store 0) (StoreError 503)
           (FlakyStore.Store 0)).
  - assert (elements (_created (session FlakyStore.pending)) ++
            elements (_changed (session FlakyStore.pending)) = ["foo"]) as ->
      by closed_fact.
    constructor; [|constructor]. exists 0%nat. split; closed_fact.
  - intros id [rev Hrev]. revert Hrev. vm_compute. done.
  - closed_fact.
  - closed_fact.
Defined.

Lemma changing_a_deleted_document_breaks_flush_witness :
  ∃ w1 w2,
    Session.delete (proxy 0%nat) Scenario.fetched = (Val tt, w1) ∧
    Dictionary.__setitem__ Session.invoke (proxy 0%nat) "foo" (JStr "baz") w1 =
      (Val tt, w2) ∧
    _deleted (session w2) !! "X" = Some (JStr "1-a") ∧
    "X" ∈ _changed (session w2) ∧
    (Session.flush w2).1 ≠ Val tt ∧
    (∀ ups rs0 st1 rs st2,
       Forall2 (λ id' u, ∃ l', _cache (session w2) !! id' = Some l' ∧
                               heap w2 !! l' = Some (JDict u))
         (elements (_created (session w2)) ++ elements (_changed (session w2)))
         ups →
       (∀ id', is_Some (_deleted (session w2) !! id') →
               id' ∉ _created (session w2) →
               is_Some (_cache (session w2) !! id')) →
       db_update (db Scenario.fetched) (Session.deletions (session w2)) =
         (Val rs0, st1) →
       db_update st1 ups = (Val rs, st2) →
       ∃ w3, Session.flush w2 = (Exc KeyError, w3) ∧
             db w3 = st2 ∧
             updates_sent (trace w3) =
               updates_sent (trace Scenario.fetched) ++
                 [Session.deletions (session w2); ups] ∧
             <["foo" := JStr "baz"]> (<["_id" := JStr "X"]> Scenario.persisted) ∈ ups ∧
             _deleted (session w3) = ∅ ∧
             "X" ∈ _changed (session w3) ∧ _cache (session w3) !! "X" = None).
Proof.
  apply (changing_a_deleted_document_breaks_flush Scenario.fetched "X" 0%nat
           (<["_id" := JStr "X"]> Scenario.persisted) (JStr "1-a") "foo" (JStr "baz")).
  - apply memstore_echoes_ids.
  - apply fetched_consistent.
  - repeat split; closed_fact.
  - closed_fact.
  - closed_fact.
  - done.
Defined.

(** ** Calls on the proxies of a document *)

Arguments write_subject : simpl never.
Arguments subject_value : simpl never.
Arguments notified : simpl never.

Section Proxies.
Context {D : Type} `{!Database D}.
Implicit Types (w : world D) (l : loc) (d : gmap string json) (id : string)
  (self : wrapper callable).

Lemma subject_value_heap w w' p :
  heap w' = heap w → subject_value w' p = subject_value w p.
Proof. unfold subject_value. by intros ->. Qed.

(** A mutating call on a proxy of a cached document: the id enters
    [_changed], then the subject's method runs on what the proxy refers
    to. *)
Lemma notify_then_delegate_at w self l d id method :
  __modified self = Modified l →
  heap w !! l = Some (JDict d) → d !! "_id" = Some (JStr id) →
  notify_then_delegate Session.invoke self method w =
    match subject_value w (__subject__ self) with
    | Some x =>
        match method.2 x with
        | Val (a, x') =>
            (Val a, write_subject (__subject__ self) x'
                      (notified w l id (__subject__ self) method.1))
        | Exc e => (Exc e, notified w l id (__subject__ self) method.1)
        end
    | None => (Exc Detached, notified w l id (__subject__ self) method.1)
    end.
Proof.
  intros Hcb Hl Hk. unfold notify_then_delegate. rewrite Hcb. simpl.
  rewrite (modified_run _ l d id) by done. simpl.
  rewrite call_builtin_at.
  assert (∀ tr, World (heap w) (set_changed ({[id]} ∪.) (session w)) (db w)
                  ((trace w ++ [Notify]) ++ [Delegate (l, []) "__getitem__"] ++ tr)
                  (rng w) =
                World (heap w) (set_changed ({[id]} ∪.) (session w)) (db w)
                  (trace w ++ [Notify; Delegate (l, []) "__getitem__"] ++ tr)
                  (rng w)) as Htr.
  { intros tr. by rewrite <- app_assoc. }
  unfold notified, set_trace. simpl.
  rewrite <- !app_assoc. simpl.
  match goal with |- context [subject_value ?w' ?p] =>
    change (subject_value w' p) with (subject_value w p) end.
  destruct (subject_value w (__subject__ self)) as [x|]; [|done].
  by destruct (method.2 x) as [[a x']|].
Qed.

Lemma write_subject_session w p x : session (write_subject p x w) = session w.
Proof. done. Qed.

Lemma write_subject_elsewhere w p x l :
  l ≠ p.1 → heap (write_subject p x w) !! l = heap w !! l.
Proof.
  intros Hne. unfold write_subject, set_heap. simpl.
  destruct (heap w !! p.1); [|done]. by rewrite lookup_insert_ne.
Qed.

(** What a mutating call on a proxy of a cached document leaves. *)
Lemma mutation_outcome w self l d id method :
  __modified self = Modified l →
  heap w !! l = Some (JDict d) → d !! "_id" = Some (JStr id) →
  let out := notify_then_delegate Session.invoke self method w in
  _changed (session out.2) = {[id]} ∪ _changed (session w) ∧
  _created (session out.2) = _created (session w) ∧
  _deleted (session out.2) = _deleted (session w) ∧
  _cache (session out.2) = _cache (session w) ∧
  db out.2 = db w ∧
  (∀ l', l' ≠ (__subject__ self).1 → heap out.2 !! l' = heap w !! l') ∧
  (∀ e, out.1 = Exc e → heap out.2 = heap w).
Proof.
  intros Hcb Hl Hk. cbv zeta.
  rewrite (notify_then_delegate_at w self l d id method Hcb Hl Hk).
  destruct (subject_value w (__subject__ self)) as [x|]; [|done].
  destruct (method.2 x) as [[a x']|]; [|done].
  split_and!; try done.
  intros l' Hne. cbn [snd]. by rewrite write_subject_elsewhere.
Qed.

(** X19. A mutating call on a proxy of a cached document, however deep
    the container it wraps, records the document's id in [_changed] before
    it turns to the container: the id is in [_changed] afterwards whether
    the call returned or raised, and when it raised (a missing key, an
    index out of range, a value that is not there) the documents are as
    they were.  The other sets, the cache and the store are not touched. *)
Theorem mutation_marks_the_document_changed_first w self l d id :
  __modified self = Modified l →
  heap w !! l = Some (JDict d) → d !! "_id" = Some (JStr id) →
  (∀ m, let out := dict_mutate Session.invoke self m w in
        _changed (session out.2) = {[id]} ∪ _changed (session w) ∧
        _created (session out.2) = _created (session w) ∧
        _deleted (session out.2) = _deleted (session w) ∧
        _cache (session out.2) = _cache (session w) ∧
        db out.2 = db w ∧
        (∀ e, out.1 = Exc e → heap out.2 = heap w)) ∧
  (∀ m, let out := list_mutate Session.invoke self m w in
        _changed (session out.2) = {[id]} ∪ _changed (session w) ∧
        _created (session out.2) = _created (session w) ∧
        _deleted (session out.2) = _deleted (session w) ∧
        _cache (session out.2) = _cache (session w) ∧
        db out.2 = db w ∧
        (∀ e, out.1 = Exc e → heap out.2 = heap w)).
Proof.
  intros Hcb Hl Hk. split; intros m; simpl.
  - rewrite dict_mutate_run.
    destruct (mutation_outcome w self l d id (dict_method m) Hcb Hl Hk)
      as (? & ? & ? & ? & ? & _ & ?).
    done.
  - rewrite list_mutate_run.
    destruct (mutation_outcome w self l d id (list_method m) Hcb Hl Hk)
      as (? & ? & ? & ? & ? & _ & ?).
    done.
Qed.

Lemma delegate_at {C A} w (self : wrapper C) name (f : builtin A) :
  delegate self name f w =
    match subject_value w (__subject__ self) with
    | Some x =>
        match f x with
        | Val (a, x') =>
            (Val a, write_subject (__subject__ self) x'
                      (set_trace (.++ [Delegate (__subject__ self) name]) w))
        | Exc e => (Exc e, set_trace (.++ [Delegate (__subject__ self) name]) w)
        end
    | None => (Exc Detached, set_trace (.++ [Delegate (__subject__ self) name]) w)
    end.
Proof. unfold delegate. mrun. by rewrite call_builtin_at. Qed.

(** Reading an item through a dictionary proxy, however deep. *)
Lemma dict_getitem_at {C} w (self : wrapper C) dsub k :
  subject_value w (__subject__ self) = Some (JDict dsub) →
  Dictionary.__getitem__ self k w =
    (match dsub !! k with
     | Some x => Val (wrap x (child (__subject__ self) (KStr k)) (__modified self))
     | None => Exc KeyError
     end,
     set_trace (.++ [Delegate (__subject__ self) "__getitem__"]) w).
Proof.
  intros Hs. unfold Dictionary.__getitem__. rewrite run_bind, delegate_at, Hs. simpl.
  destruct (dsub !! k) as [x|]; [|done]. simpl.
  by rewrite write_subject_same.
Qed.

Lemma dict_contains_at {C} w (self : wrapper C) dsub k :
  subject_value w (__subject__ self) = Some (JDict dsub) →
  Dictionary.__contains__ self k w =
    (Val (bool_decide (is_Some (dsub !! k))),
     set_trace (.++ [Delegate (__subject__ self) "__getitem__"]) w).
Proof.
  intros Hs. unfold Dictionary.__contains__. rewrite (dict_getitem_at w self dsub k Hs).
  destruct (dsub !! k) as [x|].
  - by rewrite bool_decide_eq_true_2 by (by eexists).
  - by rewrite bool_decide_eq_false_2 by (by intros [? ?]).
Qed.

Lemma list_getitem_at {C} w (self : wrapper C) xs i :
  subject_value w (__subject__ self) = Some (JList xs) →
  List.__getitem__ self i w =
    (match index (length xs) i with
     | Some n =>
         match xs !! n with
         | Some x => Val (wrap x (child (__subject__ self) (KIdx n)) (__modified self))
         | None => Exc IndexError
         end
     | None => Exc IndexError
     end,
     set_trace (.++ [Delegate (__subject__ self) "__getitem__"]) w).
Proof.
  intros Hs. unfold List.__getitem__. rewrite run_bind, delegate_at, Hs. simpl.
  destruct (index (length xs) i) as [n|]; [|done].
  destruct (xs !! n) as [x|]; [|done]. simpl.
  by rewrite write_subject_same.
Qed.

(** The document of a proxy keeps its id through a call that spares it. *)
Lemma mutation_keeps_document w self l d id method :
  heap w !! l = Some (JDict d) → d !! "_id" = Some (JStr id) →
  keeps_id (__subject__ self).2 method.2 →
  ∃ d', heap (notify_then_delegate Session.invoke self method w).2 !! l =
          Some (JDict d') ∧ d' !! "_id" = Some (JStr id).
Proof.
  intros Hl Hk Hkeep.
  destruct (filed_notify_then_delegate self method Hkeep w) as [Hh _].
  by apply (Hh l d id).
Qed.

(** X20. Item assignment and deletion through a dictionary proxy of a
    cached document, however deep the dictionary: after [d[k] = x],
    [d[k]] gives [x] (behind a proxy with the same callback when [x] is a
    container) and [k in d] holds; after [del d[k]], [d[k]] raises
    [KeyError], [k in d] does not hold, and a second [del d[k]] raises
    [KeyError]. *)
Theorem item_assignment_round_trip w self l d id dsub k x :
  __modified self = Modified l →
  heap w !! l = Some (JDict d) → d !! "_id" = Some (JStr id) →
  subject_value w (__subject__ self) = Some (JDict dsub) →
  ((__subject__ self).2 = [] → k ≠ "_id") →
  ∃ w1 w2,
    dict_mutate Session.invoke self (DictSetItem k x) w = (Val JNull, w1) ∧
    subject_value w1 (__subject__ self) = Some (JDict (<[k := x]> dsub)) ∧
    (Dictionary.__getitem__ self k w1).1 =
      Val (wrap x (child (__subject__ self) (KStr k)) (Modified l)) ∧
    (Dictionary.__contains__ self k w1).1 = Val true ∧
    dict_mutate Session.invoke self (DictDelItem k) w1 = (Val JNull, w2) ∧
    subject_value w2 (__subject__ self) = Some (JDict (delete k dsub)) ∧
    (Dictionary.__getitem__ self k w2).1 = Exc KeyError ∧
    (Dictionary.__contains__ self k w2).1 = Val false ∧
    (dict_mutate Session.invoke self (DictDelItem k) w2).1 = Exc KeyError.
Proof.
  intros Hcb Hl Hk Hs Hkey.
  (* d[k] = x *)
  pose proof (notify_then_delegate_at w self l d id (dict_method (DictSetItem k x))
                Hcb Hl Hk) as Hrun1.
  rewrite Hs in Hrun1.
  assert ((dict_method (DictSetItem k x)).2 (JDict dsub) =
          Val (JNull, JDict (<[k := x]> dsub))) as Hm1 by done.
  rewrite Hm1 in Hrun1.
  match type of Hrun1 with _ = (_, ?x) => set (w1 := x) in * end.
  destruct (mutation_keeps_document w self l d id (dict_method (DictSetItem k x)) Hl Hk)
    as (d1 & Hl1 & Hk1); [by apply keeps_id_dict_method|].
  rewrite Hrun1 in Hl1. cbn [snd] in Hl1.
  assert (subject_value w1 (__subject__ self) = Some (JDict (<[k := x]> dsub))) as Hs1.
  { by apply (subject_value_written _ _ (JDict dsub)). }
  (* del d[k] *)
  pose proof (notify_then_delegate_at w1 self l d1 id (dict_method (DictDelItem k))
                Hcb Hl1 Hk1) as Hrun2.
  rewrite Hs1 in Hrun2.
  assert ((dict_method (DictDelItem k)).2 (JDict (<[k := x]> dsub)) =
          Val (JNull, JDict (delete k dsub))) as Hm2.
  { simpl. unfold as_None. simpl. by rewrite lookup_insert_eq, delete_insert_eq. }
  rewrite Hm2 in Hrun2.
  match type of Hrun2 with _ = (_, ?x) => set (w2 := x) in * end.
  destruct (mutation_keeps_document w1 self l d1 id (dict_method (DictDelItem k)) Hl1 Hk1)
    as (d2 & Hl2 & Hk2); [by apply keeps_id_dict_method|].
  rewrite Hrun2 in Hl2. cbn [snd] in Hl2.
  assert (subject_value w2 (__subject__ self) = Some (JDict (delete k dsub))) as Hs2.
  { by apply (subject_value_written _ _ (JDict (<[k := x]> dsub))). }
  exists w1, w2. split_and!; try done.
  - by rewrite dict_mutate_run.
  - rewrite (dict_getitem_at w1 self _ k Hs1), lookup_insert_eq. simpl. by rewrite Hcb.
  - rewrite (dict_contains_at w1 self _ k Hs1), lookup_insert_eq.
    by rewrite bool_decide_eq_true_2 by (by eexists).
  - by rewrite dict_mutate_run.
  - by rewrite (dict_getitem_at w2 self _ k Hs2), lookup_delete_eq.
  - rewrite (dict_contains_at w2 self _ k Hs2), lookup_delete_eq.
    by rewrite bool_decide_eq_false_2 by (by intros [? ?]).
  - rewrite dict_mutate_run.
    rewrite (notify_then_delegate_at w2 self l d2 id _ Hcb Hl2 Hk2), Hs2.
    assert ((dict_method (DictDelItem k)).2 (JDict (delete k dsub)) = Exc KeyError)
      as -> by (simpl; unfold as_None; simpl; by rewrite lookup_delete_eq).
    done.
Qed.

Lemma index_last n : index (S n) (-1) = Some n.
Proof.
  unfold index. change (-1 <? 0) with true. cbv iota.
  replace (-1 + Z.of_nat (S n)) with (Z.of_nat n) by lia.
  rewrite (proj2 (Z.leb_le _ _)) by lia. rewrite (proj2 (Z.ltb_lt _ _)) by lia.
  simpl. by rewrite Nat2Z.id.
Qed.

Lemma index_empty i : index 0 i = None.
Proof.
  unfold index. destruct (i <? 0) eqn:Hi; simpl.
  - apply Z.ltb_lt in Hi. rewrite Z.add_0_r.
    by rewrite (proj2 (Z.leb_gt _ _)) by lia.
  - destruct (0 <=? i); [|done]. simpl. apply Z.ltb_ge in Hi.
    by rewrite (proj2 (Z.ltb_ge _ _)) by lia.
Qed.

(** X21. [append] and [pop] through a list proxy of a cached document,
    however deep the list: after [xs.append(x)], [xs[-1]] gives [x];
    [xs.pop()] then returns [x] and leaves the list as it was before the
    [append]; and [pop()] on an empty list raises [IndexError]. *)
Theorem append_then_pop_round_trip w self l d id xs x :
  __modified self = Modified l →
  heap w !! l = Some (JDict d) → d !! "_id" = Some (JStr id) →
  subject_value w (__subject__ self) = Some (JList xs) →
  ∃ w1 w2,
    list_mutate Session.invoke self (ListAppend x) w = (Val JNull, w1) ∧
    subject_value w1 (__subject__ self) = Some (JList (xs ++ [x])) ∧
    (List.__getitem__ self (-1) w1).1 =
      Val (wrap x (child (__subject__ self) (KIdx (length xs))) (Modified l)) ∧
    list_mutate Session.invoke self (ListPop None) w1 = (Val x, w2) ∧
    subject_value w2 (__subject__ self) = Some (JList xs) ∧
    (xs = [] →
       (list_mutate Session.invoke self (ListPop None) w2).1 = Exc IndexError).
Proof.
  intros Hcb Hl Hk Hs.
  assert (length (xs ++ [x]) = S (length xs)) as Hlen
    by (rewrite length_app; simpl; lia).
  assert ((xs ++ [x]) !! length xs = Some x) as Hlast
    by (by rewrite lookup_app_r, Nat.sub_diag by lia).
  assert (delete (length xs) (xs ++ [x]) = xs) as Hdel.
  { clear. induction xs as [|y xs IH]; [done|]. simpl. by rewrite IH. }
  (* xs.append(x) *)
  pose proof (notify_then_delegate_at w self l d id (list_method (ListAppend x))
                Hcb Hl Hk) as Hrun1.
  rewrite Hs in Hrun1.
  assert ((list_method (ListAppend x)).2 (JList xs) =
          Val (JNull, JList (xs ++ [x]))) as Hm1 by done.
  rewrite Hm1 in Hrun1.
  match type of Hrun1 with _ = (_, ?x) => set (w1 := x) in * end.
  destruct (mutation_keeps_document w self l d id (list_method (ListAppend x)) Hl Hk)
    as (d1 & Hl1 & Hk1); [apply keeps_id_list_method|].
  rewrite Hrun1 in Hl1. cbn [snd] in Hl1.
  assert (subject_value w1 (__subject__ self) = Some (JList (xs ++ [x]))) as Hs1.
  { by apply (subject_value_written _ _ (JList xs)). }
  (* xs.pop() *)
  pose proof (notify_then_delegate_at w1 self l d1 id (list_method (ListPop None))
                Hcb Hl1 Hk1) as Hrun2.
  rewrite Hs1 in Hrun2.
  assert ((list_method (ListPop None)).2 (JList (xs ++ [x])) = Val (x, JList xs))
    as Hm2.
  { cbn [list_method snd list_pop on_list default].
    by rewrite Hlen, index_last, Hlast, Hdel. }
  rewrite Hm2 in Hrun2.
  match type of Hrun2 with _ = (_, ?x) => set (w2 := x) in * end.
  destruct (mutation_keeps_document w1 self l d1 id (list_method (ListPop None)) Hl1 Hk1)
    as (d2 & Hl2 & Hk2); [apply keeps_id_list_method|].
  rewrite Hrun2 in Hl2. cbn [snd] in Hl2.
  assert (subject_value w2 (__subject__ self) = Some (JList xs)) as Hs2.
  { by apply (subject_value_written _ _ (JList (xs ++ [x]))). }
  exists w1, w2. split_and!; try done.
  - by rewrite list_mutate_run.
  - rewrite (list_getitem_at w1 self _ (-1) Hs1), Hlen, index_last, Hlast. simpl.
    by rewrite Hcb.
  - intros ->. rewrite list_mutate_run.
    rewrite (notify_then_delegate_at w2 self l d2 id _ Hcb Hl2 Hk2), Hs2.
    assert ((list_method (ListPop None)).2 (JList []) = Exc IndexError) as -> by done.
    done.
Qed.

Lemma getslice_value i j ys :
  list___getslice__ i j (JList ys) =
    Val (take ((slice_bounds (length ys) i j).2 - (slice_bounds (length ys) i j).1)
           (drop (slice_bounds (length ys) i j).1 ys), JList ys).
Proof.
  unfold list___getslice__, on_list. by destruct (slice_bounds (length ys) i j).
Qed.

(** X22. A slice taken through a list proxy is a new list behind a proxy
    with the same callback: it holds the elements of the slice, and a
    mutating call on it leaves every object that existed before as it
    was, the document included, yet records the document's id in
    [_changed]. *)
Theorem slice_is_a_copy w self l d id ys i j :
  __modified self = Modified l →
  heap w !! l = Some (JDict d) → d !! "_id" = Some (JStr id) →
  subject_value w (__subject__ self) = Some (JList ys) →
  ∃ c w1,
    List.__getslice__ self i j w =
      (Val (ListProxy (Wrapper (c, []) (Modified l))), w1) ∧
    heap w !! c = None ∧
    heap w1 =
      <[c := JList (take ((slice_bounds (length ys) i j).2 -
                          (slice_bounds (length ys) i j).1)
                      (drop (slice_bounds (length ys) i j).1 ys))]> (heap w) ∧
    session w1 = session w ∧
    ∀ m, let out := list_mutate Session.invoke (Wrapper (c, []) (Modified l)) m w1 in
         (∀ l', l' ≠ c → heap out.2 !! l' = heap w !! l') ∧
         id ∈ _changed (session out.2).
Proof.
  intros Hcb Hl Hk Hs.
  set (c := fresh (dom (heap w))).
  set (w1 := World
    (<[c := JList (take ((slice_bounds (length ys) i j).2 -
                         (slice_bounds (length ys) i j).1)
                     (drop (slice_bounds (length ys) i j).1 ys))]> (heap w))
    (session w) (db w)
    (trace w ++ [Delegate (__subject__ self) "__getslice__"]) (rng w)).
  assert (c ≠ l) as Hne.
  { intros Heq. pose proof (fresh_unused w) as Hf. fold c in Hf. congruence. }
  assert (heap w1 !! l = Some (JDict d)) as Hl1.
  { subst w1. simpl. by rewrite lookup_insert_ne. }
  exists c, w1. split_and!; try done.
  - unfold List.__getslice__. rewrite run_bind, delegate_at, Hs, getslice_value.
    rewrite write_subject_same by done. rewrite run_bind, new_object_run.
    cbn [wrap ret]. by rewrite Hcb.
  - apply fresh_unused.
  - intros m. cbv zeta. rewrite list_mutate_run.
    destruct (mutation_outcome w1 (Wrapper (c, []) (Modified l)) l d id
                (list_method m) eq_refl Hl1 Hk) as (Hch & _ & _ & _ & _ & Hheap & _).
    split.
    + intros l' Hl'. rewrite (Hheap l' Hl'). subst w1. simpl.
      by rewrite lookup_insert_ne.
    + rewrite Hch. set_solver.
Qed.

(** Reading through a proxy leaves the world as it was, trace apart. *)
Lemma delegate_reading {C A} w (self : wrapper C) name (f : builtin A) :
  reads f →
  (delegate self name f w).2 =
    set_trace (.++ [Delegate (__subject__ self) name]) w.
Proof.
  intros Hf. rewrite delegate_at.
  destruct (subject_value w (__subject__ self)) as [x|] eqn:Hx; [|done].
  destruct (f x) as [[a x']|] eqn:Hfx; [|done]. cbn [snd].
  apply Hf in Hfx as ->. by apply write_subject_same.
Qed.

(** X23. Reading through a proxy changes nothing: item lookup, [keys] and
    [in] on a dictionary proxy and item lookup on a list proxy leave
    documents, cache, tracking sets and store as they were, whether they
    return or raise; taking a slice adds one new object and touches
    nothing else. *)
Theorem reads_change_nothing {C} (self : wrapper C) w :
  (∀ r, ∃ name,
     (dict_read_call self r w).2 =
       set_trace (.++ [Delegate (__subject__ self) name]) w) ∧
  (∀ i, (List.__getitem__ self i w).2 =
          set_trace (.++ [Delegate (__subject__ self) "__getitem__"]) w) ∧
  (∀ i j, let out := List.__getslice__ self i j w in
          session out.2 = session w ∧ db out.2 = db w ∧
          ∀ l v, heap w !! l = Some v → heap out.2 !! l = Some v).
Proof.
  assert (∀ k, (Dictionary.__getitem__ self k w).2 =
               set_trace (.++ [Delegate (__subject__ self) "__getitem__"]) w) as Hget.
  { intros k. unfold Dictionary.__getitem__. rewrite run_bind.
    pose proof (delegate_reading w self "__getitem__" _ (reads_dict_getitem k)) as Hd.
    by destruct (delegate _ _ _ _) as [[x|e] w']. }
  split_and!.
  - intros [k| |k]; simpl.
    + exists "__getitem__". apply Hget.
    + exists "keys". unfold Dictionary.keys. rewrite run_bind.
      pose proof (delegate_reading w self "keys" _ reads_dict_keys) as Hd.
      by destruct (delegate _ _ _ _) as [[x|e] w'].
    + exists "__getitem__". rewrite run_bind. unfold Dictionary.__contains__.
      specialize (Hget k).
      by destruct (Dictionary.__getitem__ self k w) as [[x|[]] w'].
  - intros i. unfold List.__getitem__. rewrite run_bind.
    pose proof (delegate_reading w self "__getitem__" _ (reads_list_getitem i)) as Hd.
    by destruct (delegate _ _ _ _) as [[x|e] w'].
  - intros i j. cbv zeta. unfold List.__getslice__. rewrite run_bind.
    pose proof (delegate_reading w self "__getslice__" _ (reads_list_getslice i j)) as Hd.
    destruct (delegate _ _ _ _) as [[x|e] w']; cbn [snd] in Hd; subst w'.
    + rewrite run_bind, new_object_run. cbn [ret snd]. split_and!; try done.
      intros l0 v Hl0. simpl. rewrite lookup_insert_ne; [done|].
      intros <-. pose proof (fresh_unused (set_trace (.++ [Delegate (__subject__ self)
        "__getslice__"]) w)) as Hf. simpl in Hf. congruence.
    + done.
Qed.
End Proxies.

Lemma mutation_marks_the_document_changed_first_witness :
  (∀ m, let out := dict_mutate Session.invoke Scenario.tags m Scenario.with_list in
        _changed (session out.2) = {["L"]} ∪ _changed (session Scenario.with_list) ∧
        _created (session out.2) = _created (session Scenario.with_list) ∧
        _deleted (session out.2) = _deleted (session Scenario.with_list) ∧
        _cache (session out.2) = _cache (session Scenario.with_list) ∧
        db out.2 = db Scenario.with_list ∧
        (∀ e, out.1 = Exc e → heap out.2 = heap Scenario.with_list)) ∧
  (∀ m, let out := list_mutate Session.invoke Scenario.tags m Scenario.with_list in
        _changed (session out.2) = {["L"]} ∪ _changed (session Scenario.with_list) ∧
        _created (session out.2) = _created (session Scenario.with_list) ∧
        _deleted (session out.2) = _deleted (session Scenario.with_list) ∧
        _cache (session out.2) = _cache (session Scenario.with_list) ∧
        db out.2 = db Scenario.with_list ∧
        (∀ e, out.1 = Exc e → heap out.2 = heap Scenario.with_list)).
Proof.
  apply (mutation_marks_the_document_changed_first Scenario.with_list Scenario.tags
           0%nat (<["_id" := JStr "L"]> {["tags" := JList [JStr "a"; JStr "b"]]}) "L").
  - reflexivity.
  - closed_fact.
  - closed_fact.
Defined.

Lemma item_assignment_round_trip_witness :
  ∃ w1 w2,
    dict_mutate Session.invoke (proxy 0%nat) (DictSetItem "foo" (JStr "baz"))
      Scenario.fetched = (Val JNull, w1) ∧
    subject_value w1 (__subject__ (proxy 0%nat)) =
      Some (JDict (<["foo" := JStr "baz"]> (<["_id" := JStr "X"]> Scenario.persisted))) ∧
    (Dictionary.__getitem__ (proxy 0%nat) "foo" w1).1 =
      Val (wrap (JStr "baz") (child (__subject__ (proxy 0%nat)) (KStr "foo"))
             (Modified 0%nat)) ∧
    (Dictionary.__contains__ (proxy 0%nat) "foo" w1).1 = Val true ∧
    dict_mutate Session.invoke (proxy 0%nat) (DictDelItem "foo") w1 = (Val JNull, w2) ∧
    subject_value w2 (__subject__ (proxy 0%nat)) =
      Some (JDict (delete "foo" (<["_id" := JStr "X"]> Scenario.persisted))) ∧
    (Dictionary.__getitem__ (proxy 0%nat) "foo" w2).1 = Exc KeyError ∧
    (Dictionary.__contains__ (proxy 0%nat) "foo" w2).1 = Val false ∧
    (dict_mutate Session.invoke (proxy 0%nat) (DictDelItem "foo") w2).1 = Exc KeyError.
Proof.
  apply (item_assignment_round_trip Scenario.fetched (proxy 0%nat) 0%nat
           (<["_id" := JStr "X"]> Scenario.persisted) "X").
  - reflexivity.
  - closed_fact.
  - closed_fact.
  - closed_fact.
  - done.
Defined.

Lemma append_then_pop_round_trip_witness :
  ∃ w1 w2,
    list_mutate Session.invoke Scenario.tags (ListAppend (JStr "c"))
      Scenario.with_list = (Val JNull, w1) ∧
    subject_value w1 (__subject__ Scenario.tags) =
      Some (JList ([JStr "a"; JStr "b"] ++ [JStr "c"])) ∧
    (List.__getitem__ Scenario.tags (-1) w1).1 =
      Val (wrap (JStr "c")
             (child (__subject__ Scenario.tags) (KIdx (length [JStr "a"; JStr "b"])))
             (Modified 0%nat)) ∧
    list_mutate Session.invoke Scenario.tags (ListPop None) w1 = (Val (JStr "c"), w2) ∧
    subject_value w2 (__subject__ Scenario.tags) = Some (JList [JStr "a"; JStr "b"]) ∧
    ([JStr "a"; JStr "b"] = [] →
       (list_mutate Session.invoke Scenario.tags (ListPop None) w2).1 = Exc IndexError).
Proof.
  apply (append_then_pop_round_trip Scenario.with_list Scenario.tags 0%nat
           (<["_id" := JStr "L"]> {["tags" := JList [JStr "a"; JStr "b"]]}) "L").
  - reflexivity.
  - closed_fact.
  - closed_fact.
  - closed_fact.
Defined.

Lemma slice_is_a_copy_witness :
  ∃ c w1,
    List.__getslice__ Scenario.tags 0 1 Scenario.with_list =
      (Val (ListProxy (Wrapper (c, []) (Modified 0%nat))), w1) ∧
    heap Scenario.with_list !! c = None ∧
    heap w1 =
      <[c := JList (take ((slice_bounds (length [JStr "a"; JStr "b"]) 0 1).2 -
                          (slice_bounds (length [JStr "a"; JStr "b"]) 0 1).1)
                      (drop (slice_bounds (length [JStr "a"; JStr "b"]) 0 1).1
                         [JStr "a"; JStr "b"]))]> (heap Scenario.with_list) ∧
    session w1 = session Scenario.with_list ∧
    ∀ m, let out := list_mutate Session.invoke (Wrapper (c, []) (Modified 0%nat)) m w1 in
         (∀ l', l' ≠ c → heap out.2 !! l' = heap Scenario.with_list !! l') ∧
         "L" ∈ _changed (session out.2).
Proof.
  apply (slice_is_a_copy Scenario.with_list Scenario.tags 0%nat
           (<["_id" := JStr "L"]> {["tags" := JList [JStr "a"; JStr "b"]]}) "L").
  - reflexivity.
  - closed_fact.
  - closed_fact.
  - closed_fact.
Defined.

(** ** Flushing with nothing to send *)

Section Clean.
Context {D : Type} `{!Database D}.
Implicit Types (w : world D) (l : loc) (d : gmap string json) (id : string).

(** X24. [flush] does not look whether there is anything to send: on a
    session with nothing created, changed or deleted (as a [flush] that
    returned leaves it) it still makes its two batched calls, both with an
    empty batch, and against a store that answers entry by entry it
    returns with cache, tracking sets and documents as they were. *)
Theorem flush_with_nothing_pending_sends_two_empty_batches w rs0 st1 rs st2 :
  echoes_ids D →
  _created (session w) = ∅ → _changed (session w) = ∅ → _deleted (session w) = ∅ →
  db_update (db w) [] = (Val rs0, st1) → db_update st1 [] = (Val rs, st2) →
  ∃ w', Session.flush w = (Val tt, w') ∧
        session w' = session w ∧ heap w' = heap w ∧ db w' = st2 ∧
        updates_sent (trace w') = updates_sent (trace w) ++ [[]; []].
Proof.
  intros Hecho Hcr Hch Hdel Hdb1 Hdb2.
  assert (Session.deletions (session w) = []) as Hnone.
  { unfold Session.deletions. by rewrite Hdel, map_to_list_empty. }
  destruct (flush_until_update w [] rs0 st1) as (evs & Hevs & ->).
  { rewrite Hcr, Hch, elements_empty. constructor. }
  { intros id [rev Hrev]. by rewrite Hdel, lookup_empty in Hrev. }
  { by rewrite Hnone. }
  rewrite Hdb2.
  pose proof (Hecho _ _ _ _ Hdb2) as Hrs. apply Forall2_nil_inv_r in Hrs as ->.
  simpl. eexists. split; [done|]. simpl. split_and!; try done.
  - rewrite Hdel, map_to_list_empty. simpl.
    destruct (session w) as [cache cr ch de]. simpl in *. by subst.
  - rewrite Hnone, !updates_sent_app, (reads_only_updates_sent evs Hevs). done.
Qed.
End Clean.

Lemma flushed_is_clean :
  _created (session Scenario.flushed) = ∅ ∧ _changed (session Scenario.flushed) = ∅ ∧
  _deleted (session Scenario.flushed) = ∅.
Proof. repeat split; closed_fact. Qed.

Lemma flush_with_nothing_pending_sends_two_empty_batches_witness :
  ∃ w', Session.flush Scenario.flushed = (Val tt, w') ∧
        session w' = session Scenario.flushed ∧ heap w' = heap Scenario.flushed ∧
        db w' = db Scenario.flushed ∧
        updates_sent (trace w') = updates_sent (trace Scenario.flushed) ++ [[]; []].
Proof.
  apply (flush_with_nothing_pending_sends_two_empty_batches Scenario.flushed
           [] (db Scenario.flushed) []).
  - apply memstore_echoes_ids.
  - apply flushed_is_clean.
  - apply flushed_is_clean.
  - apply flushed_is_clean.
  - reflexivity.
  - reflexivity.
Defined.

(** ** Revisions from one flush to the next *)

Section Revisions.
Context {D : Type} `{!Database D}.
Implicit Types (w : world D) (l : loc) (d : gmap string json) (id : string).

(** After a [flush] that returned, a document that was created or changed
    is still cached, as the same object, under its id, and carries the
    revision of an entry for that id in the store's answer. *)
Lemma flush_revision w w' id :
  echoes_ids D → consistent w → Session.flush w = (Val tt, w') →
  id ∈ _created (session w) ∪ _changed (session w) →
  ∃ l d' rs0 st1 ups rs r,
    _cache (session w') !! id = Some l ∧
    heap w' !! l = Some (JDict d') ∧ d' !! "_id" = Some (JStr id) ∧
    db_update (db w) (Session.deletions (session w)) = (Val rs0, st1) ∧
    db_update st1 ups = (Val rs, db w') ∧
    r ∈ rs ∧ resp_id r = id ∧
    d' !! "_rev" = Some (JStr (resp_rev r)).
Proof.
  intros Hecho Hcons Hrun Hid.
  apply flush_inv in Hrun
    as (evs & ups & rs0 & st1 & rs & st2 & w2 & Hevs & Hups & Hdb1 & Hdb2 & Hrec & ->).
  apply record_revs_inv in Hrec as (Hcache & Hcr & Hdel & Hdb & _ & Hfound & Hheap).
  simpl in *.
  assert (id ∈ elements (_created (session w)) ++ elements (_changed (session w)))
    as Hin.
  { apply elem_of_app. rewrite !elem_of_elements. set_solver. }
  apply list_elem_of_lookup in Hin as [i Hi].
  destruct (Forall2_lookup_l _ _ _ _ _ Hups Hi) as (u & Hu & l & Hc & Hl).
  destruct (Hcons id l Hc) as (d & Hl' & Hk).
  rewrite Hl in Hl'. injection Hl' as ->.
  pose proof (Hecho _ _ _ _ Hdb2) as Hanswer.
  destruct (Forall2_lookup_r _ _ _ _ _ Hanswer Hu) as (r & Hr & Hrid).
  specialize (Hrid id Hk). apply list_elem_of_lookup_2 in Hr.
  destruct (Hfound r Hr) as [l0 Hl0]. rewrite Hrid in Hl0.
  rewrite evicted_lookup in Hl0.
  destruct (decide (id ∈ (map_to_list (_deleted (session w))).*1 ∧
                    id ∉ _created (session w))) as [?|Hkept]; [done|].
  rewrite Hc in Hl0. injection Hl0 as <-.
  destruct (Hheap l d Hl) as (d' & Hl2 & Hid' & Hrev).
  destruct Hrev as [[_ Hnone]|(r' & Hr' & Hc' & Hrev)].
  - exfalso. apply (Hnone r Hr). rewrite Hrid, evicted_lookup.
    by rewrite decide_False.
  - rewrite evicted_lookup in Hc'.
    destruct (decide (resp_id r' ∈ (map_to_list (_deleted (session w))).*1 ∧
                      resp_id r' ∉ _created (session w))); [done|].
    destruct (Hcons _ _ Hc') as (d0 & Hl0 & Hk0).
    rewrite Hl in Hl0. injection Hl0 as <-.
    rewrite Hk in Hk0. injection Hk0 as Hsame.
    exists l, d', rs0, st1, ups, rs, r'. split_and!; try done.
    + rewrite Hcache, evicted_lookup. by rewrite decide_False.
    + by rewrite Hid'.
    + by rewrite Hdb.
Qed.

(** X25. The revision a [flush] gets back for a created or changed
    document is the revision that goes out with the next change of that
    document: after the [flush] the cached document carries the revision
    of an entry for its id in the store's answer, and when the document
    is then changed and a second [flush] returns, that [flush] has sent an
    empty deletion batch and a batch of additions holding exactly the
    document, with that revision as its [_rev]. *)
Theorem returned_revision_goes_out_with_the_next_change w w1 id k x w3 :
  echoes_ids D → consistent w →
  id ∈ _created (session w) ∪ _changed (session w) →
  Session.flush w = (Val tt, w1) →
  k ≠ "_id" → k ≠ "_rev" →
  ∃ l d1 rs0 st1 ups rs r w2,
    _cache (session w1) !! id = Some l ∧ heap w1 !! l = Some (JDict d1) ∧
    db_update (db w) (Session.deletions (session w)) = (Val rs0, st1) ∧
    db_update st1 ups = (Val rs, db w1) ∧
    r ∈ rs ∧ resp_id r = id ∧ d1 !! "_rev" = Some (JStr (resp_rev r)) ∧
    Dictionary.__setitem__ Session.invoke (proxy l) k x w1 = (Val tt, w2) ∧
    (Session.flush w2 = (Val tt, w3) →
       updates_sent (trace w3) =
         updates_sent (trace w1) ++ [[]; [<[k := x]> d1]] ∧
       (<[k := x]> d1) !! "_rev" = Some (JStr (resp_rev r))).
Proof.
  intros Hecho Hcons Hid Hflush Hk_id Hk_rev.
  destruct (flush_revision w w1 id Hecho Hcons Hflush Hid)
    as (l & d1 & rs0 & st1 & ups & rs & r & Hc1 & Hl1 & Hid1 & Hdb1 & Hdb2 & Hr & Hrid & Hrev).
  apply flush_returned in Hflush as (_ & _ & _ & _ & _ & _ & _ & _ & Hs1 & _).
  pose proof (proxy_setitem w1 l d1 id k x Hl1 Hid1) as Hset.
  match type of Hset with _ = (_, ?x) => set (w2 := x) in * end.
  exists l, d1, rs0, st1, ups, rs, r, w2. split_and!; try done.
  intros Hflush2. split; [|by rewrite lookup_insert_ne].
  apply flush_returned in Hflush2 as (ups2 & _ & _ & _ & Hsent & Hups2 & _).
  assert (_created (session w2) = ∅) as Hcr2 by (simpl; by rewrite Hs1).
  assert (_changed (session w2) = {[id]}) as Hch2.
  { simpl. rewrite Hs1. simpl. set_solver. }
  assert (Session.deletions (session w2) = []) as Hdel2.
  { unfold Session.deletions. simpl. rewrite Hs1. simpl. by rewrite map_to_list_empty. }
  rewrite Hcr2, Hch2, elements_empty, elements_singleton in Hups2. simpl in Hups2.
  apply Forall2_cons_inv_l in Hups2 as (u & ups' & (l' & Hc' & Hl') & Hnil & ->).
  apply Forall2_nil_inv_l in Hnil as ->.
  simpl in Hc', Hl'. rewrite Hc1 in Hc'. injection Hc' as <-.
  rewrite lookup_insert_eq in Hl'. injection Hl' as <-.
  rewrite Hsent, Hdel2. simpl. rewrite !updates_sent_app. simpl.
  by rewrite !app_nil_r.
Qed.
End Revisions.

Section Fetching.
Context {D : Type} `{!Database D}.
Implicit Types (w : world D) (l : loc) (d : gmap string json) (id : string).

(** X26. [del session[id]] for an id that is not cached reads the
    document from the store, caches it and deletes it: one store read is
    made and nothing is written, the document is a new cached object, its
    id is in [_deleted] with the revision the store gave and out of
    [_changed], and a lookup of the id now answers [None]. *)
Theorem delitem_fetches_then_deletes w id doc rev default :
  _cache (session w) !! id = None →
  db_get (db w) id = Val (Some doc) →
  doc !! "_id" = Some (JStr id) → doc !! "_rev" = Some rev →
  id ∉ _created (session w) →
  ∃ l w1,
    Session.__delitem__ id w = (Val tt, w1) ∧
    heap w !! l = None ∧ heap w1 = <[l := JDict doc]> (heap w) ∧
    session w1 =
      set_deleted <[id := rev]>
        (set_changed (.∖ {[id]}) (set_cache <[id := l]> (session w))) ∧
    db w1 = db w ∧
    store_calls (trace w1) = store_calls (trace w) ++ [DbGet id] ∧
    (Session.get id default w1).1 = Val (Raw JNull).
Proof.
  intros Hc Hdb Hk Hrev Hnew.
  set (l := fresh (dom (heap w))).
  unfold Session.__delitem__. mrun. rewrite getitem_run.
  rewrite (get_miss_found w id doc id _ Hc Hdb Hk). simpl.
  rewrite (delete_persisted_run _ l doc id rev);
    [|simpl; apply lookup_insert_eq|done|done|done].
  exists l. eexists. split; [done|]. simpl. split_and!; try done.
  - apply fresh_unused.
  - rewrite !store_calls_app. simpl. by rewrite app_nil_r.
  - match goal with |- (Session.get _ _ ?x).1 = _ => set (w1 := x) end.
    rewrite (get_hit_pending w1 id l doc id default); [done|..].
    + simpl. apply lookup_insert_eq.
    + simpl. apply lookup_insert_eq.
    + done.
    + split; [|done]. simpl. rewrite lookup_insert_eq. by eexists.
Qed.
End Fetching.

Lemma edited_consistent : consistent Editing.edited.
Proof.
  apply (files_by_id_consistent Scenario.fetched); [|apply fetched_consistent].
  pose proof (filed_notify_then_delegate (D := MemStore.t) (proxy 0%nat)
                (dict_method (DictSetItem "foo" (JStr "baz")))
                (keeps_id_dict_method [] (DictSetItem "foo" (JStr "baz"))
                   (λ _, ltac:(done))) Scenario.fetched) as Hm.
  by rewrite <- dict_mutate_run, <- dict_setitem_world in Hm.
Qed.

Lemma edited_flushes : Session.flush Editing.edited = (Val tt, Editing.saved).
Proof.
  unfold Editing.saved.
  assert ((Session.flush Editing.edited).1 = Val tt) as Hok by closed_fact.
  destruct (Session.flush Editing.edited) as [r w']. simpl in Hok. by rewrite Hok.
Qed.

Lemma edited_again_flushes :
  Session.flush Editing.edited_again = (Val tt, Editing.saved_again).
Proof.
  unfold Editing.saved_again.
  assert ((Session.flush Editing.edited_again).1 = Val tt) as Hok by closed_fact.
  destruct (Session.flush Editing.edited_again) as [r w']. simpl in Hok.
  by rewrite Hok.
Qed.

Lemma returned_revision_goes_out_with_the_next_change_witness :
  ∃ d1 r,
    heap Editing.saved !! 0%nat = Some (JDict d1) ∧
    d1 !! "_rev" = Some (JStr (resp_rev r)) ∧
    updates_sent (trace Editing.saved_again) =
      updates_sent (trace Editing.saved) ++ [[]; [<["n" := JNum 2]> d1]] ∧
    (<["n" := JNum 2]> d1) !! "_rev" = Some (JStr (resp_rev r)).
Proof.
  destruct (returned_revision_goes_out_with_the_next_change Editing.edited
              Editing.saved "X" "n" (JNum 2) Editing.saved_again
              memstore_echoes_ids edited_consistent)
    as (l & d1 & rs0 & st1 & ups & rs & r & w2 & Hc & Hl & _ & _ & _ & _ & Hrev
        & Hset & Hnext);
    [closed_fact|apply edited_flushes|done|done|].
  assert (Some l = Some 0%nat) as Hl0 by (rewrite <- Hc; closed_fact).
  injection Hl0 as ->.
  assert (w2 = Editing.edited_again) as ->.
  { unfold Editing.edited_again. by rewrite Hset. }
  destruct (Hnext edited_again_flushes) as [Hsent Hrev2].
  exists d1, r. split; [exact Hl|]. split; [exact Hrev|].
  split; [exact Hsent|exact Hrev2].
Defined.

Lemma delitem_fetches_then_deletes_witness :
  ∃ l w1,
    Session.__delitem__ "X" Scenario.start = (Val tt, w1) ∧
    heap Scenario.start !! l = None ∧
    heap w1 = <[l := JDict (<["_id" := JStr "X"]> Scenario.persisted)]>
                (heap Scenario.start) ∧
    session w1 =
      set_deleted <["X" := JStr "1-a"]>
        (set_changed (.∖ {["X"]}) (set_cache <["X" := l]> (session Scenario.start))) ∧
    db w1 = db Scenario.start ∧
    store_calls (trace w1) = store_calls (trace Scenario.start) ++ [DbGet "X"] ∧
    (Session.get "X" (Raw (JStr "missing")) w1).1 = Val (Raw JNull).
Proof.
  apply (delitem_fetches_then_deletes Scenario.start "X"
           (<["_id" := JStr "X"]> Scenario.persisted) (JStr "1-a")).
  - closed_fact.
  - closed_fact.
  - closed_fact.
  - closed_fact.
  - closed_fact.
Defined.
